(** * Audio tile synthesis and stitching engine (backend/services/elevenlabs_sfx.py)

    A shallow embedding of [ElevenLabsSFXClient]: the tile loop, the crossfade
    stitcher, the loop wrapper, the duration enforcer, the encoder and the
    file cache, together with the properties the engine specification states
    about them.

    Conventions.
    - Python [float] values (durations, samples) are rationals [Q].  Where
      the code turns a float product into an integer (a sample count), the
      product is the IEEE binary64 one: both operands and the result are
      rounded to the nearest double, ties to even ([float_mul]).  The
      arithmetic on sample values and on tile durations is exact; infinities
      and NaN are not represented.
    - Python [int] values are [Z]; [len(x)] is a [Z] so that it can be
      compared with a possibly negative sample count, as in the code.
    - A numpy one-dimensional array is a [list Q].
    - An exception is a value of [exn]; code that can raise returns an
      [outcome]; code that also touches the clock, the file system or the
      HTTP backend is a function on [World]. *)

From Stdlib Require Import ZArith QArith Qround Qabs Qpower Lia Lqa.
From stdpp Require Import gmap strings list pretty.

Open Scope Z_scope.

(** ** Exceptions and outcomes *)

Inductive exn :=
| Exception (msg : string)
| NameError (name : string)
| ValueError (msg : string)
| ZeroDivisionError (msg : string)
| JSONDecodeError (msg : string)
| OSError (msg : string).

(** [str(e)], as used for [error_message=str(e)]. *)
Definition str (e : exn) : string :=
  match e with
  | Exception msg => msg
  | NameError name => "name '" +:+ name +:+ "' is not defined"
  | ValueError msg => msg
  | ZeroDivisionError msg => msg
  | JSONDecodeError msg => msg
  | OSError msg => msg
  end.

Inductive outcome (A : Type) :=
| Return (a : A)
| Raise (e : exn).
Arguments Return {A} a.
Arguments Raise {A} e.

#[global] Instance outcome_ret : MRet outcome := @Return.
#[global] Instance outcome_bind : MBind outcome := λ A B f m,
  match m with
  | Return a => f a
  | Raise e => Raise e
  end.

(** ** Python and numpy primitives *)

Definition len {A} (l : list A) : Z := Z.of_nat (length l).

(** [int(x)] on a float: truncation towards zero. *)
Definition py_int (x : Q) : Z := Z.quot (Qnum x) (Z.pos (Qden x)).

(** *** Binary64 rounding

    A Python [float] is an IEEE binary64 number: 53 significant bits, the
    exponent of the last bit no smaller than -1074.  [round_double x] is the
    double nearest to [x], a tie going to the even significand; the result
    is meaningful below the overflow threshold of the format. *)

Definition pow2 (e : Z) : Q := (2 ^ e)%Q.

(** To the nearest integer, a tie going to the even one. *)
Definition round_half_even (x : Q) : Z :=
  let f := Qfloor x in
  match (x - inject_Z f ?= 1 # 2)%Q with
  | Lt => f
  | Gt => f + 1
  | Eq => if Z.even f then f else f + 1
  end.

(** [floor(log2(x))] for a positive [x]. *)
Definition Qlog2 (x : Q) : Z :=
  let l := Z.log2 (Qnum x) - Z.log2 (Z.pos (Qden x)) in
  if Qle_bool (pow2 l) x then l else l - 1.

(** The double nearest to a positive [x]: a multiple of [2 ^ e], where [e]
    is the exponent of the last of 53 bits, or -1074 for a subnormal. *)
Definition round_pos (x : Q) : Q :=
  let e := Z.max (Qlog2 x - 52) (-1074) in
  (inject_Z (round_half_even (x * pow2 (- e))) * pow2 e)%Q.

Definition round_double (x : Q) : Q :=
  match Qnum x with
  | Z0 => 0%Q
  | Zpos _ => round_pos x
  | Zneg _ => (- round_pos (- x))%Q
  end.

(** [x * y] on floats, and on a float and an [int] (which is converted to
    the nearest float first). *)
Definition float_mul (x y : Q) : Q := round_double (round_double x * round_double y).

(** [int(np.ceil(x))]. *)
Definition np_ceil (x : Q) : Z := Qceiling x.

(** [x < y] and [x > y] on floats. *)
Definition Qltb (x y : Q) : bool := negb (Qle_bool y x).

(** [min(x, y)] of Python: [y] when [y < x], else [x]. *)
Definition py_min (x y : Q) : Q := if Qltb y x then y else x.

(** Normalisation of one slice bound against a sequence of length [n]. *)
Definition slice_bound (n : Z) (default : Z) (b : option Z) : Z :=
  match b with
  | None => default
  | Some i => if i <? 0 then Z.max (i + n) 0 else Z.min i n
  end.

(** [l[lo:hi]] with Python's treatment of negative and out-of-range bounds;
    [None] is an omitted bound.  Note that [l[-0:]] is [l[0:]]. *)
Definition py_slice {A} (lo hi : option Z) (l : list A) : list A :=
  let n := len l in
  let lo' := slice_bound n 0 lo in
  let hi' := slice_bound n n hi in
  take (Z.to_nat (hi' - lo')) (drop (Z.to_nat lo') l).

(** [np.linspace(start, stop, num)] with the default [endpoint=True]. *)
Definition linspace (start stop : Q) (num : Z) : outcome (list Q) :=
  if num <? 0 then
    Raise (ValueError ("Number of samples, " +:+ pretty num +:+ ", must be non-negative."))
  else
    let div := num - 1 in
    let delta := (stop - start)%Q in
    let step := if 0 <? div then (delta / inject_Z div)%Q else delta in
    let y := map (λ i : nat, (inject_Z (Z.of_nat i) * step + start)%Q)
                 (seq 0 (Z.to_nat num)) in
    Return (if 1 <? num then <[Z.to_nat div := stop]> y else y).

(** Element-wise binary operation on two one-dimensional arrays, with
    numpy's broadcasting of a length-one operand. *)
Definition broadcast (op : Q → Q → Q) (a b : list Q) : outcome (list Q) :=
  if decide (length a = length b) then Return (zip_with op a b)
  else match a, b with
       | [x], _ => Return (map (op x) b)
       | _, [y] => Return (map (λ x, op x y) a)
       | _, _ =>
           Raise (ValueError ("operands could not be broadcast together with shapes ("
                              +:+ pretty (length a) +:+ ",) ("
                              +:+ pretty (length b) +:+ ",) "))
       end.

Definition np_mul : list Q → list Q → outcome (list Q) := broadcast Qmult.
Definition np_add : list Q → list Q → outcome (list Q) := broadcast Qplus.

(** [np.zeros(n)]. *)
Definition np_zeros (n : Z) : outcome (list Q) :=
  if n <? 0 then Raise (ValueError "negative dimensions are not allowed")
  else Return (replicate (Z.to_nat n) 0%Q).

(** ** Crossfade stitcher and loop wrapper *)

(** [int(crossfade_duration * sample_rate)] *)
Definition crossfade_samples_of (crossfade_duration : Q) (sample_rate : Z) : Z :=
  py_int (float_mul crossfade_duration (inject_Z sample_rate)).

Definition _create_crossfade (audio1 audio2 : list Q)
    (crossfade_duration : Q) (sample_rate : Z) : outcome (list Q) :=
  let crossfade_samples := crossfade_samples_of crossfade_duration sample_rate in
  if (len audio1 <? crossfade_samples) || (len audio2 <? crossfade_samples) then
    Return (audio1 ++ audio2)
  else
    fade_out ← linspace 1 0 crossfade_samples;
    fade_in ← linspace 0 1 crossfade_samples;
    audio1_faded ← np_mul (py_slice (Some (- crossfade_samples)) None audio1) fade_out;
    audio2_faded ← np_mul (py_slice None (Some crossfade_samples) audio2) fade_in;
    crossfaded ← np_add audio1_faded audio2_faded;
    Return (py_slice None (Some (- crossfade_samples)) audio1
            ++ crossfaded
            ++ py_slice (Some crossfade_samples) None audio2).

(** [enumerate(l, start)]. *)
Fixpoint enumerate {A} (start : Z) (l : list A) : list (Z * A) :=
  match l with
  | [] => []
  | x :: l' => (start, x) :: enumerate (start + 1) l'
  end.

(** The body of [for i, tile in enumerate(tiles[1:], 1)] in [_stitch_tiles]. *)
Fixpoint stitch_loop (tiles : list (list Q)) (crossfade_duration : Q)
    (sample_rate : Z) (loopable : bool)
    (todo : list (Z * list Q)) (result : list Q) : outcome (list Q) :=
  match todo with
  | [] => Return result
  | (i, tile) :: todo' =>
      result' ← (if loopable && (i =? len tiles - 1)
                 then _create_crossfade result (nth 0 tiles []) crossfade_duration sample_rate
                 else _create_crossfade result tile crossfade_duration sample_rate);
      stitch_loop tiles crossfade_duration sample_rate loopable todo' result'
  end.

Definition _stitch_tiles (tiles : list (list Q)) (crossfade_duration : Q)
    (sample_rate : Z) (loopable : bool) : outcome (list Q) :=
  match tiles with
  | [] => Return []
  | [tile] => Return tile
  | tile0 :: _ =>
      stitch_loop tiles crossfade_duration sample_rate loopable
                  (enumerate 1 (py_slice (Some 1) None tiles)) tile0
  end.

Definition _make_loopable (audio : list Q) (crossfade_duration : Q)
    (sample_rate : Z) : outcome (list Q) :=
  let crossfade_samples := crossfade_samples_of crossfade_duration sample_rate in
  if len audio <? crossfade_samples * 2 then
    Return audio
  else
    fade_out ← linspace 1 0 crossfade_samples;
    fade_in ← linspace 0 1 crossfade_samples;
    audio_start ← np_mul (py_slice None (Some crossfade_samples) audio) fade_in;
    audio_end ← np_mul (py_slice (Some (- crossfade_samples)) None audio) fade_out;
    summed ← np_add audio_start audio_end;
    Return (summed ++ py_slice (Some crossfade_samples) (Some (- crossfade_samples)) audio).


(** ** Data model *)

Record SFXGenerationRequest := {
  prompt : string;
  duration : Q;
  seed : option Z;
  loopable : bool;
  crossfade_duration : Q;
  output_format : string;
  sample_rate : Z;
  bit_depth : Z
}.

Inductive wav_subtype := PCM_16 | PCM_24 | FLOAT.

(** The array handed to [sf.write]: integers after [astype], floats otherwise. *)
Inductive wav_data :=
| IntData (samples : list Z)
| FloatData (samples : list Q).

Definition frame_count (d : wav_data) : Z :=
  match d with
  | IntData samples => len samples
  | FloatData samples => len samples
  end.

(** The dictionary written by [_cache_result] and read back with
    [metadata.get(key, default)]; a missing key is [None]. *)
Record metadata := {
  md_duration : option Q;
  md_sample_rate : option Z;
  md_bit_depth : option Z;
  md_generation_time : option Q;
  md_tiles_generated : option Z;
  md_seed_used : option (option Z);
  md_cached_at : option Q
}.

Definition empty_metadata : metadata :=
  {| md_duration := None; md_sample_rate := None; md_bit_depth := None;
     md_generation_time := None; md_tiles_generated := None;
     md_seed_used := None; md_cached_at := None |}.

(** Byte strings.  The byte layout is not modelled: a byte string is known
    by what produced it.  An audio file is known by its subtype, its rate,
    the samples stored and, when it has a PEAK chunk, the time stamp that
    libsndfile writes into that chunk. *)
Inductive bytes :=
| RawBytes (payload : list Z)
| WavFile (subtype : wav_subtype) (rate : Z) (data : wav_data) (time_stamp : option Z)
| JsonText (m : metadata).

Module Result.
Record SFXGenerationResult := {
  success : bool;
  audio_data : option bytes;
  file_path : option string;
  duration : Q;
  sample_rate : Z;
  bit_depth : Z;
  format : string;
  generation_time : Q;
  tiles_generated : Z;
  seed_used : option Z;
  error_message : option string
}.
End Result.
Abbreviation SFXGenerationResult := Result.SFXGenerationResult.

(** [SFXGenerationResult(success=False, error_message=msg)]: every other
    field takes the default of the dataclass. *)
Definition failure (msg : string) : SFXGenerationResult :=
  {| Result.success := false; Result.audio_data := None; Result.file_path := None;
     Result.duration := 0; Result.sample_rate := 48000; Result.bit_depth := 24;
     Result.format := "wav"; Result.generation_time := 0;
     Result.tiles_generated := 0; Result.seed_used := None;
     Result.error_message := Some msg |}.

(** The JSON body posted to the text-to-sound endpoint; the [seed] key is
    present only when the seed is. *)
Record payload := {
  pl_text : string;
  pl_duration : Q;
  pl_model_id : string;
  pl_seed : option Z
}.

Inductive response :=
| HttpResponse (status : Z) (body : bytes) (text : string)
| TransportError (e : exn).

(** ** External libraries

    librosa, soundfile, hashlib and json are not part of the repository;
    the engine is parametrised by their behaviour. *)
Record Externals := {
  (** [librosa.load(io.BytesIO(b), sr=None, mono=True)] *)
  librosa_load : bytes → outcome (list Q * Z);
  (** [librosa.resample(audio, orig_sr=, target_sr=)] *)
  librosa_resample : list Q → Z → Z → outcome (list Q);
  (** [librosa.util.normalize(audio)] *)
  librosa_normalize : list Q → outcome (list Q);
  (** [hashlib.md5(json.dumps(cache_data, sort_keys=True).encode()).hexdigest()]
      on the seven hashed request fields *)
  cache_hash : string → Q → option Z → bool → Q → Z → Z → string;
  (** the error, if any, with which [sf.write(path, _, rate, subtype=)]
      fails; the library looks at the extension of [path] only *)
  sf_write_error : string → Z → wav_subtype → option exn;
  (** whether libsndfile gives a float file of this extension a PEAK chunk,
      as it does for WAV *)
  sf_peak_chunk : string → bool
}.

(** ** The world: clock, file system, temporary names, HTTP backend *)

(** The path of a temporary file: the name chosen by [tempfile], and the
    suffix asked for. *)
Definition tmp_path : Type := string * string.

(** [temp_file.name] *)
Definition path_name (p : tmp_path) : string := p.1 +:+ p.2.

Inductive event :=
| EvNow
| EvCacheExists (name : string)
| EvCacheRead (name : string)
| EvCacheWrite (name : string)
| EvTempCreate (path : tmp_path)
| EvTempWrite (path : tmp_path)
| EvTempRead (path : tmp_path)
| EvTempUnlink (path : tmp_path)
| EvPost (p : payload).

Record World := {
  (** files of [self.cache_dir], by file name *)
  cache_dir : gmap string bytes;
  (** the error, if any, with which [stat] fails on a name of the cache
      directory for another reason than the file not being there (a name
      that is too long, a directory that may not be searched) *)
  stat_error : string → option exn;
  (** files of the temporary directory, by path *)
  tmp_dir : gmap tmp_path bytes;
  (** successive readings of [datetime.now()], in seconds *)
  clock : nat → Q;
  clock_reads : nat;
  (** successive names chosen by [tempfile] *)
  tmp_names : nat → string;
  tmp_created : nat;
  (** the answer of the backend to its n-th request *)
  backend : nat → payload → response;
  requests_served : nat;
  (** everything the engine did to the world so far, oldest first *)
  trace : list event
}.

Definition IO (A : Type) : Type := World → outcome A * World.

#[global] Instance io_ret : MRet IO := λ A a w, (Return a, w).
#[global] Instance io_bind : MBind IO := λ A B f m w,
  match m w with
  | (Return a, w') => f a w'
  | (Raise e, w') => (Raise e, w')
  end.

Definition lift {A} (o : outcome A) : IO A := λ w, (o, w).

(** [try: body except Exception as e: handler(e)] *)
Definition try_except {A} (body : IO A) (handler : exn → IO A) : IO A := λ w,
  match body w with
  | (Return a, w') => (Return a, w')
  | (Raise e, w') => handler e w'
  end.

Definition log (ev : event) (w : World) : World :=
  {| cache_dir := cache_dir w; stat_error := stat_error w; tmp_dir := tmp_dir w;
     clock := clock w; clock_reads := clock_reads w;
     tmp_names := tmp_names w; tmp_created := tmp_created w;
     backend := backend w; requests_served := requests_served w;
     trace := trace w ++ [ev] |}.

Definition set_cache_dir (c : gmap string bytes) (w : World) : World :=
  {| cache_dir := c; stat_error := stat_error w; tmp_dir := tmp_dir w;
     clock := clock w; clock_reads := clock_reads w;
     tmp_names := tmp_names w; tmp_created := tmp_created w;
     backend := backend w; requests_served := requests_served w;
     trace := trace w |}.

Definition set_tmp_dir (t : gmap tmp_path bytes) (w : World) : World :=
  {| cache_dir := cache_dir w; stat_error := stat_error w; tmp_dir := t;
     clock := clock w; clock_reads := clock_reads w;
     tmp_names := tmp_names w; tmp_created := tmp_created w;
     backend := backend w; requests_served := requests_served w;
     trace := trace w |}.

Definition datetime_now : IO Q := λ w,
  (Return (clock w (clock_reads w)),
   log EvNow
     {| cache_dir := cache_dir w; stat_error := stat_error w; tmp_dir := tmp_dir w;
        clock := clock w; clock_reads := S (clock_reads w);
        tmp_names := tmp_names w; tmp_created := tmp_created w;
        backend := backend w; requests_served := requests_served w;
        trace := trace w |}).

(** [cache_file.exists()]: [False] when [stat] finds no file, and the error
    of [stat] raised again when it is another one. *)
Definition cache_exists (name : string) : IO bool := λ w,
  match stat_error w name with
  | Some e => (Raise e, log (EvCacheExists name) w)
  | None =>
      (Return (bool_decide (is_Some (cache_dir w !! name))), log (EvCacheExists name) w)
  end.

(** [with open(cache_file, 'rb') as f: f.read()] *)
Definition cache_read (name : string) : IO bytes := λ w,
  match cache_dir w !! name with
  | Some b => (Return b, log (EvCacheRead name) w)
  | None => (Raise (Exception "No such file or directory"), log (EvCacheRead name) w)
  end.

(** [with open(cache_file, 'wb') as f: f.write(b)]; opening truncates. *)
Definition cache_write (name : string) (b : option bytes) : IO unit := λ w,
  match b with
  | Some b => (Return tt, log (EvCacheWrite name) (set_cache_dir (<[name := b]> (cache_dir w)) w))
  | None => (Raise (Exception "a bytes-like object is required, not 'NoneType'"),
             log (EvCacheWrite name) (set_cache_dir (<[name := RawBytes []]> (cache_dir w)) w))
  end.

(** [tempfile.NamedTemporaryFile(suffix=, delete=False)] followed by
    [close()]: an empty file under a name of the library's choosing. *)
Definition NamedTemporaryFile (suffix : string) : IO tmp_path := λ w,
  let name := (tmp_names w (tmp_created w), suffix) in
  (Return name,
   log (EvTempCreate name)
     {| cache_dir := cache_dir w; stat_error := stat_error w; tmp_dir := <[name := RawBytes []]> (tmp_dir w);
        clock := clock w; clock_reads := clock_reads w;
        tmp_names := tmp_names w; tmp_created := S (tmp_created w);
        backend := backend w; requests_served := requests_served w;
        trace := trace w |}).

Definition tmp_read (name : tmp_path) : IO bytes := λ w,
  match tmp_dir w !! name with
  | Some b => (Return b, log (EvTempRead name) w)
  | None => (Raise (Exception "No such file or directory"), log (EvTempRead name) w)
  end.

(** [os.unlink(path)] *)
Definition tmp_unlink (name : tmp_path) : IO unit := λ w,
  match tmp_dir w !! name with
  | Some _ => (Return tt, log (EvTempUnlink name) (set_tmp_dir (delete name (tmp_dir w)) w))
  | None => (Raise (Exception "No such file or directory"), log (EvTempUnlink name) w)
  end.

(** [session.post(url, headers=, json=payload, timeout=)] *)
Definition http_post (p : payload) : IO response := λ w,
  (Return (backend w (requests_served w) p),
   log (EvPost p)
     {| cache_dir := cache_dir w; stat_error := stat_error w; tmp_dir := tmp_dir w;
        clock := clock w; clock_reads := clock_reads w;
        tmp_names := tmp_names w; tmp_created := tmp_created w;
        backend := backend w; requests_served := S (requests_served w);
        trace := trace w |}).

(** ** The client *)

(** Constants set by [__init__]. *)
Definition max_duration_per_request : Q := 22.
Definition min_duration : Q := 1.
Definition max_duration : Q := 300.
Definition target_sample_rate : Z := 48000.
Definition target_bit_depth : Z := 24.

(** Position of the last dot of a file name, if any. *)
Fixpoint rfind_dot (s : string) (i : nat) (found : option nat) : option nat :=
  match s with
  | EmptyString => found
  | String c s' => rfind_dot s' (S i) (if Ascii.eqb c (Ascii.ascii_of_nat 46) then Some i else found)
  end.

(** [Path.with_suffix(suffix)] on the file name. *)
Definition with_suffix (name suffix : string) : string :=
  match rfind_dot name 0 None with
  | Some i =>
      if ((0 <? i) && (i <? String.length name - 1))%nat
      then String.substring 0 i name +:+ suffix
      else name +:+ suffix
  | None => name +:+ suffix
  end.

Definition _generate_cache_key (E : Externals) (request : SFXGenerationRequest) : string :=
  let cache_hash :=
    cache_hash E (prompt request) (duration request) (seed request)
      (loopable request) (crossfade_duration request)
      (sample_rate request) (bit_depth request) in
  "sfx_" +:+ cache_hash +:+ "." +:+ output_format request.

(** Values that the names of a function body can be bound to. *)
Inductive pyvalue :=
| PyStr (s : string)
| PyBytes (b : bytes)
| PyMetadata (m : metadata)
| PyRequest (r : SFXGenerationRequest)
| PyObject.

(** Names bound at module level by the imports, [logger] and the three
    class definitions. *)
Definition module_globals : list string :=
  ["os"; "io"; "json"; "hashlib"; "tempfile"; "logging"; "List"; "Dict";
   "Any"; "Optional"; "Tuple"; "Path"; "dataclass"; "asdict"; "datetime";
   "asyncio"; "aiohttp"; "np"; "librosa"; "sf"; "signal"; "settings";
   "logger"; "SFXGenerationRequest"; "SFXGenerationResult";
   "ElevenLabsSFXClient"].

(** Evaluation of [name.output_format] in a function whose local names are
    [locals]: an unbound name raises [NameError]. *)
Definition load_output_format (locals : list (string * pyvalue)) (name : string)
    : outcome string :=
  match (list_to_map locals : gmap string pyvalue) !! name with
  | Some (PyRequest r) => Return (output_format r)
  | Some _ => Raise (Exception "object has no attribute 'output_format'")
  | None =>
      if bool_decide (name ∈ module_globals)
      then Raise (Exception "object has no attribute 'output_format'")
      else Raise (NameError name)
  end.

(** [json.load(f)] on the metadata file. *)
Definition json_load (b : bytes) : outcome metadata :=
  match b with
  | JsonText m => Return m
  | _ => Raise (JSONDecodeError "Expecting value")
  end.

Definition _get_cached_result (cache_key : string) : IO (option SFXGenerationResult) :=
  let cache_file := cache_key in
  present ← cache_exists cache_file;
  if negb present then mret None
  else
    try_except
      (audio_data ← cache_read cache_file;
       let metadata_file := with_suffix cache_file ".json" in
       md_present ← cache_exists metadata_file;
       metadata ← (if md_present : bool
                   then text ← cache_read metadata_file; lift (json_load text)
                   else mret empty_metadata : IO metadata);
       (* the arguments of the constructor call, left to right; line 124
          reads [request.output_format], and the function has no such name *)
       format ← lift (load_output_format
                        [("self", PyObject); ("cache_key", PyStr cache_key);
                         ("cache_file", PyStr cache_file);
                         ("audio_data", PyBytes audio_data);
                         ("metadata_file", PyStr metadata_file);
                         ("metadata", PyMetadata metadata)]
                        "request");
       mret (Some
         {| Result.success := true;
            Result.audio_data := Some audio_data;
            Result.file_path := Some cache_file;
            Result.duration := default 0%Q (md_duration metadata);
            Result.sample_rate := default target_sample_rate (md_sample_rate metadata);
            Result.bit_depth := default target_bit_depth (md_bit_depth metadata);
            Result.format := format;
            Result.generation_time := default 0%Q (md_generation_time metadata);
            Result.tiles_generated := default 0 (md_tiles_generated metadata);
            Result.seed_used := default None (md_seed_used metadata);
            Result.error_message := None |}))
      (λ e, mret None).

Definition _cache_result (result : SFXGenerationResult) (cache_key : string) : IO unit :=
  try_except
    (let cache_file := cache_key in
     cache_write cache_file (Result.audio_data result);;
     cached_at ← datetime_now;
     let metadata :=
       {| md_duration := Some (Result.duration result);
          md_sample_rate := Some (Result.sample_rate result);
          md_bit_depth := Some (Result.bit_depth result);
          md_generation_time := Some (Result.generation_time result);
          md_tiles_generated := Some (Result.tiles_generated result);
          md_seed_used := Some (Result.seed_used result);
          md_cached_at := Some cached_at |} in
     let metadata_file := with_suffix cache_file ".json" in
     cache_write metadata_file (Some (JsonText metadata)))
    (λ e, mret tt).

(** The Provider Port: one request to the backend for one tile. *)
Definition tile_payload (prompt : string) (duration : Q) (seed : option Z) : payload :=
  {| pl_text := prompt;
     pl_duration := py_min duration max_duration_per_request;
     pl_model_id := "eleven_multilingual_v2";
     pl_seed := seed |}.

(** What [_generate_sfx_tile] makes of the answer: the body on status 200,
    an exception on any other status or on a transport error. *)
Definition response_body (resp : response) : outcome bytes :=
  match resp with
  | HttpResponse status audio_data error_text =>
      if status =? 200 then Return audio_data
      else Raise (Exception
             ("ElevenLabs API error " +:+ pretty status +:+ ": " +:+ error_text))
  | TransportError e => Raise e
  end.

Definition _generate_sfx_tile (prompt : string) (duration : Q) (seed : option Z)
    : IO bytes :=
  let payload := tile_payload prompt duration seed in
  resp ← http_post payload;
  lift (response_body resp).

Definition _process_audio_tile (E : Externals) (audio_data : bytes)
    (target_sample_rate : Z) : outcome (list Q) :=
  '(audio, sr) ← librosa_load E audio_data;
  audio ← (if bool_decide (sr ≠ target_sample_rate)
           then librosa_resample E audio sr target_sample_rate
           else Return audio);
  librosa_normalize E audio.

(** [(x).astype(np.int16)] and [(x).astype(np.int32)] on one sample:
    truncation towards zero.  Samples are normalised upstream, so the scaled
    value is in range; what the C cast does outside it is not modelled. *)
Definition astype_int (x : Q) : Z := py_int x.

(** What libsndfile stores of the array handed to [sf.write]: of an [int32]
    array written as PCM_24, the upper 24 bits of each sample. *)
Definition stored_samples (subtype : wav_subtype) (data : wav_data) : wav_data :=
  match subtype, data with
  | PCM_24, IntData samples => IntData (map (λ v, Z.shiftr v 8) samples)
  | _, _ => data
  end.

(** Whether the file gets a PEAK chunk: float files only. *)
Definition peak_chunk (E : Externals) (extension : string) (subtype : wav_subtype)
    : bool :=
  match subtype with
  | FLOAT => sf_peak_chunk E extension
  | _ => false
  end.

(** The time stamp of a PEAK chunk written at time [now]: [time(NULL)] in
    four bytes. *)
Definition peak_time_stamp (now : Q) : Z := Qfloor now mod 2 ^ 32.

(** The file that [sf.write] produces at time [now]. *)
Definition sound_file (E : Externals) (extension : string) (data : wav_data)
    (sample_rate : Z) (subtype : wav_subtype) (now : Q) : bytes :=
  WavFile subtype sample_rate (stored_samples subtype data)
          (if peak_chunk E extension subtype then Some (peak_time_stamp now) else None).

(** One more reading of the clock. *)
Definition tick (w : World) : World :=
  {| cache_dir := cache_dir w; stat_error := stat_error w; tmp_dir := tmp_dir w;
     clock := clock w; clock_reads := S (clock_reads w);
     tmp_names := tmp_names w; tmp_created := tmp_created w;
     backend := backend w; requests_served := requests_served w;
     trace := trace w |}.

(** [sf.write(file_path, data, sample_rate, subtype=)]; the clock is read
    when a PEAK chunk is written. *)
Definition sf_write (E : Externals) (file_path : tmp_path) (data : wav_data)
    (sample_rate : Z) (subtype : wav_subtype) : IO unit := λ w,
  match sf_write_error E file_path.2 sample_rate subtype with
  | Some e => (Raise e, w)
  | None =>
      let file := sound_file E file_path.2 data sample_rate subtype
                             (clock w (clock_reads w)) in
      (Return tt,
       log (EvTempWrite file_path)
         (set_tmp_dir (<[file_path := file]> (tmp_dir w))
            (if peak_chunk E file_path.2 subtype then tick w else w)))
  end.

Definition _save_audio (E : Externals) (audio : list Q) (file_path : tmp_path)
    (sample_rate : Z) (bit_depth : Z) : IO unit :=
  if bit_depth =? 16 then
    let audio_int16 := map (λ x, astype_int (x * 32767)) audio in
    sf_write E file_path (IntData audio_int16) sample_rate PCM_16
  else if bit_depth =? 24 then
    let audio_int24 := map (λ x, astype_int (x * 8388607)) audio in
    sf_write E file_path (IntData audio_int24) sample_rate PCM_24
  else
    sf_write E file_path (FloatData audio) sample_rate FLOAT.

(** [range(n)] *)
Definition range (n : Z) : list Z := map Z.of_nat (seq 0 (Z.to_nat n)).

(** [x / n] for a float [x] and an int [n]. *)
Definition py_truediv (x : Q) (n : Z) : outcome Q :=
  if n =? 0 then Raise (ZeroDivisionError "float division by zero")
  else Return (x / inject_Z n)%Q.

(** [request.seed + i if request.seed is not None else None] *)
Definition tile_seed_of (request : SFXGenerationRequest) (i : Z) : option Z :=
  match seed request with
  | Some s => Some (s + i)
  | None => None
  end.

(** Lines 354-371: [for i in range(tiles_needed)], the tiles so far in
    [tiles]. *)
Fixpoint generate_tiles (E : Externals) (request : SFXGenerationRequest)
    (tile_duration : Q) (todo : list Z) (tiles : list (list Q))
    : IO (list (list Q)) :=
  match todo with
  | [] => mret tiles
  | i :: todo' =>
      let tile_seed := tile_seed_of request i in
      tile_data ← _generate_sfx_tile (prompt request) tile_duration tile_seed;
      tile_audio ← lift (_process_audio_tile E tile_data (sample_rate request));
      generate_tiles E request tile_duration todo' (tiles ++ [tile_audio])
  end.

(** [[f(x) for x in l]] for an [f] that can raise. *)
Fixpoint for_each {A B} (f : A → outcome B) (l : list A) : outcome (list B) :=
  match l with
  | [] => Return []
  | x :: l' => y ← f x; ys ← for_each f l'; Return (y :: ys)
  end.

(** Lines 373-388: the loop-wrapping pass over the tiles and the call of
    [_stitch_tiles]. *)
Definition stitch_stage (request : SFXGenerationRequest) (tiles : list (list Q))
    : outcome (list Q) :=
  tiles ← (if loopable request
           then for_each (λ tile, _make_loopable tile (crossfade_duration request)
                                                 (sample_rate request)) tiles
           else Return tiles);
  _stitch_tiles tiles (crossfade_duration request) (sample_rate request)
                (loopable request).

(** Lines 390-397: "Ensure exact duration". *)
Definition target_samples_of (request : SFXGenerationRequest) : Z :=
  py_int (float_mul (duration request) (inject_Z (sample_rate request))).

Definition ensure_exact_duration (final_audio : list Q) (target_samples : Z)
    : outcome (list Q) :=
  if target_samples <? len final_audio then
    Return (py_slice None (Some target_samples) final_audio)
  else if len final_audio <? target_samples then
    padding ← np_zeros (target_samples - len final_audio);
    Return (final_audio ++ padding)
  else Return final_audio.

Definition tiles_needed_of (request : SFXGenerationRequest) : Z :=
  np_ceil (duration request / max_duration_per_request).

(** Lines 347-397: from the tile count to the waveform of exact length. *)
Definition synthesize_waveform (E : Externals) (request : SFXGenerationRequest)
    : IO (list Q) :=
  let tiles_needed := tiles_needed_of request in
  tile_duration ← lift (py_truediv (duration request) tiles_needed);
  tiles ← generate_tiles E request tile_duration (range tiles_needed) [];
  final_audio ← lift (stitch_stage request tiles);
  lift (ensure_exact_duration final_audio (target_samples_of request)).

(** Lines 399-437: encode through a temporary file, build the result and
    cache it. *)
Definition deliver (E : Externals) (request : SFXGenerationRequest)
    (use_cache : bool) (cache_key : string) (start_time : Q)
    (final_audio : list Q) : IO SFXGenerationResult :=
  temp_file ← NamedTemporaryFile ("." +:+ output_format request);
  _save_audio E final_audio temp_file (sample_rate request) (bit_depth request);;
  audio_data ← tmp_read temp_file;
  tmp_unlink temp_file;;
  end_time ← datetime_now;
  let generation_time := (end_time - start_time)%Q in
  let result :=
    {| Result.success := true;
       Result.audio_data := Some audio_data;
       Result.file_path := Some (path_name temp_file);
       Result.duration := duration request;
       Result.sample_rate := sample_rate request;
       Result.bit_depth := bit_depth request;
       Result.format := output_format request;
       Result.generation_time := generation_time;
       Result.tiles_generated := tiles_needed_of request;
       Result.seed_used := seed request;
       Result.error_message := None |} in
  (if use_cache then _cache_result result cache_key else mret tt : IO unit);;
  mret result.

(** Lines 347-437: the body of the [try] of [generate_sfx]. *)
Definition generate_sfx_body (E : Externals) (request : SFXGenerationRequest)
    (use_cache : bool) (cache_key : string) (start_time : Q)
    : IO SFXGenerationResult :=
  final_audio ← synthesize_waveform E request;
  deliver E request use_cache cache_key start_time final_audio.

Definition generate_sfx (E : Externals) (request : SFXGenerationRequest)
    (use_cache : bool) : IO SFXGenerationResult :=
  start_time ← datetime_now;
  if Qltb (duration request) min_duration then
    mret (failure "Duration must be at least 1.0 seconds")
  else if Qltb max_duration (duration request) then
    mret (failure "Duration cannot exceed 300.0 seconds")
  else
    (* [cache_key] is bound when [use_cache] holds and read only then *)
    let cache_key := _generate_cache_key E request in
    cached_result ← (if use_cache then _get_cached_result cache_key
                     else mret None : IO (option SFXGenerationResult));
    match cached_result with
    | Some cached_result => mret cached_result
    | None =>
        try_except (generate_sfx_body E request use_cache cache_key start_time)
                   (λ e, mret (failure (str e)))
    end.

(** ** Test doubles

    A decoder that reads a raw byte string as mono samples at 48 kHz, an
    encoder that never fails, and a backend that answers every request with
    the same four-sample tone. *)
Definition stub_externals : Externals :=
  {| librosa_load := λ b,
       match b with
       | RawBytes l => Return (map inject_Z l, 48000)
       | _ => Raise (Exception "Error opening audio: format not recognised")
       end;
     librosa_resample := λ audio _ _, Return audio;
     librosa_normalize := λ audio, Return audio;
     cache_hash := λ prompt _ _ _ _ _ _, prompt;
     sf_write_error := λ _ _ _, None;
     sf_peak_chunk := λ extension, String.eqb extension ".wav" |}.

Definition tone : bytes := RawBytes [1; 1; 1; 1].

(** A file system that refuses names of more than 255 bytes. *)
Definition name_too_long (name : string) : option exn :=
  if (255 <? String.length name)%nat
  then Some (OSError ("[Errno 36] File name too long: '" +:+ name +:+ "'"))
  else None.

Definition stub_world (backend : nat → payload → response) : World :=
  {| cache_dir := ∅; stat_error := name_too_long; tmp_dir := ∅;
     clock := λ n, inject_Z (Z.of_nat n); clock_reads := 0;
     tmp_names := λ n, "/tmp/tmp" +:+ pretty n; tmp_created := 0;
     backend := backend; requests_served := 0;
     trace := [] |}.

Definition tone_backend : nat → payload → response :=
  λ _ _, HttpResponse 200 tone "".

(** A backend whose second answer is an error. *)
Definition flaky_backend : nat → payload → response :=
  λ n _, if (n =? 1)%nat then HttpResponse 500 (RawBytes []) "Internal Server Error"
         else HttpResponse 200 tone "".


(** The provider requests of a trace, oldest first. *)
Definition posts (t : list event) : list payload :=
  omap (λ ev, match ev with EvPost p => Some p | _ => None end) t.

(** The cache files written in a trace. *)
Definition cache_writes (t : list event) : list string :=
  omap (λ ev, match ev with EvCacheWrite name => Some name | _ => None end) t.

(** ** The engine as the specification words it

    These definitions follow the text of the specification, for comparison
    with the code above. *)

(** [round(x)]: to the nearest integer, a tie going to the even one. *)
Definition py_round (x : Q) : Z :=
  let f := Qfloor x in
  let r := (x - inject_Z f)%Q in
  if Qltb r (1 # 2) then f
  else if Qltb (1 # 2) r then f + 1
  else if Z.even f then f else f + 1.

(** Section 4.4: accumulate left to right, each tile blended with the next. *)
Fixpoint merge_in_order (crossfade_duration : Q) (sample_rate : Z)
    (acc : list Q) (rest : list (list Q)) : outcome (list Q) :=
  match rest with
  | [] => Return acc
  | tile :: rest' =>
      acc' ← _create_crossfade acc tile crossfade_duration sample_rate;
      merge_in_order crossfade_duration sample_rate acc' rest'
  end.

Definition stitch_in_order (crossfade_duration : Q) (sample_rate : Z)
    (tiles : list (list Q)) : outcome (list Q) :=
  match tiles with
  | [] => Return []
  | tile0 :: rest => merge_in_order crossfade_duration sample_rate tile0 rest
  end.

(** Sections 4.4, 4.5 and 4.8: stitch in planner order, then loop-wrap the
    stitched buffer when the request is loopable. *)
Definition stitch_then_loop (request : SFXGenerationRequest)
    (tiles : list (list Q)) : outcome (list Q) :=
  stitched ← stitch_in_order (crossfade_duration request) (sample_rate request) tiles;
  if loopable request
  then _make_loopable stitched (crossfade_duration request) (sample_rate request)
  else Return stitched.

(** Section 4.1: the tile plan, as (index, duration, seed) triples. *)
Definition tile_plan (duration : Q) (provider_ceiling : Q) (request_seed : option Z)
    : list (Z * Q * option Z) :=
  let tile_count := Qceiling (duration / provider_ceiling) in
  map (λ index, (index, (duration / inject_Z tile_count)%Q,
                 (λ s, s + index) <$> request_seed))
      (range tile_count).

(** ** The run of a request as a function of the backend's answers

    The definitions below replay the tile loop and the stages after it
    against given answers of the backend, without a world.  The lemmas of
    the next sections show that [generate_sfx] computes exactly this, and
    the properties of the engine are then read off the replay. *)

(** The normalised tile obtained from one answer of the backend, or the
    exception that aborts the request. *)
Definition tile_of_response (E : Externals) (request : SFXGenerationRequest)
    (resp : response) : outcome (list Q) :=
  tile_data ← response_body resp;
  _process_audio_tile E tile_data (sample_rate request).

(** The request sent for tile [i] when every tile lasts [tile_duration]. *)
Definition request_for_tile (request : SFXGenerationRequest) (tile_duration : Q)
    (i : Z) : payload :=
  tile_payload (prompt request) tile_duration (tile_seed_of request i).

(** The tile loop against the answers [answer k p] of the backend to its
    [k]-th request: the tiles, or the exception that ends the loop, and the
    requests sent. *)
Fixpoint replay_tiles (E : Externals) (request : SFXGenerationRequest)
    (answer : nat → payload → response) (tile_duration : Q)
    (k : nat) (todo : list Z) (tiles : list (list Q))
    : outcome (list (list Q)) * list payload :=
  match todo with
  | [] => (Return tiles, [])
  | i :: todo' =>
      let p := request_for_tile request tile_duration i in
      match tile_of_response E request (answer k p) with
      | Return tile_audio =>
          let '(o, sent) := replay_tiles E request answer tile_duration (S k) todo'
                                         (tiles ++ [tile_audio]) in
          (o, p :: sent)
      | Raise e => (Raise e, [p])
      end
  end.

Definition replay_waveform (E : Externals) (request : SFXGenerationRequest)
    (answer : nat → payload → response) (k : nat)
    : outcome (list Q) * list payload :=
  match py_truediv (duration request) (tiles_needed_of request) with
  | Raise e => (Raise e, [])
  | Return tile_duration =>
      let '(o, sent) := replay_tiles E request answer tile_duration k
                                     (range (tiles_needed_of request)) [] in
      (tiles ← o;
       final_audio ← stitch_stage request tiles;
       ensure_exact_duration final_audio (target_samples_of request),
       sent)
  end.

(** The array and subtype that [_save_audio] hands to [sf.write]. *)
Definition encode_samples (audio : list Q) (bit_depth : Z) : wav_data * wav_subtype :=
  if bit_depth =? 16 then (IntData (map (λ x, astype_int (x * 32767)) audio), PCM_16)
  else if bit_depth =? 24 then (IntData (map (λ x, astype_int (x * 8388607)) audio), PCM_24)
  else (FloatData audio, FLOAT).

(** The bytes of the file encoded at time [now], or the exception of the
    encoder. *)
Definition encode (E : Externals) (request : SFXGenerationRequest)
    (final_audio : list Q) (now : Q) : outcome bytes :=
  let '(data, subtype) := encode_samples final_audio (bit_depth request) in
  match sf_write_error E ("." +:+ output_format request) (sample_rate request) subtype with
  | Some e => Raise e
  | None =>
      Return (sound_file E ("." +:+ output_format request) data (sample_rate request)
                         subtype now)
  end.

Definition replay_audio (E : Externals) (request : SFXGenerationRequest)
    (answer : nat → payload → response) (k : nat) (now : Q)
    : outcome bytes * list payload :=
  let '(o, sent) := replay_waveform E request answer k in
  (final_audio ← o; encode E request final_audio now, sent).

(** A step of the world that leaves the cache and the backend alone. *)
Definition quiet (w w' : World) : Prop :=
  cache_dir w' = cache_dir w
  ∧ backend w' = backend w
  ∧ requests_served w' = requests_served w
  ∧ posts (trace w') = posts (trace w)
  ∧ cache_writes (trace w') = cache_writes (trace w).

(** The request that an entry of the tile plan stands for. *)
Definition plan_payload (request : SFXGenerationRequest)
    (entry : Z * Q * option Z) : payload :=
  let '(index, tile_duration, tile_seed) := entry in
  {| pl_text := prompt request;
     pl_duration := tile_duration;
     pl_model_id := "eleven_multilingual_v2";
     pl_seed := tile_seed |}.

(** An output format of 300 characters: the name of the cache file is
    longer than a file system takes. *)
Definition long_format : string :=
  String.string_of_list_ascii (repeat (Ascii.ascii_of_nat 120) 300).

(** The scenario request of the specification, and variants of it. *)
Definition rain (duration : Q) (loopable : bool) (sample_rate : Z)
    : SFXGenerationRequest :=
  {| prompt := "rain on leaves"; duration := duration; seed := Some 42;
     loopable := loopable; crossfade_duration := 0.5; output_format := "wav";
     sample_rate := sample_rate; bit_depth := 24 |}.

(** Whether a call returned a result with [success=True]. *)
Definition succeeded (o : outcome SFXGenerationResult) : bool :=
  match o with
  | Return r => Result.success r
  | Raise _ => false
  end.

(** The length of a returned array. *)
Definition outcome_len {A} (o : outcome (list A)) : option Z :=
  match o with
  | Return l => Some (len l)
  | Raise _ => None
  end.

(** The number of frames of the audio of a call, when it returned some. *)
Definition result_frames (o : outcome SFXGenerationResult) : option Z :=
  match o with
  | Return r =>
      match Result.audio_data r with
      | Some (WavFile _ _ data _) => Some (frame_count data)
      | _ => None
      end
  | Raise _ => None
  end.



(** The reading of the clock that the encoder gets in a call started in
    [w]: the one after [start_time]. *)
Definition encoding_time (w : World) : Q := clock w (S (clock_reads w)).

(** A request whose duration passes the validation of [generate_sfx]. *)
Definition in_range (request : SFXGenerationRequest) : Prop :=
  (min_duration <= duration request ∧ duration request <= max_duration)%Q.

(** ** Cache maintenance: [clear_cache] and [get_cache_info]

    Both touch the files of [self.cache_dir] and nothing else, and are
    written as functions on the directory.  [Path.glob] is pathlib's: the
    functions take the matcher [fnmatch pattern name] of one file name
    against one pattern as a parameter; the check that [glob] makes of the
    pattern before it lists anything is [glob_error]. *)













(** ** The callers: request models of the HTTP layer (api/v1/endpoints/sfx.py)
    and the requests the endpoints and the Celery tasks build from them *)

(** [SFXGenerationRequestModel]; the fields that only concern the database
    ([scene_id], [asset_name]) and scheduling ([async_processing]) are left
    out. *)
Record SFXGenerationRequestModel := {
  m_prompt : string;
  m_duration : Q;
  m_seed : option Z;
  m_loopable : bool;
  m_crossfade_duration : Q
}.

(** [len(s)] of a [str], here in its UTF-8 encoding: the number of code
    points, that is of bytes that do not continue a character. *)
Definition py_str_len (s : string) : nat :=
  length (List.filter (λ c, negb ((128 <=? Ascii.nat_of_ascii c)
                                   && (Ascii.nat_of_ascii c <? 192))%nat)
                      (String.list_ascii_of_string s)).

(** The [Field] constraints of the model, as checked on construction. *)
Definition model_valid (m : SFXGenerationRequestModel) : bool :=
  (1 <=? py_str_len (m_prompt m))%nat
  && (py_str_len (m_prompt m) <=? 500)%nat
  && Qle_bool 1 (m_duration m) && Qle_bool (m_duration m) 300
  && match m_seed m with
     | Some s => (0 <=? s) && (s <=? 2147483647)
     | None => true
     end
  && Qle_bool 0.1 (m_crossfade_duration m) && Qle_bool (m_crossfade_duration m) 5.

(** The [SFXGenerationRequest] built by [generate_sfx] of the endpoint and
    by [generate_sfx_task]. *)
Definition sfx_request_of (m : SFXGenerationRequestModel) : SFXGenerationRequest :=
  {| prompt := m_prompt m; duration := m_duration m; seed := m_seed m;
     loopable := m_loopable m; crossfade_duration := m_crossfade_duration m;
     output_format := "wav"; sample_rate := 48000; bit_depth := 24 |}.

(** The request built by [generate_ambience] and [generate_ambience_task]:
    [loopable] is forced.  [AmbienceGenerationRequestModel] has the fields
    and constraints of [SFXGenerationRequestModel] without [loopable], which
    is not read here. *)
Definition ambience_request_of (m : SFXGenerationRequestModel) : SFXGenerationRequest :=
  {| prompt := m_prompt m; duration := m_duration m; seed := m_seed m;
     loopable := true; crossfade_duration := m_crossfade_duration m;
     output_format := "wav"; sample_rate := 48000; bit_depth := 24 |}.

(** ** Observations on traces and files *)

(** The events of a trace that look at or change the cache directory. *)
Definition cache_events (t : list event) : list event :=
  List.filter (λ ev, match ev with
                     | EvCacheExists _ | EvCacheRead _ | EvCacheWrite _ => true
                     | _ => false
                     end) t.

(** What a step leaves alone outside the cache: the temporary directory and
    the supply of temporary names. *)
Definition tmp_untouched (w w' : World) : Prop :=
  tmp_dir w' = tmp_dir w
  ∧ tmp_names w' = tmp_names w
  ∧ tmp_created w' = tmp_created w.

(** What a step leaves alone of the clock and of the errors of the file
    system. *)
Definition same_clock (w w' : World) : Prop :=
  clock w' = clock w
  ∧ clock_reads w' = clock_reads w
  ∧ stat_error w' = stat_error w.

(** The cache lookup of a call does not fail: the cache is not used, or
    [stat] on the cache file finds it or finds nothing. *)
Definition lookup_returns (E : Externals) (request : SFXGenerationRequest)
    (use_cache : bool) (w : World) : Prop :=
  use_cache = true → stat_error w (_generate_cache_key E request) = None.

(** The metadata that [_cache_result] writes for a result. *)
Definition metadata_of (r : SFXGenerationResult) (cached_at : Q) : metadata :=
  {| md_duration := Some (Result.duration r);
     md_sample_rate := Some (Result.sample_rate r);
     md_bit_depth := Some (Result.bit_depth r);
     md_generation_time := Some (Result.generation_time r);
     md_tiles_generated := Some (Result.tiles_generated r);
     md_seed_used := Some (Result.seed_used r);
     md_cached_at := Some cached_at |}.

(** The temporary file that the next call of [NamedTemporaryFile] makes. *)
Definition next_tmp_path (request : SFXGenerationRequest) (w : World) : tmp_path :=
  (tmp_names w (tmp_created w), "." +:+ output_format request).

(** An encoder that refuses every file. *)
Definition refusing_externals : Externals :=
  {| librosa_load := librosa_load stub_externals;
     librosa_resample := librosa_resample stub_externals;
     librosa_normalize := librosa_normalize stub_externals;
     cache_hash := cache_hash stub_externals;
     sf_write_error := λ _ _ _, Some (Exception "Error opening file: format not recognised");
     sf_peak_chunk := sf_peak_chunk stub_externals |}.

(** A backend that answers every request with status 200 and a body the
    decoder accepts. *)
Definition backend_delivers (E : Externals) (request : SFXGenerationRequest)
    (answer : nat → payload → response) : Prop :=
  ∀ k p, ∃ audio, tile_of_response E request (answer k p) = Return audio.

(** A file name made of a non-empty stem, a dot and an extension without
    dot. *)
Definition dotless (ext : string) : bool :=
  negb (existsb (Ascii.eqb (Ascii.ascii_of_nat 46)) (String.list_ascii_of_string ext)).

(** ** Proof automation *)

(** Unfolds the monad of world functions. *)
Ltac io_unfold :=
  unfold mbind, io_bind, mret, io_ret, lift, try_except in *.

(** Closes goals about the provider requests and cache writes of a trace
    that is the old trace with events appended. *)
Ltac trace_solve :=
  unfold posts, cache_writes; cbn [trace log set_cache_dir set_tmp_dir];
  rewrite ?omap_app; cbn [omap list_omap]; rewrite ?app_nil_r; reflexivity.

(** Turns a comparison of rationals that evaluated to [Eq], [Lt] or [Gt]
    into the order it stands for. *)
Ltac compare_spec H :=
  first [apply (proj2 (Qeq_alt _ _)) in H
        |apply (proj2 (Qlt_alt _ _)) in H
        |apply (proj2 (Qgt_alt _ _)) in H].

(** ** Binary64 rounding: order and integers *)

Lemma pow2_pos e : (0 < pow2 e)%Q.
Proof. apply Qpower_0_lt. reflexivity. Qed.

Lemma pow2_add a b : (pow2 (a + b) == pow2 a * pow2 b)%Q.
Proof. apply Qpower_plus. discriminate. Qed.

Lemma pow2_cancel e : (pow2 (- e) * pow2 e == 1)%Q.
Proof. rewrite <- pow2_add. replace (- e + e) with 0 by lia. reflexivity. Qed.

Lemma pow2_int n : 0 ≤ n → (pow2 n == inject_Z (2 ^ n))%Q.
Proof. intros Hn. symmetry. apply (Zpower_Qpower 2 n Hn). Qed.

Lemma pow2_le a b : a ≤ b → (pow2 a <= pow2 b)%Q.
Proof. intros H. apply Qpower_le_compat_l; [exact H|discriminate]. Qed.

Lemma round_half_even_bounds x :
  Qfloor x ≤ round_half_even x ≤ Qfloor x + 1.
Proof.
  unfold round_half_even. destruct (_ ?= _)%Q; [destruct (Z.even _)|..]; lia.
Qed.

Lemma round_half_even_int x n : (x == inject_Z n)%Q → round_half_even x = n.
Proof.
  intros Hx. unfold round_half_even.
  assert (Hf : Qfloor x = n) by (rewrite Hx; apply Qfloor_Z).
  rewrite Hf.
  assert (Hlt : (x - inject_Z n < 1 # 2)%Q) by (rewrite Hx; lra).
  destruct (x - inject_Z n ?= 1 # 2)%Q eqn:C; [|reflexivity|];
    compare_spec C; exfalso; lra.
Qed.

Lemma round_half_even_mono x y : (x <= y)%Q → round_half_even x ≤ round_half_even y.
Proof.
  intros Hxy. pose proof (Qfloor_resp_le x y Hxy) as Hf.
  pose proof (round_half_even_bounds x) as Bx.
  pose proof (round_half_even_bounds y) as By.
  destruct (Z.eq_dec (Qfloor x) (Qfloor y)) as [Heq|Hne]; [|lia].
  unfold round_half_even in *. rewrite <- Heq in *.
  destruct (x - inject_Z (Qfloor x) ?= 1 # 2)%Q eqn:Cx;
    destruct (y - inject_Z (Qfloor x) ?= 1 # 2)%Q eqn:Cy;
    compare_spec Cx; compare_spec Cy;
    try (destruct (Z.even (Qfloor x))); try lia; exfalso; lra.
Qed.

Lemma Qlog2_spec x :
  (0 < x)%Q → (pow2 (Qlog2 x) <= x ∧ x < pow2 (Qlog2 x + 1))%Q.
Proof.
  intros Hx. destruct x as [n d].
  assert (Hn : 0 < n) by (unfold Qlt in Hx; cbn in Hx; lia).
  unfold Qlog2. cbn [Qnum Qden].
  set (a := Z.log2 n). set (b := Z.log2 (Z.pos d)).
  pose proof (Z.log2_nonneg n) as Ha0. pose proof (Z.log2_nonneg (Z.pos d)) as Hb0.
  fold a in Ha0. fold b in Hb0.
  destruct (Z.log2_spec n Hn) as [Hn1 Hn2]. fold a in Hn1, Hn2.
  destruct (Z.log2_spec (Z.pos d) ltac:(lia)) as [Hd1 Hd2]. fold b in Hd1, Hd2.
  rewrite Zle_Qle in Hn1, Hd1. rewrite Zlt_Qlt in Hn2, Hd2.
  rewrite <- Z.add_1_r in Hn2, Hd2.
  rewrite <- pow2_int in Hn1, Hn2, Hd1, Hd2 by lia.
  assert (Hdiv : ((n # d) * inject_Z (Z.pos d) == inject_Z n)%Q).
  { rewrite (Qmake_Qdiv n d). field. discriminate. }
  assert (Hdpos : (0 < inject_Z (Z.pos d))%Q) by reflexivity.
  pose proof (pow2_pos b) as Pb. pose proof (pow2_pos (a - b)) as Pl.
  pose proof (pow2_pos (a - b + 1)) as Pl1. pose proof (pow2_pos (a - b - 1)) as Pl0.
  assert (E1 : (pow2 (a - b + 1) * pow2 b == pow2 (a + 1))%Q).
  { rewrite <- pow2_add. replace (a - b + 1 + b) with (a + 1) by lia. reflexivity. }
  assert (E0 : (pow2 (a - b - 1) * pow2 (b + 1) == pow2 a)%Q).
  { rewrite <- pow2_add. replace (a - b - 1 + (b + 1)) with a by lia. reflexivity. }
  destruct (Qle_bool (pow2 (a - b)) (n # d)) eqn:Hle.
  - apply Qle_bool_iff in Hle. split; [exact Hle|].
    set (x := (n # d)%Q) in *. set (D := inject_Z (Z.pos d)) in *.
    set (N := inject_Z n) in *.
    apply Qnot_le_lt. intros Hc.
    assert (pow2 (a - b + 1) * pow2 b <= x * D)%Q.
    { apply Qle_trans with (pow2 (a - b + 1) * D)%Q.
      - apply Qmult_le_l; assumption.
      - apply Qmult_le_r; assumption. }
    lra.
  - assert (Hlt : (n # d < pow2 (a - b))%Q).
    { apply Qnot_le_lt. intros Hc. apply Qle_bool_iff in Hc. congruence. }
    replace (a - b - 1 + 1) with (a - b) by lia. split; [|exact Hlt].
    set (x := (n # d)%Q) in *. set (D := inject_Z (Z.pos d)) in *.
    set (N := inject_Z n) in *.
    apply Qnot_lt_le. intros Hc.
    assert (x * D < pow2 (a - b - 1) * pow2 (b + 1))%Q.
    { apply Qlt_trans with (pow2 (a - b - 1) * D)%Q.
      - apply Qmult_lt_r; assumption.
      - apply Qmult_lt_l; assumption. }
    lra.
Qed.

Lemma Qlog2_mono x y : (0 < x)%Q → (x <= y)%Q → Qlog2 x ≤ Qlog2 y.
Proof.
  intros Hx Hxy.
  destruct (Qlog2_spec x Hx) as [Hx1 _].
  destruct (Qlog2_spec y ltac:(lra)) as [_ Hy2].
  destruct (Z.le_gt_cases (Qlog2 x) (Qlog2 y)) as [H|H]; [exact H|exfalso].
  pose proof (pow2_le (Qlog2 y + 1) (Qlog2 x) ltac:(lia)). lra.
Qed.

Lemma round_pos_nonneg x : (0 < x)%Q → (0 <= round_pos x)%Q.
Proof.
  intros Hx. unfold round_pos.
  set (e := Z.max _ _).
  apply Qmult_le_0_compat; [|apply Qlt_le_weak, pow2_pos].
  change 0%Q with (inject_Z 0). rewrite <- Zle_Qle.
  pose proof (round_half_even_bounds (x * pow2 (- e))) as [H _].
  assert (0 ≤ Qfloor (x * pow2 (- e))); [|lia].
  rewrite <- (Qfloor_Z 0). apply Qfloor_resp_le.
  apply Qmult_le_0_compat; [lra|apply Qlt_le_weak, pow2_pos].
Qed.

Lemma round_pos_mono x y : (0 < x)%Q → (x <= y)%Q → (round_pos x <= round_pos y)%Q.
Proof.
  intros Hx Hxy. assert (Hy : (0 < y)%Q) by lra.
  pose proof (Qlog2_mono x y Hx Hxy) as HL.
  destruct (Qlog2_spec x Hx) as [_ Hx2]. destruct (Qlog2_spec y Hy) as [Hy1 _].
  unfold round_pos.
  set (ex := Z.max (Qlog2 x - 52) (-1074)). set (ey := Z.max (Qlog2 y - 52) (-1074)).
  assert (Hex : ex ≤ ey) by lia.
  destruct (Z.eq_dec ex ey) as [Heq|Hne].
  - rewrite <- Heq. apply Qmult_le_r; [apply pow2_pos|].
    rewrite <- Zle_Qle. apply round_half_even_mono.
    apply Qmult_le_r; [apply pow2_pos|exact Hxy].
  - assert (Hey : ey = Qlog2 y - 52) by lia.
    assert (HLx : Qlog2 x + 1 ≤ Qlog2 y) by lia.
    apply Qle_trans with (pow2 (Qlog2 y)).
    + (* the rounded x stays below the next power of two *)
      assert (Hscaled : (x * pow2 (- ex) <= inject_Z (2 ^ (Qlog2 y - ex)))%Q).
      { rewrite <- pow2_int by lia.
        replace (Qlog2 y - ex) with (Qlog2 y + - ex) by lia. rewrite pow2_add.
        apply Qmult_le_r; [apply pow2_pos|].
        pose proof (pow2_le (Qlog2 x + 1) (Qlog2 y) HLx). lra. }
      apply round_half_even_mono in Hscaled.
      rewrite (round_half_even_int (inject_Z _) _ (Qeq_refl _)) in Hscaled.
      rewrite Zle_Qle in Hscaled.
      apply Qle_trans with (inject_Z (2 ^ (Qlog2 y - ex)) * pow2 ex)%Q.
      * apply Qmult_le_r; [apply pow2_pos|exact Hscaled].
      * rewrite <- pow2_int by lia. rewrite <- pow2_add.
        replace (Qlog2 y - ex + ex) with (Qlog2 y) by lia. apply Qle_refl.
    + assert (Hscaled : (inject_Z (2 ^ 52) <= y * pow2 (- ey))%Q).
      { rewrite <- pow2_int by lia.
        replace 52 with (Qlog2 y + - ey) by lia. rewrite pow2_add.
        apply Qmult_le_r; [apply pow2_pos|exact Hy1]. }
      apply round_half_even_mono in Hscaled.
      rewrite (round_half_even_int (inject_Z _) _ (Qeq_refl _)) in Hscaled.
      rewrite Zle_Qle in Hscaled.
      apply Qle_trans with (inject_Z (2 ^ 52) * pow2 ey)%Q.
      * rewrite <- pow2_int by lia. rewrite <- pow2_add.
        replace (52 + ey) with (Qlog2 y) by lia. apply Qle_refl.
      * apply Qmult_le_r; [apply pow2_pos|exact Hscaled].
Qed.

Lemma round_pos_int n :
  0 < n < 2 ^ 53 → (round_pos (inject_Z n) == inject_Z n)%Q.
Proof.
  intros [Hn Hmax]. unfold round_pos.
  assert (Hx : (0 < inject_Z n)%Q).
  { change 0%Q with (inject_Z 0). rewrite <- Zlt_Qlt. exact Hn. }
  destruct (Qlog2_spec _ Hx) as [HL _].
  assert (HL53 : Qlog2 (inject_Z n) < 53).
  { destruct (Z.lt_ge_cases (Qlog2 (inject_Z n)) 53) as [H|H]; [exact H|exfalso].
    pose proof (pow2_le 53 _ H) as Hp. rewrite (pow2_int 53) in Hp by lia.
    assert (Hc : (inject_Z (2 ^ 53) <= inject_Z n)%Q) by lra.
    rewrite <- Zle_Qle in Hc. lia. }
  set (e := Z.max (Qlog2 (inject_Z n) - 52) (-1074)).
  assert (He : e ≤ 0) by lia.
  assert (Hscaled : (inject_Z n * pow2 (- e) == inject_Z (n * 2 ^ (- e)))%Q).
  { rewrite inject_Z_mult, pow2_int by lia. reflexivity. }
  rewrite (round_half_even_int _ _ Hscaled).
  rewrite inject_Z_mult, <- pow2_int by lia.
  rewrite <- Qmult_assoc, pow2_cancel. apply Qmult_1_r.
Qed.

Lemma round_double_nonneg x : (0 <= x)%Q → (0 <= round_double x)%Q.
Proof.
  intros Hx. destruct x as [[|p|p] d]; unfold round_double; cbn [Qnum].
  - apply Qle_refl.
  - apply round_pos_nonneg. reflexivity.
  - exfalso. unfold Qle in Hx. cbn in Hx. lia.
Qed.

Lemma round_double_mono x y : (x <= y)%Q → (round_double x <= round_double y)%Q.
Proof.
  intros Hxy. destruct x as [[|p|p] d], y as [[|q|q] c];
    unfold round_double; cbn [Qnum];
    try (exfalso; unfold Qle in Hxy; cbn in Hxy; lia).
  - apply Qle_refl.
  - apply round_pos_nonneg. reflexivity.
  - apply round_pos_mono; [reflexivity|exact Hxy].
  - pose proof (round_pos_nonneg (- (Z.neg p # d)) eq_refl). lra.
  - pose proof (round_pos_nonneg (- (Z.neg p # d)) eq_refl).
    pose proof (round_pos_nonneg (Z.pos q # c) eq_refl). lra.
  - apply Qopp_le_compat. apply round_pos_mono; [reflexivity|].
    apply Qopp_le_compat. exact Hxy.
Qed.

Lemma round_double_int n :
  - 2 ^ 53 < n < 2 ^ 53 → (round_double (inject_Z n) == inject_Z n)%Q.
Proof.
  intros Hn. destruct n as [|p|p]; unfold round_double; cbn [Qnum inject_Z].
  - reflexivity.
  - apply (round_pos_int (Z.pos p)). lia.
  - change (- (Z.neg p # 1))%Q with (inject_Z (Z.pos p)).
    rewrite (round_pos_int (Z.pos p)) by lia. reflexivity.
Qed.

(** Sample counts where the float product and the exact product fall on
    different sides of an integer: [0.3 * 48000] is 14400.0 as a float and
    [0.141 * 48000] is just below 6768. *)
Remark float_sample_counts :
  crossfade_samples_of 0.3 48000 = 14400
  ∧ crossfade_samples_of 0.141 48000 = 6767
  ∧ crossfade_samples_of 0.3333333333333333 3 = 1
  ∧ py_int (float_mul 1.041 48000) = 49968
  ∧ py_int (float_mul 1.001 48000) = 48047
  ∧ py_int (1.001 * 48000) = 48048.
Proof. vm_compute. repeat split. Qed.

(** ** Properties of the array primitives *)

Lemma len_nonneg {A} (l : list A) : 0 ≤ len l.
Proof. unfold len. lia. Qed.

Lemma len_app {A} (l k : list A) : len (l ++ k) = len l + len k.
Proof. unfold len. rewrite length_app. lia. Qed.

Lemma py_slice_prefix {A} (l : list A) k :
  0 ≤ k ≤ len l → py_slice None (Some k) l = take (Z.to_nat k) l.
Proof.
  intros Hk. unfold py_slice, slice_bound.
  destruct (Z.ltb_spec k 0) as [?|_]; [lia|].
  rewrite Z.min_l by lia. rewrite Z.sub_0_r. reflexivity.
Qed.

Lemma py_slice_from {A} (l : list A) k :
  0 ≤ k ≤ len l → py_slice (Some k) None l = drop (Z.to_nat k) l.
Proof.
  intros Hk. unfold py_slice, slice_bound.
  destruct (Z.ltb_spec k 0) as [?|_]; [lia|].
  rewrite Z.min_l by lia. apply take_ge.
  rewrite length_drop. unfold len in *. lia.
Qed.

Lemma py_slice_suffix {A} (l : list A) k :
  0 < k ≤ len l → py_slice (Some (- k)) None l = drop (Z.to_nat (len l - k)) l.
Proof.
  intros Hk. unfold py_slice, slice_bound.
  destruct (Z.ltb_spec (- k) 0) as [_|?]; [|lia].
  rewrite Z.max_l by lia. replace (- k + len l) with (len l - k) by lia.
  apply take_ge. rewrite length_drop. unfold len in *. lia.
Qed.

Lemma py_slice_init {A} (l : list A) k :
  0 < k ≤ len l → py_slice None (Some (- k)) l = take (Z.to_nat (len l - k)) l.
Proof.
  intros Hk. unfold py_slice, slice_bound.
  destruct (Z.ltb_spec (- k) 0) as [_|?]; [|lia].
  rewrite Z.max_l by lia. rewrite Z.sub_0_r.
  replace (- k + len l) with (len l - k) by lia. reflexivity.
Qed.

Lemma py_slice_middle {A} (l : list A) k :
  0 < k → k * 2 ≤ len l →
  py_slice (Some k) (Some (- k)) l
  = take (Z.to_nat (len l - k * 2)) (drop (Z.to_nat k) l).
Proof.
  intros Hk Hl. unfold py_slice, slice_bound.
  destruct (Z.ltb_spec (- k) 0) as [_|?]; [|lia].
  destruct (Z.ltb_spec k 0) as [?|_]; [lia|].
  rewrite Z.max_l by lia. rewrite Z.min_l by lia.
  f_equal. lia.
Qed.

Lemma linspace_length start stop num :
  0 ≤ num →
  ∃ ramp, linspace start stop num = Return ramp ∧ length ramp = Z.to_nat num.
Proof.
  intros Hnum. unfold linspace.
  destruct (Z.ltb_spec num 0) as [?|_]; [lia|].
  eexists. split; [reflexivity|].
  destruct (1 <? num); rewrite ?length_insert, length_map, length_seq; reflexivity.
Qed.

Lemma broadcast_same_length op (a b : list Q) :
  length a = length b → broadcast op a b = Return (zip_with op a b).
Proof. intros H. unfold broadcast. rewrite decide_True by assumption. reflexivity. Qed.

Lemma length_zip_with_same {A B C} (f : A → B → C) (a : list A) (b : list B) :
  length a = length b → length (zip_with f a b) = length a.
Proof. intros H. rewrite length_zip_with. lia. Qed.

(** ** The crossfade stitcher *)

Lemma outcome_bind_return {A} (m : outcome A) : (a ← m; Return a) = m.
Proof. destruct m; reflexivity. Qed.

Lemma stitch_loop_plain tiles cd sr todo k acc :
  stitch_loop tiles cd sr false (enumerate k todo) acc = merge_in_order cd sr acc todo.
Proof.
  revert k acc. induction todo as [|tile todo IH]; intros k acc; [reflexivity|].
  simpl. destruct (_create_crossfade acc tile cd sr) as [acc'|e]; simpl; [apply IH|reflexivity].
Qed.

Lemma stitch_loop_loopable tiles cd sr todo k acc :
  todo ≠ [] → k + len todo = len tiles →
  stitch_loop tiles cd sr true (enumerate k todo) acc
  = merge_in_order cd sr acc (removelast todo ++ [nth 0 tiles []]).
Proof.
  revert k acc. induction todo as [|tile todo IH]; intros k acc Hne Hlen; [congruence|].
  destruct todo as [|tile' todo'].
  - cbn [enumerate stitch_loop removelast app merge_in_order andb].
    replace (k =? len tiles - 1) with true
      by (symmetry; apply Z.eqb_eq; unfold len in *; simpl in *; lia).
    destruct (_create_crossfade acc (nth 0 tiles []) cd sr); reflexivity.
  - cbn [enumerate stitch_loop andb].
    replace (k =? len tiles - 1) with false
      by (symmetry; apply Z.eqb_neq; unfold len in *; simpl in *; lia).
    change (removelast (tile :: tile' :: todo')) with (tile :: removelast (tile' :: todo')).
    cbn [app merge_in_order].
    destruct (_create_crossfade acc tile cd sr) as [acc'|e]; [|reflexivity].
    change (stitch_loop tiles cd sr true (enumerate (k + 1) (tile' :: todo')) acc'
            = merge_in_order cd sr acc' (removelast (tile' :: todo') ++ [nth 0 tiles []])).
    apply IH; [congruence|]. unfold len in *. simpl in *. lia.
Qed.

Lemma stitch_tiles_plain tiles cd sr :
  _stitch_tiles tiles cd sr false = stitch_in_order cd sr tiles.
Proof.
  destruct tiles as [|tile0 [|tile1 rest]]; [reflexivity..|].
  unfold _stitch_tiles, stitch_in_order.
  rewrite py_slice_from by (unfold len; simpl; lia).
  change (drop (Z.to_nat 1) (tile0 :: tile1 :: rest)) with (tile1 :: rest).
  apply stitch_loop_plain.
Qed.

Lemma stitch_tiles_loopable tile0 tile1 rest cd sr :
  _stitch_tiles (tile0 :: tile1 :: rest) cd sr true
  = merge_in_order cd sr tile0 (removelast (tile1 :: rest) ++ [tile0]).
Proof.
  unfold _stitch_tiles.
  rewrite py_slice_from by (unfold len; simpl; lia).
  change (drop (Z.to_nat 1) (tile0 :: tile1 :: rest)) with (tile1 :: rest).
  rewrite stitch_loop_loopable; [reflexivity|congruence|].
  unfold len. simpl. lia.
Qed.

(** C2, as the code has it.  Without [loopable] the tiles are merged left to
    right in planner order.  With [loopable] the loop wrapper runs on every
    tile before stitching, never on the stitched buffer, and the last merge
    step blends the accumulated buffer with the first (wrapped) tile in place
    of the last one. *)
Theorem stitch_stage_order (request : SFXGenerationRequest) (tiles : list (list Q)) :
  let cd := crossfade_duration request in
  let sr := sample_rate request in
  stitch_stage request tiles =
    if loopable request then
      wrapped ← for_each (λ tile, _make_loopable tile cd sr) tiles;
      match wrapped with
      | [] => Return []
      | [tile] => Return tile
      | tile0 :: rest => merge_in_order cd sr tile0 (removelast rest ++ [tile0])
      end
    else stitch_in_order cd sr tiles.
Proof.
  intros cd sr. unfold stitch_stage. fold cd sr.
  destruct (loopable request).
  - destruct (for_each _ tiles) as [wrapped|e]; [|reflexivity].
    destruct wrapped as [|tile0 [|tile1 rest]]; [reflexivity..|].
    apply stitch_tiles_loopable.
  - apply stitch_tiles_plain.
Qed.

(** C2 as stated fails: three one-sample tiles, loopable.  The code returns
    tile 0, tile 1, tile 0; stitching in planner order and then loop-wrapping
    returns tile 0, tile 1, tile 2. *)
Lemma stitch_stage_not_in_planner_order :
  let request :=
    {| prompt := "rain on leaves"; duration := 50; seed := Some 42;
       loopable := true; crossfade_duration := 0.5; output_format := "wav";
       sample_rate := 48000; bit_depth := 24 |} in
  let tiles := [[1%Q]; [2%Q]; [3%Q]] in
  stitch_stage request tiles = Return [1%Q; 2%Q; 1%Q]
  ∧ stitch_then_loop request tiles = Return [1%Q; 2%Q; 3%Q]
  ∧ stitch_stage request tiles ≠ stitch_then_loop request tiles.
Proof. vm_compute. repeat split; congruence. Qed.

(** C8, as the code has it: with [crossfade_samples] the truncation
    [int(crossfade_duration * sample_rate)] of the float product, two
    segments of which one is shorter than [crossfade_samples] are
    concatenated, and the call returns. *)
Theorem crossfade_short_segments_concatenate (audio1 audio2 : list Q) cd sr :
  len audio1 < crossfade_samples_of cd sr ∨ len audio2 < crossfade_samples_of cd sr →
  _create_crossfade audio1 audio2 cd sr = Return (audio1 ++ audio2).
Proof.
  intros H. unfold _create_crossfade.
  destruct (Z.ltb_spec (len audio1) (crossfade_samples_of cd sr)); [reflexivity|].
  destruct (Z.ltb_spec (len audio2) (crossfade_samples_of cd sr)); [reflexivity|].
  lia.
Qed.

Lemma crossfade_short_segments_concatenate_witness :
  _create_crossfade [1%Q; 1%Q] [0.5%Q; 0.5%Q] 1 48000
  = Return [1%Q; 1%Q; 0.5%Q; 0.5%Q].
Proof.
  apply (crossfade_short_segments_concatenate [1%Q; 1%Q] [0.5%Q; 0.5%Q] 1 48000).
  left. vm_compute. reflexivity.
Defined.

(** C8 as stated fails when [crossfade_duration * sample_rate] has a
    fractional part of one half or more: at 0.10002 s and 48 kHz the product
    is 4800.96, which rounds to 4801 and truncates to 4800.  Two segments of
    4800 samples are shorter than the rounded count, and the code crossfades
    them (4800 samples come out, not 9600). *)
Lemma crossfade_round_counterexample :
  let segment := replicate 4800 1%Q in
  len segment < py_round (0.10002 * inject_Z 48000)
  ∧ outcome_len (_create_crossfade segment segment 0.10002 48000) = Some 4800
  ∧ _create_crossfade segment segment 0.10002 48000 ≠ Return (segment ++ segment).
Proof.
  intros segment.
  assert (Hlen : outcome_len (_create_crossfade segment segment 0.10002 48000)
                 = Some 4800) by (vm_compute; reflexivity).
  split; [vm_compute; reflexivity|]. split; [exact Hlen|].
  intros Heq. rewrite Heq in Hlen. clear Heq. vm_compute in Hlen. discriminate Hlen.
Qed.

(** C10: an empty tile list stitches to the empty buffer, and a single tile
    is returned as it is, whatever the crossfade duration, the sample rate
    and the [loopable] flag. *)
Theorem stitch_empty_and_single cd sr (loopable : bool) :
  _stitch_tiles [] cd sr loopable = Return []
  ∧ ∀ tile, _stitch_tiles [tile] cd sr loopable = Return tile.
Proof. split; reflexivity. Qed.

(** ** The loop wrapper *)

(** C9, as the code has it: with [crossfade_samples] the truncation
    [int(crossfade_duration * sample_rate)] of the float product, a buffer
    shorter than twice [crossfade_samples] is returned as it is;
    otherwise (for a crossfade of at least one sample) the output is the sum
    of the first [crossfade_samples] under the fade-in ramp and the last
    [crossfade_samples] under the fade-out ramp, followed by the middle of
    the buffer, and is [crossfade_samples] shorter than the input. *)
Theorem make_loopable_construction (audio : list Q) cd sr :
  let cs := crossfade_samples_of cd sr in
  (len audio < cs * 2 → _make_loopable audio cd sr = Return audio)
  ∧ (0 < cs → cs * 2 ≤ len audio →
     ∃ fade_in fade_out out,
       linspace 0 1 cs = Return fade_in
       ∧ linspace 1 0 cs = Return fade_out
       ∧ _make_loopable audio cd sr = Return out
       ∧ out = zip_with Qplus
                 (zip_with Qmult (take (Z.to_nat cs) audio) fade_in)
                 (zip_with Qmult (drop (Z.to_nat (len audio - cs)) audio) fade_out)
               ++ take (Z.to_nat (len audio - cs * 2)) (drop (Z.to_nat cs) audio)
       ∧ len out = len audio - cs).
Proof.
  intros cs. split.
  - intros H. unfold _make_loopable. fold cs.
    destruct (Z.ltb_spec (len audio) (cs * 2)); [reflexivity|lia].
  - intros Hcs Hlen.
    destruct (linspace_length 0 1 cs) as (fade_in & Hin & Lin); [lia|].
    destruct (linspace_length 1 0 cs) as (fade_out & Hout & Lout); [lia|].
    assert (Lhead : length (take (Z.to_nat cs) audio) = Z.to_nat cs)
      by (rewrite length_take; unfold len in *; lia).
    assert (Ltail : length (drop (Z.to_nat (len audio - cs)) audio) = Z.to_nat cs)
      by (rewrite length_drop; unfold len in *; lia).
    assert (Lstart : length (zip_with Qmult (take (Z.to_nat cs) audio) fade_in)
                     = Z.to_nat cs)
      by (rewrite length_zip_with_same; congruence).
    assert (Lend : length (zip_with Qmult (drop (Z.to_nat (len audio - cs)) audio)
                                    fade_out) = Z.to_nat cs)
      by (rewrite length_zip_with_same; congruence).
    exists fade_in, fade_out. eexists. split; [exact Hin|]. split; [exact Hout|].
    split; [|split; [reflexivity|]].
    + unfold _make_loopable. fold cs.
      destruct (Z.ltb_spec (len audio) (cs * 2)); [lia|].
      rewrite Hout, Hin. cbn [mbind outcome_bind].
      rewrite py_slice_prefix, py_slice_suffix, py_slice_middle by lia.
      unfold np_mul, np_add.
      rewrite (broadcast_same_length Qmult) by congruence. cbn [mbind outcome_bind].
      rewrite (broadcast_same_length Qmult) by congruence. cbn [mbind outcome_bind].
      rewrite (broadcast_same_length Qplus) by congruence.
      reflexivity.
    + pose proof (length_zip_with_same Qplus _ _ (eq_trans Lstart (eq_sym Lend))) as Lsum.
      rewrite Lstart in Lsum.
      rewrite len_app. unfold len in *.
      rewrite Lsum, length_take, length_drop. lia.
Qed.

(** The hypothesis [0 < cs] of the construction matters: when
    [crossfade_duration * sample_rate] is below one sample, [audio[-0:]] is
    the whole buffer, and multiplying it by the empty ramp fails. *)
Remark make_loopable_zero_crossfade :
  crossfade_samples_of 0.1 8 = 0
  ∧ _make_loopable [1%Q; 2%Q] 0.1 8
    = Raise (ValueError
               "operands could not be broadcast together with shapes (2,) (0,) ").
Proof. split; vm_compute; reflexivity. Qed.

(** C9 as stated fails when [crossfade_duration * sample_rate] has a
    fractional part of one half or more: at 0.10002 s and 48 kHz the product
    is 4800.96, which rounds to 4801 and truncates to 4800.  A buffer of
    9600 samples is shorter than twice the rounded count, and the code does
    not return it unchanged: it blends it, and 4800 samples come out. *)
Lemma make_loopable_round_counterexample :
  let buffer := replicate (Z.to_nat 9600) 1%Q in
  len buffer < 2 * py_round (0.10002 * inject_Z 48000)
  ∧ outcome_len (_make_loopable buffer 0.10002 48000) = Some 4800
  ∧ _make_loopable buffer 0.10002 48000 ≠ Return buffer.
Proof.
  intros buffer.
  assert (Hlen : outcome_len (_make_loopable buffer 0.10002 48000) = Some 4800)
    by (vm_compute; reflexivity).
  split; [vm_compute; reflexivity|]. split; [exact Hlen|].
  intros Heq. rewrite Heq in Hlen. clear Heq. vm_compute in Hlen. discriminate Hlen.
Qed.

Lemma make_loopable_construction_witness :
  _make_loopable [1%Q; 2%Q] 1 48000 = Return [1%Q; 2%Q]
  ∧ ∃ out, _make_loopable [1%Q; 2%Q; 3%Q; 4%Q; 5%Q] 1 2 = Return out
           ∧ len out = 3.
Proof.
  split.
  - apply (make_loopable_construction [1%Q; 2%Q] 1 48000). vm_compute. reflexivity.
  - destruct (make_loopable_construction [1%Q; 2%Q; 3%Q; 4%Q; 5%Q] 1 2) as [_ H].
    destruct H as (fade_in & fade_out & out & _ & _ & Hout & _ & Hlen).
    + vm_compute. reflexivity.
    + vm_compute. discriminate.
    + exists out. split; [exact Hout|exact Hlen].
Defined.

(** ** Steps of the world *)

Lemma posts_app t1 t2 : posts (t1 ++ t2) = posts t1 ++ posts t2.
Proof. apply omap_app. Qed.

Lemma posts_EvPost ps : posts (map EvPost ps) = ps.
Proof. induction ps as [|p ps IH]; [reflexivity|]. cbn. f_equal. exact IH. Qed.

Lemma cache_writes_app t1 t2 : cache_writes (t1 ++ t2) = cache_writes t1 ++ cache_writes t2.
Proof. apply omap_app. Qed.

Lemma cache_writes_EvPost ps : cache_writes (map EvPost ps) = [].
Proof. induction ps as [|p ps IH]; [reflexivity|]. exact IH. Qed.

Lemma quiet_refl w : quiet w w.
Proof. repeat split. Qed.

Lemma quiet_trans w1 w2 w3 : quiet w1 w2 → quiet w2 w3 → quiet w1 w3.
Proof.
  intros (A1 & A2 & A3 & A4 & A5) (B1 & B2 & B3 & B4 & B5).
  repeat split; congruence.
Qed.

Lemma load_output_format_unbound locals name :
  name ∉ locals.*1 → name ∉ module_globals →
  load_output_format locals name = Raise (NameError name).
Proof.
  intros Hlocals Hglobals. unfold load_output_format.
  rewrite (not_elem_of_list_to_map_1 _ _ Hlocals).
  rewrite bool_decide_eq_false_2 by assumption. reflexivity.
Qed.

Lemma request_not_bound :
  ∀ names : list string,
    Forall (λ x, bool_decide (x = "request") = false) names → "request" ∉ names.
Proof.
  intros names H Hin. rewrite Forall_forall in H.
  specialize (H _ Hin). rewrite bool_decide_eq_false in H. congruence.
Qed.

(** The cache lookup of the code never returns an entry: when the file is
    there, building the result reads the unbound name [request], and the
    [except] clause turns the [NameError] into [None].  The first
    [exists()] is outside the [try]: its error, if any, is the outcome. *)
Lemma get_cached_result_run cache_key w :
  ∃ w', _get_cached_result cache_key w
        = (match stat_error w cache_key with
           | Some e => Raise e
           | None => Return None
           end, w')
    ∧ quiet w w'.
Proof.
  assert (Hname : ∀ a b c d e f,
             load_output_format
               [("self", a); ("cache_key", b); ("cache_file", c);
                ("audio_data", d); ("metadata_file", e); ("metadata", f)]
               "request" = Raise (NameError "request")).
  { intros. apply load_output_format_unbound; apply request_not_bound;
      repeat constructor. }
  unfold _get_cached_result. io_unfold. unfold cache_exists, cache_read.
  destruct (stat_error w cache_key) as [e|] eqn:Hstat.
  { eexists. split; [reflexivity|]. repeat split; trace_solve. }
  destruct (cache_dir w !! cache_key) as [audio|] eqn:Hfile; cbn.
  - rewrite Hfile. cbn.
    destruct (stat_error w (with_suffix cache_key ".json")) as [e|] eqn:Hstat'; cbn.
    { eexists. split; [reflexivity|]. repeat split; trace_solve. }
    destruct (cache_dir w !! with_suffix cache_key ".json") as [text|] eqn:Hmeta; cbn.
    + rewrite Hmeta. cbn. destruct (json_load text) as [m|e]; cbn.
      * rewrite Hname. eexists. split; [reflexivity|]. repeat split; trace_solve.
      * eexists. split; [reflexivity|]. repeat split; trace_solve.
    + rewrite Hname. eexists. split; [reflexivity|]. repeat split; trace_solve.
  - eexists. split; [reflexivity|]. repeat split; trace_solve.
Qed.

Lemma get_cached_result_misses cache_key w :
  stat_error w cache_key = None →
  ∃ w', _get_cached_result cache_key w = (Return None, w') ∧ quiet w w'.
Proof.
  intros Hstat. destruct (get_cached_result_run cache_key w) as (w' & Hrun & Hq).
  rewrite Hstat in Hrun. exists w'. split; assumption.
Qed.

(** ** The tile loop *)

Lemma generate_tiles_replay E request td todo : ∀ tiles w,
  ∃ w', generate_tiles E request td todo tiles w
        = ((replay_tiles E request (backend w) td (requests_served w) todo tiles).1, w')
    ∧ cache_dir w' = cache_dir w
    ∧ backend w' = backend w
    ∧ trace w' = trace w
                 ++ map EvPost (replay_tiles E request (backend w) td
                                             (requests_served w) todo tiles).2.
Proof.
  induction todo as [|i todo IH]; intros tiles w.
  - exists w. cbn. rewrite app_nil_r. repeat split.
  - cbn [generate_tiles replay_tiles]. unfold _generate_sfx_tile, http_post.
    io_unfold. fold (request_for_tile request td i). unfold tile_of_response.
    cbn [mbind outcome_bind].
    destruct (response_body (backend w (requests_served w) (request_for_tile request td i)))
      as [tile_data|e]; cbn [mbind outcome_bind].
    + destruct (_process_audio_tile E tile_data (sample_rate request))
        as [tile_audio|e]; cbn [mbind outcome_bind].
      * match goal with |- context [generate_tiles _ _ _ _ _ ?w1] =>
          destruct (IH (tiles ++ [tile_audio]) w1) as (w' & Hrun & Hcache & Hback & Htrace)
        end.
        cbn [backend requests_served cache_dir trace log] in Hrun, Hcache, Hback, Htrace.
        rewrite Hrun.
        destruct (replay_tiles E request (backend w) td (S (requests_served w)) todo
                               (tiles ++ [tile_audio])) as [o sent].
        exists w'. cbn [fst snd] in *. repeat split; try assumption.
        rewrite Htrace, <- app_assoc. reflexivity.
      * eexists. split; [reflexivity|]. cbn. repeat split.
    + eexists. split; [reflexivity|]. cbn. repeat split.
Qed.

(** Every request of the replay is the request of a tile of the plan, in
    planner order; the loop stops at the first tile that fails. *)
Lemma replay_tiles_sent_prefix E request answer td todo : ∀ k tiles,
  ∃ m, (m ≤ length todo)%nat
       ∧ (replay_tiles E request answer td k todo tiles).2
         = map (request_for_tile request td) (take m todo)
       ∧ match (replay_tiles E request answer td k todo tiles).1 with
         | Return tiles' => m = length todo ∧ length tiles' = (length tiles + length todo)%nat
         | Raise _ => True
         end.
Proof.
  induction todo as [|i todo IH]; intros k tiles.
  - exists 0%nat. cbn. repeat split; lia.
  - cbn [replay_tiles].
    destruct (tile_of_response E request (answer k (request_for_tile request td i)))
      as [tile_audio|e].
    + destruct (IH (S k) (tiles ++ [tile_audio])) as (m & Hm & Hsent & Hres).
      destruct (replay_tiles E request answer td (S k) todo (tiles ++ [tile_audio]))
        as [o sent]. cbn [fst snd] in *.
      exists (S m). split; [cbn; lia|]. split; [cbn; congruence|].
      destruct o; [|exact I]. destruct Hres as [-> Hlen].
      rewrite length_app in Hlen. cbn in *. lia.
    + exists 1%nat. cbn. repeat split; lia.
Qed.

(** The replay when the tiles before position [m] succeed and the tile at
    position [m] fails with [e]. *)
Lemma replay_tiles_first_failure E request answer td (m : nat) e : ∀ todo k tiles i,
  todo !! m = Some i →
  (∀ j ij, (j < m)%nat → todo !! j = Some ij →
     ∃ audio, tile_of_response E request (answer (k + j)%nat (request_for_tile request td ij))
              = Return audio) →
  tile_of_response E request (answer (k + m)%nat (request_for_tile request td i)) = Raise e →
  replay_tiles E request answer td k todo tiles
  = (Raise e, map (request_for_tile request td) (take (S m) todo)).
Proof.
  induction m as [|m IH]; intros todo k tiles i Hm Hok Hfail.
  - destruct todo as [|i0 todo]; [discriminate|]. cbn in Hm. injection Hm as ->.
    cbn [replay_tiles]. rewrite Nat.add_0_r in Hfail. rewrite Hfail.
    reflexivity.
  - destruct todo as [|i0 todo]; [discriminate|]. cbn in Hm.
    cbn [replay_tiles].
    destruct (Hok 0%nat i0) as [audio Haudio]; [lia|reflexivity|].
    rewrite Nat.add_0_r in Haudio. rewrite Haudio.
    rewrite (IH todo (S k) (tiles ++ [audio]) i Hm).
    + reflexivity.
    + intros j ij Hj Hij. replace (S k + j)%nat with (k + S j)%nat by lia.
      apply Hok; [lia|exact Hij].
    + replace (S k + m)%nat with (k + S m)%nat by lia. exact Hfail.
Qed.


(** ** The clock up to the encoder *)

Lemma same_clock_trans w1 w2 w3 : same_clock w1 w2 → same_clock w2 w3 → same_clock w1 w3.
Proof. intros (A1 & A2 & A3) (B1 & B2 & B3). repeat split; congruence. Qed.

Lemma get_cached_result_clock cache_key w :
  same_clock w (_get_cached_result cache_key w).2.
Proof.
  unfold _get_cached_result. io_unfold. unfold cache_exists, cache_read.
  destruct (stat_error w cache_key) as [e|] eqn:Hstat; [repeat split|].
  destruct (cache_dir w !! cache_key) as [audio|] eqn:Hfile; cbn; [|repeat split].
  rewrite Hfile. cbn.
  destruct (stat_error w (with_suffix cache_key ".json")) as [e|] eqn:Hstat'; cbn;
    [repeat split|].
  destruct (cache_dir w !! with_suffix cache_key ".json") as [text|] eqn:Hmeta; cbn.
  - rewrite Hmeta. cbn. destruct (json_load text) as [m|e]; cbn.
    + match goal with |- context [load_output_format ?l ?n] =>
        destruct (load_output_format l n) end; repeat split.
    + repeat split.
  - match goal with |- context [load_output_format ?l ?n] =>
      destruct (load_output_format l n) end; repeat split.
Qed.

Lemma generate_tiles_clock E request td todo : ∀ tiles w,
  same_clock w (generate_tiles E request td todo tiles w).2.
Proof.
  induction todo as [|i todo IH]; intros tiles w; [repeat split|].
  cbn [generate_tiles]. unfold _generate_sfx_tile, http_post. io_unfold.
  match goal with |- context [response_body ?r] => destruct (response_body r) end;
    [|repeat split].
  match goal with |- context [_process_audio_tile ?a ?b ?c] =>
    destruct (_process_audio_tile a b c) as [tile_audio|] end; [|repeat split].
  match goal with |- context [generate_tiles _ _ _ _ ?t ?w1] =>
    destruct (IH t w1) as (H1 & H2 & H3) end.
  repeat split; assumption.
Qed.

Lemma synthesize_waveform_clock E request w :
  same_clock w (synthesize_waveform E request w).2.
Proof.
  unfold synthesize_waveform. io_unfold.
  destruct (py_truediv (duration request) (tiles_needed_of request)) as [td|];
    [|repeat split].
  pose proof (generate_tiles_clock E request td (range (tiles_needed_of request)) [] w) as H.
  destruct (generate_tiles E request td (range (tiles_needed_of request)) [] w) as [o w1].
  destruct o as [tiles|]; [|exact H].
  destruct (stitch_stage request tiles); [|exact H].
  match goal with |- context [ensure_exact_duration ?a ?t] =>
    destruct (ensure_exact_duration a t) end; exact H.
Qed.

(** ** From the tiles to the result *)

Lemma synthesize_waveform_replay E request w :
  ∃ w', synthesize_waveform E request w
        = ((replay_waveform E request (backend w) (requests_served w)).1, w')
    ∧ cache_dir w' = cache_dir w
    ∧ backend w' = backend w
    ∧ trace w' = trace w
                 ++ map EvPost (replay_waveform E request (backend w) (requests_served w)).2.
Proof.
  unfold synthesize_waveform, replay_waveform. io_unfold.
  destruct (py_truediv (duration request) (tiles_needed_of request)) as [td|e].
  - destruct (generate_tiles_replay E request td (range (tiles_needed_of request)) [] w)
      as (w' & Hrun & Hcache & Hback & Htrace).
    rewrite Hrun.
    destruct (replay_tiles E request (backend w) td (requests_served w)
                           (range (tiles_needed_of request)) []) as [o sent].
    cbn [fst snd] in *. exists w'.
    split; [|repeat split; assumption].
    destruct o as [tiles|e]; [|reflexivity]. cbn [mbind outcome_bind].
    destruct (stitch_stage request tiles); reflexivity.
  - exists w. cbn. rewrite app_nil_r. repeat split.
Qed.

Lemma save_audio_encode E audio file_path sr bd :
  _save_audio E audio file_path sr bd
  = sf_write E file_path (encode_samples audio bd).1 sr (encode_samples audio bd).2.
Proof.
  unfold _save_audio, encode_samples.
  destruct (bd =? 16); [reflexivity|]. destruct (bd =? 24); reflexivity.
Qed.

Lemma deliver_run E request use_cache cache_key start_time final_audio w :
  ∃ w', posts (trace w') = posts (trace w)
    ∧ backend w' = backend w
    ∧ match encode E request final_audio (clock w (clock_reads w)) with
      | Raise e =>
          deliver E request use_cache cache_key start_time final_audio w = (Raise e, w')
          ∧ cache_dir w' = cache_dir w
          ∧ cache_writes (trace w') = cache_writes (trace w)
      | Return b =>
          ∃ r, deliver E request use_cache cache_key start_time final_audio w
               = (Return r, w')
            ∧ Result.success r = true
            ∧ Result.audio_data r = Some b
            ∧ Result.tiles_generated r = tiles_needed_of request
            ∧ Result.error_message r = None
      end.
Proof.
  unfold deliver, encode, NamedTemporaryFile. io_unfold. cbv beta iota.
  rewrite save_audio_encode.
  destruct (encode_samples final_audio (bit_depth request)) as [data subtype].
  unfold sf_write, tmp_read, tmp_unlink, datetime_now. cbn.
  destruct (sf_write_error E ("." +:+ output_format request) (sample_rate request) subtype)
    as [e|].
  - eexists. split; [|split; [|split; [reflexivity|split]]]; try reflexivity; trace_solve.
  - cbn. repeat (rewrite lookup_insert_eq; cbn).
    destruct (peak_chunk E ("." +:+ output_format request) subtype); destruct use_cache.
    all: try (unfold _cache_result, cache_write, datetime_now; io_unfold; cbn).
    all: eexists; (split; [|split; [|eexists; split; [reflexivity|repeat split]]]);
      try reflexivity; unfold tick; trace_solve.
Qed.

Lemma generate_sfx_body_run E request use_cache cache_key start_time w :
  let now := clock w (clock_reads w) in
  ∃ w', posts (trace w')
        = posts (trace w) ++ (replay_audio E request (backend w) (requests_served w) now).2
    ∧ match (replay_audio E request (backend w) (requests_served w) now).1 with
      | Return b =>
          ∃ r, generate_sfx_body E request use_cache cache_key start_time w = (Return r, w')
            ∧ Result.success r = true
            ∧ Result.audio_data r = Some b
            ∧ Result.tiles_generated r = tiles_needed_of request
            ∧ Result.error_message r = None
      | Raise e =>
          generate_sfx_body E request use_cache cache_key start_time w = (Raise e, w')
          ∧ cache_dir w' = cache_dir w
          ∧ cache_writes (trace w') = cache_writes (trace w)
      end.
Proof.
  intros now. unfold generate_sfx_body, replay_audio. io_unfold.
  destruct (synthesize_waveform_replay E request w) as (w1 & Hrun & Hcache & Hback & Htrace).
  pose proof (synthesize_waveform_clock E request w) as (Hclock & Hreads & _).
  rewrite Hrun in Hclock, Hreads |- *. cbn [snd] in Hclock, Hreads.
  destruct (replay_waveform E request (backend w) (requests_served w)) as [o sent].
  cbn [fst snd] in *.
  destruct o as [final_audio|e]; cbn [mbind outcome_bind].
  - destruct (deliver_run E request use_cache cache_key start_time final_audio w1)
      as (w2 & Hposts & _ & Hdeliver).
    rewrite Hclock, Hreads in Hdeliver. fold now in Hdeliver.
    exists w2. split.
    { rewrite Hposts, Htrace, posts_app, posts_EvPost. reflexivity. }
    destruct (encode E request final_audio now) as [b|e].
    + destruct Hdeliver as (r & -> & Hr). exists r. split; [reflexivity|exact Hr].
    + destruct Hdeliver as (-> & Hcache2 & Hwrites). repeat split; [congruence|].
      rewrite Hwrites, Htrace, cache_writes_app, cache_writes_EvPost, app_nil_r.
      reflexivity.
  - exists w1. split.
    { rewrite Htrace, posts_app, posts_EvPost. reflexivity. }
    repeat split; [assumption|].
    rewrite Htrace, cache_writes_app, cache_writes_EvPost, app_nil_r. reflexivity.
Qed.

(** ** The whole request *)

Lemma Qltb_false x y : (y <= x)%Q → Qltb x y = false.
Proof.
  intros H. unfold Qltb. apply negb_false_iff. apply Qle_bool_iff. exact H.
Qed.

Lemma Qltb_true x y : (x < y)%Q → Qltb x y = true.
Proof.
  intros H. unfold Qltb. apply negb_true_iff.
  destruct (Qle_bool y x) eqn:Hle; [|reflexivity].
  apply Qle_bool_iff in Hle. exfalso. exact (Qlt_not_le _ _ H Hle).
Qed.

(** A request that passes validation runs the replay: the requests of the
    replay are sent, in order, and the result is the audio of the replay or
    the failure that carries its exception. *)
Lemma generate_sfx_run E request use_cache w :
  in_range request → lookup_returns E request use_cache w →
  let now := clock w (S (clock_reads w)) in
  ∃ r w',
    generate_sfx E request use_cache w = (Return r, w')
    ∧ posts (trace w')
      = posts (trace w) ++ (replay_audio E request (backend w) (requests_served w) now).2
    ∧ match (replay_audio E request (backend w) (requests_served w) now).1 with
      | Return b =>
          Result.success r = true
          ∧ Result.audio_data r = Some b
          ∧ Result.tiles_generated r = tiles_needed_of request
          ∧ Result.error_message r = None
      | Raise e =>
          r = failure (str e)
          ∧ cache_dir w' = cache_dir w
          ∧ cache_writes (trace w') = cache_writes (trace w)
      end.
Proof.
  intros [Hmin Hmax] Hlookup now.
  unfold generate_sfx, datetime_now. io_unfold.
  rewrite (Qltb_false _ _ Hmin), (Qltb_false _ _ Hmax).
  set (w0 := log EvNow _).
  assert (Hq0 : quiet w w0) by (unfold w0; repeat split; trace_solve).
  assert (Hmiss : ∃ w1,
             (if use_cache then _get_cached_result (_generate_cache_key E request)
              else (λ w, (Return None, w))) w0 = (Return None, w1) ∧ quiet w w1
             ∧ same_clock w0 w1).
  { destruct use_cache.
    - destruct (get_cached_result_misses (_generate_cache_key E request) w0)
        as (w1 & Hrun & Hq1); [exact (Hlookup eq_refl)|].
      pose proof (get_cached_result_clock (_generate_cache_key E request) w0) as Hc.
      rewrite Hrun in Hc.
      exists w1. split; [exact Hrun|]. split; [exact (quiet_trans _ _ _ Hq0 Hq1)|exact Hc].
    - exists w0. split; [reflexivity|]. split; [exact Hq0|repeat split]. }
  destruct Hmiss as (w1 & Hrun & (Hcache & Hback & Hserved & Hposts & Hwrites)
                     & (Hclock & Hreads & _)).
  rewrite Hrun.
  destruct (generate_sfx_body_run E request use_cache (_generate_cache_key E request)
              (clock w (clock_reads w)) w1) as (w2 & Hsent & Hbody).
  rewrite Hclock, Hreads in Hsent, Hbody. cbn [clock clock_reads w0 log] in Hsent, Hbody.
  fold now in Hsent, Hbody.
  rewrite Hback, Hserved, Hposts in Hsent. rewrite Hback, Hserved in Hbody.
  destruct (replay_audio E request (backend w) (requests_served w) now) as [o sent].
  cbn [fst snd] in *.
  destruct o as [b|e].
  - destruct Hbody as (r & -> & Hr). exists r, w2. repeat split; tauto.
  - destruct Hbody as (-> & Hcache2 & Hwrites2). eexists _, w2.
    repeat split; [assumption|congruence|congruence].
Qed.

(** When the cache lookup of a request that passes validation fails, its
    error leaves [generate_sfx]: the lookup is not inside the [try]. *)
Lemma generate_sfx_lookup_raises E request w e :
  in_range request →
  stat_error w (_generate_cache_key E request) = Some e →
  ∃ w', generate_sfx E request true w = (Raise e, w')
    ∧ quiet w w'
    ∧ tmp_dir w' = tmp_dir w.
Proof.
  intros [Hmin Hmax] Hstat.
  unfold generate_sfx, datetime_now. io_unfold.
  rewrite (Qltb_false _ _ Hmin), (Qltb_false _ _ Hmax).
  unfold _get_cached_result, cache_exists. io_unfold. cbn [stat_error log].
  rewrite Hstat. eexists. split; [reflexivity|].
  split; [repeat split; trace_solve|reflexivity].
Qed.

(** A call that returned a result got past its cache lookup. *)
Lemma returned_lookup E request use_cache w r w' :
  in_range request →
  generate_sfx E request use_cache w = (Return r, w') →
  lookup_returns E request use_cache w.
Proof.
  intros Hrange Hrun Hu.
  destruct (stat_error w (_generate_cache_key E request)) as [e|] eqn:Hstat;
    [exfalso|reflexivity].
  destruct (generate_sfx_lookup_raises E request w e Hrange Hstat) as (w0 & Hrun0 & _).
  rewrite Hu, Hrun0 in Hrun. discriminate.
Qed.

(** ** Arithmetic of the tile count and of the sample count *)

Lemma tiles_needed_positive request :
  in_range request → 1 ≤ tiles_needed_of request.
Proof.
  intros [Hmin _]. unfold tiles_needed_of, np_ceil.
  unfold min_duration, max_duration_per_request in *.
  pose proof (Qle_ceiling (duration request / 22)) as Hceil.
  assert (Hpos : (0 < duration request / 22)%Q).
  { apply Qlt_shift_div_l; lra. }
  assert (H : (inject_Z 0 < inject_Z (Qceiling (duration request / 22)))%Q).
  { change (inject_Z 0) with 0%Q. lra. }
  rewrite <- Zlt_Qlt in H. lia.
Qed.

Lemma tiles_needed_single request :
  in_range request → (duration request <= max_duration_per_request)%Q →
  tiles_needed_of request = 1.
Proof.
  intros Hrange Hle. pose proof (tiles_needed_positive request Hrange) as Hpos.
  unfold tiles_needed_of, np_ceil, max_duration_per_request in *.
  pose proof (Qceiling_lt (duration request / 22)) as Hceil.
  assert (Hone : (duration request / 22 <= 1)%Q).
  { apply Qle_shift_div_r; lra. }
  assert (H : (inject_Z (Qceiling (duration request / 22) - 1) < inject_Z 1)%Q).
  { change (inject_Z 1) with 1%Q. lra. }
  rewrite <- Zlt_Qlt in H. lia.
Qed.

Lemma tile_duration_within_ceiling request :
  in_range request →
  py_min (duration request / inject_Z (tiles_needed_of request)) max_duration_per_request
  = (duration request / inject_Z (tiles_needed_of request))%Q.
Proof.
  intros Hrange. pose proof (tiles_needed_positive request Hrange) as Hpos.
  unfold py_min. rewrite Qltb_false; [reflexivity|].
  unfold tiles_needed_of, np_ceil, max_duration_per_request in *.
  pose proof (Qle_ceiling (duration request / 22)) as Hceil.
  set (n := Qceiling (duration request / 22)) in *.
  assert (Hn : (0 < inject_Z n)%Q).
  { change 0%Q with (inject_Z 0). rewrite <- Zlt_Qlt. lia. }
  apply Qle_shift_div_r; [exact Hn|].
  assert (Hd : (duration request == duration request / 22 * 22)%Q) by (field).
  rewrite Hd at 1. rewrite (Qmult_comm 22).
  apply Qmult_le_compat_r; [exact Hceil|lra].
Qed.

Lemma py_int_floor x : (0 <= x)%Q → py_int x = Qfloor x.
Proof.
  destruct x as [n d]. unfold Qle, py_int, Qfloor. cbn. intros H.
  apply Z.quot_div_nonneg; lia.
Qed.

Lemma py_int_bounds x :
  (0 <= x)%Q → 0 ≤ py_int x ∧ (inject_Z (py_int x) <= x ∧ x < inject_Z (py_int x) + 1)%Q.
Proof.
  intros Hx. rewrite (py_int_floor x Hx).
  pose proof (Qfloor_le x) as Hlo. pose proof (Qlt_floor x) as Hhi.
  rewrite inject_Z_plus in Hhi. change (inject_Z 1) with 1%Q in Hhi.
  split; [|split; assumption].
  assert (H : (inject_Z (-1) < inject_Z (Qfloor x))%Q).
  { change (inject_Z (-1)) with (-1)%Q. lra. }
  rewrite <- Zlt_Qlt in H. lia.
Qed.

Lemma round_double_comp x y : (x == y)%Q → (round_double x == round_double y)%Q.
Proof.
  intros H. apply Qle_antisym; apply round_double_mono; rewrite H; apply Qle_refl.
Qed.

Lemma float_mul_nonneg x y : (0 <= x)%Q → (0 <= y)%Q → (0 <= float_mul x y)%Q.
Proof.
  intros Hx Hy. unfold float_mul.
  apply round_double_nonneg, Qmult_le_0_compat; apply round_double_nonneg; assumption.
Qed.

Lemma inject_Z_nonneg n : 0 ≤ n → (0 <= inject_Z n)%Q.
Proof. intros H. change 0%Q with (inject_Z 0). rewrite <- Zle_Qle. exact H. Qed.

(** The truncated float product of a float and an integer lies between the
    floor and the ceiling of the exact product of the two, as long as that
    product stays below [2 ^ 53], where the doubles include every integer. *)
Lemma float_mul_int_bounds (d : Q) (n N : Z) :
  (0 <= d)%Q → 0 ≤ n < 2 ^ 53 → N < 2 ^ 53 →
  (round_double d * inject_Z n <= inject_Z N)%Q →
  Qfloor (round_double d * inject_Z n) ≤ py_int (float_mul d (inject_Z n))
  ∧ py_int (float_mul d (inject_Z n)) ≤ Qceiling (round_double d * inject_Z n).
Proof.
  intros Hd Hn HN Hle.
  pose proof (inject_Z_nonneg n ltac:(lia)) as Hn0.
  pose proof (round_double_nonneg d Hd) as Hd0.
  rewrite (py_int_floor _ (float_mul_nonneg d (inject_Z n) Hd Hn0)).
  set (x := (round_double d * inject_Z n)%Q) in *.
  assert (Hx0 : (0 <= x)%Q) by (apply Qmult_le_0_compat; assumption).
  assert (Hmul : (float_mul d (inject_Z n) == round_double x)%Q).
  { unfold float_mul, x. apply round_double_comp.
    rewrite (round_double_int n) by lia. reflexivity. }
  rewrite Hmul.
  pose proof (Qfloor_le x) as Hfl. pose proof (Qle_ceiling x) as Hcl.
  assert (Hf0 : 0 ≤ Qfloor x).
  { rewrite <- (Qfloor_Z 0). apply Qfloor_resp_le. exact Hx0. }
  assert (HcN : Qceiling x ≤ N).
  { rewrite <- (Qceiling_Z N). apply Qceiling_resp_le. exact Hle. }
  assert (Hfc : Qfloor x ≤ Qceiling x).
  { rewrite Zle_Qle. apply Qle_trans with x; assumption. }
  split.
  - pose proof (round_double_mono _ _ Hfl) as H.
    rewrite round_double_int in H by lia.
    apply Qfloor_resp_le in H. rewrite Qfloor_Z in H. exact H.
  - pose proof (round_double_mono _ _ Hcl) as H.
    rewrite round_double_int in H by lia.
    apply Qfloor_resp_le in H. rewrite Qfloor_Z in H. exact H.
Qed.

Lemma target_samples_nonneg request :
  in_range request → 0 < sample_rate request → 0 ≤ target_samples_of request.
Proof.
  intros [Hmin _] Hsr. unfold target_samples_of, min_duration in *.
  assert (H : (0 <= float_mul (duration request) (inject_Z (sample_rate request)))%Q).
  { apply float_mul_nonneg; [lra|apply inject_Z_nonneg; lia]. }
  rewrite (py_int_floor _ H). rewrite <- (Qfloor_Z 0). apply Qfloor_resp_le. exact H.
Qed.

(** The target count is within one sample of the product of the duration
    (the float that it is) and the sample rate. *)
Lemma target_samples_bounds request :
  in_range request → 0 < sample_rate request < 2 ^ 44 →
  let x := (round_double (duration request) * inject_Z (sample_rate request))%Q in
  (x - 1 < inject_Z (target_samples_of request)
   ∧ inject_Z (target_samples_of request) < x + 1)%Q.
Proof.
  intros [Hmin Hmax] Hsr x. unfold min_duration, max_duration in *.
  pose proof (round_double_mono _ _ Hmax) as Hd.
  rewrite (round_double_int 300) in Hd by lia.
  pose proof (inject_Z_nonneg (sample_rate request) ltac:(lia)) as Hsr0.
  destruct (float_mul_int_bounds (duration request) (sample_rate request)
              (300 * sample_rate request)) as [Hlo Hhi]; [lra|lia|lia| |].
  { rewrite inject_Z_mult. apply Qmult_le_r; [|exact Hd].
    change 0%Q with (inject_Z 0). rewrite <- Zlt_Qlt. lia. }
  fold x in Hlo, Hhi. fold (target_samples_of request) in Hlo, Hhi.
  rewrite Zle_Qle in Hlo, Hhi.
  pose proof (Qlt_floor x) as Hf. pose proof (Qceiling_lt x) as Hc.
  rewrite inject_Z_plus in Hf. unfold Z.sub in Hc. rewrite inject_Z_plus in Hc.
  change (inject_Z 1) with 1%Q in Hf. change (inject_Z (Z.opp 1)) with (-1)%Q in Hc.
  split; lra.
Qed.

(** ** The duration enforcer *)

Lemma ensure_exact_duration_cases (final_audio : list Q) target_samples :
  0 ≤ target_samples →
  (target_samples < len final_audio →
     ensure_exact_duration final_audio target_samples
     = Return (take (Z.to_nat target_samples) final_audio))
  ∧ (len final_audio < target_samples →
     ensure_exact_duration final_audio target_samples
     = Return (final_audio
               ++ replicate (Z.to_nat (target_samples - len final_audio)) 0%Q))
  ∧ (len final_audio = target_samples →
     ensure_exact_duration final_audio target_samples = Return final_audio).
Proof.
  intros Ht. unfold ensure_exact_duration, np_zeros. repeat split; intros H.
  - destruct (Z.ltb_spec target_samples (len final_audio)); [|lia].
    rewrite py_slice_prefix by lia. reflexivity.
  - destruct (Z.ltb_spec target_samples (len final_audio)); [lia|].
    destruct (Z.ltb_spec (len final_audio) target_samples); [|lia].
    destruct (Z.ltb_spec (target_samples - len final_audio) 0); [lia|]. reflexivity.
  - destruct (Z.ltb_spec target_samples (len final_audio)); [lia|].
    destruct (Z.ltb_spec (len final_audio) target_samples); [lia|]. reflexivity.
Qed.

Lemma ensure_exact_duration_len (final_audio out : list Q) target_samples :
  0 ≤ target_samples →
  ensure_exact_duration final_audio target_samples = Return out →
  len out = target_samples.
Proof.
  intros Ht Hrun.
  destruct (ensure_exact_duration_cases final_audio target_samples Ht) as (Hcut & Hpad & Hsame).
  destruct (Z.lt_trichotomy target_samples (len final_audio)) as [Hlt|[Heq|Hgt]].
  - rewrite Hcut in Hrun by exact Hlt. injection Hrun as <-.
    unfold len in *. rewrite length_take. lia.
  - rewrite Hsame in Hrun by congruence. injection Hrun as <-. congruence.
  - rewrite Hpad in Hrun by exact Hgt. injection Hrun as <-.
    rewrite len_app. unfold len in *. rewrite length_replicate. lia.
Qed.

Lemma encode_frames E request final_audio now b :
  encode E request final_audio now = Return b →
  ∃ subtype data time_stamp,
    b = WavFile subtype (sample_rate request) data time_stamp
    ∧ frame_count data = len final_audio.
Proof.
  unfold encode, encode_samples, sound_file. intros H.
  destruct (bit_depth request =? 16); [|destruct (bit_depth request =? 24)];
    match type of H with context [sf_write_error ?E ?s ?r ?t] =>
      destruct (sf_write_error E s r t); [discriminate|] end;
    injection H as <-; eexists _, _, _; (split; [reflexivity|]);
    unfold stored_samples, frame_count, len; rewrite ?length_map; reflexivity.
Qed.

(** ** Validation *)

(** The message of a rejected duration depends on the request alone; the
    rejection touches nothing but the clock. *)
Lemma rejected_run (request : SFXGenerationRequest) :
  (duration request < 1 ∨ 300 < duration request)%Q →
  ∃ msg, ∀ E use_cache w, ∃ w',
    generate_sfx E request use_cache w = (Return (failure msg), w')
    ∧ trace w' = trace w ++ [EvNow]
    ∧ cache_dir w' = cache_dir w
    ∧ tmp_dir w' = tmp_dir w
    ∧ requests_served w' = requests_served w.
Proof.
  intros Hout. unfold generate_sfx, datetime_now, min_duration, max_duration.
  io_unfold.
  destruct (Qltb (duration request) 1) eqn:Hshort.
  - eexists. intros E use_cache w. eexists. split; [reflexivity|]. repeat split.
  - destruct Hout as [Hlt|Hgt].
    + rewrite (Qltb_true _ _ Hlt) in Hshort. discriminate.
    + rewrite (Qltb_true _ _ Hgt). eexists. intros E use_cache w. eexists.
      split; [reflexivity|]. repeat split.
Qed.

(** C3, as the code has it: a duration below 1.0 or above 300.0 seconds is
    answered with a failure result that carries a message, and nothing but
    the clock has been touched: no provider request, no cache file looked up,
    read or written, no temporary file.  (An empty prompt is not looked at.) *)
Theorem out_of_range_duration_rejected E (request : SFXGenerationRequest)
    (use_cache : bool) (w : World) :
  (duration request < 1 ∨ 300 < duration request)%Q →
  ∃ msg w',
    generate_sfx E request use_cache w = (Return (failure msg), w')
    ∧ Result.success (failure msg) = false
    ∧ Result.error_message (failure msg) = Some msg
    ∧ trace w' = trace w ++ [EvNow]
    ∧ cache_dir w' = cache_dir w
    ∧ tmp_dir w' = tmp_dir w
    ∧ requests_served w' = requests_served w.
Proof.
  intros Hout. destruct (rejected_run request Hout) as [msg Hmsg].
  destruct (Hmsg E use_cache w) as (w' & Hrun & Hrest).
  exists msg, w'. split; [exact Hrun|]. split; [reflexivity|]. split; [reflexivity|].
  exact Hrest.
Qed.

Lemma out_of_range_duration_rejected_witness :
  (∃ msg w', generate_sfx stub_externals (rain 0.9 false 48000) true
                          (stub_world tone_backend) = (Return (failure msg), w')
             ∧ trace w' = [EvNow])
  ∧ (∃ msg w', generate_sfx stub_externals (rain 300.1 false 48000) true
                            (stub_world tone_backend) = (Return (failure msg), w')
               ∧ trace w' = [EvNow]).
Proof.
  split.
  - destruct (out_of_range_duration_rejected stub_externals (rain 0.9 false 48000) true
                (stub_world tone_backend)) as (msg & w' & Hrun & _ & _ & Htrace & _).
    + left. vm_compute. reflexivity.
    + exists msg, w'. split; [exact Hrun|exact Htrace].
  - destruct (out_of_range_duration_rejected stub_externals (rain 300.1 false 48000) true
                (stub_world tone_backend)) as (msg & w' & Hrun & _ & _ & Htrace & _).
    + right. vm_compute. reflexivity.
    + exists msg, w'. split; [exact Hrun|exact Htrace].
Defined.

(** C3 as stated fails for the empty prompt: with a valid duration the
    engine sends the empty prompt to the provider and returns a success. *)
Lemma empty_prompt_not_rejected :
  let request :=
    {| prompt := ""; duration := 10; seed := Some 42; loopable := false;
       crossfade_duration := 0.5; output_format := "wav";
       sample_rate := 48000; bit_depth := 24 |} in
  let run := generate_sfx stub_externals request true (stub_world tone_backend) in
  succeeded run.1 = true
  ∧ posts (trace run.2)
    = [{| pl_text := ""; pl_duration := 10;
          pl_model_id := "eleven_multilingual_v2"; pl_seed := Some 42 |}]
  ∧ cache_writes (trace run.2) = ["sfx_.wav"; "sfx_.json"].
Proof. vm_compute. repeat split. Qed.

(** ** The cache *)

(** C1 fails on the code.  The scenario request of the specification is
    synthesized with [use_cache=True] against a provider that always
    succeeds, then asked for again in the world the first call left.  The
    first call succeeds and stores the audio under the request's key; the
    second call finds the file, fails to build the cached result, and sends
    the request to the provider a second time. *)
Theorem second_call_invokes_provider_again :
  let request := rain 10 false 48000 in
  let key := _generate_cache_key stub_externals request in
  let first := generate_sfx stub_externals request true (stub_world tone_backend) in
  let second := generate_sfx stub_externals request true first.2 in
  succeeded first.1 = true
  ∧ bool_decide (is_Some (cache_dir first.2 !! key)) = true
  ∧ posts (trace first.2) = [request_for_tile request 10 0]
  ∧ (_get_cached_result key first.2).1 = Return None
  ∧ succeeded second.1 = true
  ∧ posts (trace second.2)
    = [request_for_tile request 10 0; request_for_tile request 10 0].
Proof. vm_compute. repeat split. Qed.

(** ** The tile plan *)

Lemma length_range n : length (range n) = Z.to_nat n.
Proof. unfold range. rewrite length_map, length_seq. reflexivity. Qed.

Lemma py_truediv_tiles request :
  in_range request →
  py_truediv (duration request) (tiles_needed_of request)
  = Return (duration request / inject_Z (tiles_needed_of request))%Q.
Proof.
  intros Hrange. pose proof (tiles_needed_positive request Hrange).
  unfold py_truediv. destruct (Z.eqb_spec (tiles_needed_of request) 0); [lia|reflexivity].
Qed.

Lemma request_for_tile_plan request i :
  in_range request →
  request_for_tile request (duration request / inject_Z (tiles_needed_of request)) i
  = plan_payload request
      (i, (duration request / inject_Z (tiles_needed_of request))%Q,
       (λ s, s + i) <$> seed request).
Proof.
  intros Hrange. unfold request_for_tile, tile_payload, plan_payload, tile_seed_of.
  rewrite (tile_duration_within_ceiling request Hrange).
  destruct (seed request); reflexivity.
Qed.

Lemma plan_requests request :
  in_range request →
  map (request_for_tile request (duration request / inject_Z (tiles_needed_of request)))
      (range (tiles_needed_of request))
  = map (plan_payload request)
        (tile_plan (duration request) max_duration_per_request (seed request)).
Proof.
  intros Hrange. unfold tile_plan.
  change (Qceiling (duration request / max_duration_per_request))
    with (tiles_needed_of request).
  rewrite map_map. apply map_ext. intros i. apply request_for_tile_plan, Hrange.
Qed.

(** What a successful call has sent: the requests of all the tiles. *)
Lemma success_sends_every_tile E request answer k now b :
  in_range request →
  (replay_audio E request answer k now).1 = Return b →
  (replay_audio E request answer k now).2
  = map (request_for_tile request (duration request / inject_Z (tiles_needed_of request)))
        (range (tiles_needed_of request)).
Proof.
  intros Hrange. unfold replay_audio, replay_waveform.
  rewrite (py_truediv_tiles request Hrange).
  set (td := (duration request / inject_Z (tiles_needed_of request))%Q).
  destruct (replay_tiles_sent_prefix E request answer td (range (tiles_needed_of request))
              k []) as (m & Hm & Hsent & Hall).
  destruct (replay_tiles E request answer td k (range (tiles_needed_of request)) [])
    as [o sent]. cbn [fst snd] in *.
  destruct o as [tiles|e]; [|discriminate].
  intros _. destruct Hall as [-> _]. rewrite Hsent, firstn_all. reflexivity.
Qed.

(** C4: the requests that a successful call sends to the provider are those
    of the tile plan, in planner order: [ceil(duration / 22.0)] tiles of
    [duration / tileCount] seconds each, tile [i] seeded with
    [requestSeed + i] or unseeded; a duration of at most 22.0 makes one tile;
    50.0 seconds make three tiles of about 16.667 seconds. *)
Theorem tile_planning :
  (∀ E request use_cache w r w',
     in_range request →
     generate_sfx E request use_cache w = (Return r, w') →
     Result.success r = true →
     let plan := tile_plan (duration request) max_duration_per_request (seed request) in
     len plan = Qceiling (duration request / max_duration_per_request)
     ∧ posts (trace w') = posts (trace w) ++ map (plan_payload request) plan
     ∧ Result.tiles_generated r = len plan
     ∧ ((duration request <= max_duration_per_request)%Q → len plan = 1))
  ∧ tile_plan 50 max_duration_per_request (Some 42)
    = [(0, (50 # 3)%Q, Some 42); (1, (50 # 3)%Q, Some 43); (2, (50 # 3)%Q, Some 44)]
  ∧ tile_plan 50 max_duration_per_request None
    = [(0, (50 # 3)%Q, None); (1, (50 # 3)%Q, None); (2, (50 # 3)%Q, None)]
  ∧ (Qabs ((50 # 3) - 16.667) < 0.001)%Q.
Proof.
  split; [|vm_compute; repeat split].
  intros E request use_cache w r w' Hrange Hrun Hsuccess plan.
  pose proof (tiles_needed_positive request Hrange) as Hpos.
  assert (Hlen : len plan = tiles_needed_of request).
  { unfold plan, tile_plan, len. rewrite length_map, length_range.
    change (Qceiling (duration request / max_duration_per_request))
      with (tiles_needed_of request). lia. }
  pose proof (returned_lookup E request use_cache w r w' Hrange Hrun) as Hlookup.
  destruct (generate_sfx_run E request use_cache w Hrange Hlookup)
    as (r0 & w0 & Hrun0 & Hposts & Hres).
  rewrite Hrun in Hrun0. injection Hrun0 as <- <-.
  destruct ((replay_audio E request (backend w) (requests_served w) _).1)
    as [b|e] eqn:Hreplay.
  - rewrite (success_sends_every_tile E request _ _ _ b Hrange Hreplay) in Hposts.
    rewrite (plan_requests request Hrange) in Hposts.
    destruct Hres as (_ & _ & Htiles & _).
    split; [exact Hlen|]. split; [exact Hposts|]. split; [congruence|].
    intros Hshort. rewrite Hlen. apply tiles_needed_single; assumption.
  - destruct Hres as (-> & _). discriminate.
Qed.

Lemma tile_planning_witness :
  ∃ r w',
    generate_sfx stub_externals (rain 30 false 8) true (stub_world tone_backend)
    = (Return r, w')
    ∧ posts (trace w')
      = [ {| pl_text := "rain on leaves"; pl_duration := 30 # 2;
             pl_model_id := "eleven_multilingual_v2"; pl_seed := Some 42 |};
          {| pl_text := "rain on leaves"; pl_duration := 30 # 2;
             pl_model_id := "eleven_multilingual_v2"; pl_seed := Some 43 |} ]
    ∧ Result.tiles_generated r = 2.
Proof.
  eassert (Hrun : generate_sfx stub_externals (rain 30 false 8) true
                               (stub_world tone_backend) = (Return _, _))
    by (vm_compute; reflexivity).
  assert (Hrange : in_range (rain 30 false 8)) by (split; vm_compute; discriminate).
  eexists _, _. split; [exact Hrun|].
  destruct (proj1 tile_planning stub_externals (rain 30 false 8) true
              (stub_world tone_backend) _ _ Hrange Hrun eq_refl)
    as (_ & Hposts & Htiles & _).
  split; [exact Hposts|exact Htiles].
Defined.

(** ** Failure of a tile *)

Lemma range_lookup n (i : nat) :
  (i < Z.to_nat n)%nat → range n !! i = Some (Z.of_nat i).
Proof.
  unfold range. generalize (Z.to_nat n) as k. intros k.
  assert (H : ∀ a, (i < k)%nat →
                   map Z.of_nat (seq a k) !! i = Some (Z.of_nat (a + i))).
  { revert i. induction k as [|k IH]; intros i a Hi; [lia|].
    destruct i as [|i]; cbn.
    - rewrite Nat.add_0_r. reflexivity.
    - rewrite IH by lia. do 2 f_equal. lia. }
  intros Hi. apply (H 0%nat Hi).
Qed.

Lemma range_lookup_inv n (i : nat) x : range n !! i = Some x → x = Z.of_nat i.
Proof.
  intros H. assert (Hi : (i < Z.to_nat n)%nat).
  { apply lookup_lt_Some in H. rewrite length_range in H. exact H. }
  rewrite (range_lookup n i Hi) in H. congruence.
Qed.

Lemma take_range n (m : nat) :
  (m ≤ Z.to_nat n)%nat → take m (range n) = range (Z.of_nat m).
Proof.
  intros Hm. unfold range. rewrite firstn_map, take_seq.
  rewrite Nat2Z.id. do 2 f_equal. lia.
Qed.

(** Whatever the request and the world, [generate_sfx] returns a result
    when its cache lookup does not fail. *)
Lemma generate_sfx_returns E (request : SFXGenerationRequest) (use_cache : bool)
    (w : World) :
  lookup_returns E request use_cache w →
  ∃ r w', generate_sfx E request use_cache w = (Return r, w').
Proof.
  intros Hlookup.
  destruct (Qlt_le_dec (duration request) 1) as [Hshort|Hmin].
  { destruct (rejected_run request (or_introl Hshort)) as [msg Hmsg].
    destruct (Hmsg E use_cache w) as (w' & Hrun & _). eauto. }
  destruct (Qlt_le_dec 300 (duration request)) as [Hlong|Hmax].
  { destruct (rejected_run request (or_intror Hlong)) as [msg Hmsg].
    destruct (Hmsg E use_cache w) as (w' & Hrun & _). eauto. }
  destruct (generate_sfx_run E request use_cache w (conj Hmin Hmax) Hlookup)
    as (r & w' & Hrun & _). eauto.
Qed.

(** The only exception that leaves [generate_sfx] is the error of the cache
    lookup, raised before anything is asked of the provider. *)
Lemma generate_sfx_outcome E (request : SFXGenerationRequest) (use_cache : bool)
    (w : World) :
  (∃ r w', generate_sfx E request use_cache w = (Return r, w'))
  ∨ (∃ e w',
       use_cache = true
       ∧ stat_error w (_generate_cache_key E request) = Some e
       ∧ generate_sfx E request use_cache w = (Raise e, w')
       ∧ posts (trace w') = posts (trace w)
       ∧ cache_dir w' = cache_dir w
       ∧ cache_writes (trace w') = cache_writes (trace w)).
Proof.
  destruct use_cache; [|left; apply generate_sfx_returns; discriminate].
  destruct (stat_error w (_generate_cache_key E request)) as [e|] eqn:Hstat;
    [|left; apply generate_sfx_returns; intros _; exact Hstat].
  destruct (Qlt_le_dec (duration request) 1) as [Hshort|Hmin].
  { left. destruct (rejected_run request (or_introl Hshort)) as [msg Hmsg].
    destruct (Hmsg E true w) as (w' & Hrun & _). eauto. }
  destruct (Qlt_le_dec 300 (duration request)) as [Hlong|Hmax].
  { left. destruct (rejected_run request (or_intror Hlong)) as [msg Hmsg].
    destruct (Hmsg E true w) as (w' & Hrun & _). eauto. }
  right. destruct (generate_sfx_lookup_raises E request w e (conj Hmin Hmax) Hstat)
    as (w' & Hrun & (Hc & _ & _ & Hp & Hw) & _).
  exists e, w'. repeat split; assumption.
Qed.

Lemma tile_failure_run E (request : SFXGenerationRequest) (use_cache : bool)
    (w : World) (i : nat) (e : exn) :
  let tile_duration := (duration request / inject_Z (tiles_needed_of request))%Q in
  let answer := λ j : nat,
    backend w (requests_served w + j)%nat
            (request_for_tile request tile_duration (Z.of_nat j)) in
  in_range request →
  lookup_returns E request use_cache w →
  (i < Z.to_nat (tiles_needed_of request))%nat →
  (∀ j, (j < i)%nat → ∃ audio, tile_of_response E request (answer j) = Return audio) →
  tile_of_response E request (answer i) = Raise e →
  ∃ w',
    generate_sfx E request use_cache w = (Return (failure (str e)), w')
    ∧ posts (trace w')
      = posts (trace w)
        ++ map (request_for_tile request tile_duration) (range (Z.of_nat i + 1))
    ∧ cache_dir w' = cache_dir w
    ∧ cache_writes (trace w') = cache_writes (trace w).
Proof.
  intros td answer Hrange Hlookup Hi Hbefore Hfail.
  destruct (generate_sfx_run E request use_cache w Hrange Hlookup)
    as (r & w' & Hrun & Hposts & Hres).
  assert (Hreplay : ∀ now, replay_audio E request (backend w) (requests_served w) now
                    = (Raise e, map (request_for_tile request td)
                                    (range (Z.of_nat i + 1)))).
  { intros now. unfold replay_audio, replay_waveform.
    rewrite (py_truediv_tiles request Hrange).
    fold td.
    rewrite (replay_tiles_first_failure E request (backend w) td i e
               (range (tiles_needed_of request)) (requests_served w) [] (Z.of_nat i)).
    - rewrite take_range by lia. cbn [mbind outcome_bind].
      do 3 f_equal. lia.
    - apply range_lookup, Hi.
    - intros j ij Hj Hij. apply range_lookup_inv in Hij as ->. apply Hbefore, Hj.
    - exact Hfail. }
  rewrite Hreplay in Hposts, Hres. cbn [fst snd] in *.
  destruct Hres as (-> & Hcache & Hwrites).
  exists w'. repeat split; assumption.
Qed.

(** A cache file name that the file system refuses: the call raises the
    [OSError] of [exists()], and nothing has been asked of the provider. *)
Remark long_cache_name_raises :
  let request :=
    {| prompt := "rain on leaves"; duration := 10; seed := Some 42; loopable := false;
       crossfade_duration := 0.5; output_format := long_format;
       sample_rate := 8; bit_depth := 24 |} in
  let run := generate_sfx stub_externals request true (stub_world tone_backend) in
  match run.1 with
  | Raise (OSError _) => True
  | _ => False
  end
  ∧ posts (trace run.2) = [].
Proof. vm_compute. repeat split. Qed.

(** C6: when the cache lookup does not fail, the tiles before tile [i] are
    delivered and decoded and tile [i] fails, at the provider or in
    decoding, with exception [e], the call returns the failure result
    ([success=False]) that carries [str(e)] as its error message; the
    provider has been asked for tiles 0 to [i] and for no later tile, and
    the cache is as it was, with no write attempted.  The one exception
    that can leave [generate_sfx] is a cache error: that of the lookup,
    raised before any request to the provider, with the cache untouched. *)
Theorem tile_failure_aborts E (request : SFXGenerationRequest) (use_cache : bool)
    (w : World) (i : nat) (e : exn) :
  let tile_duration := (duration request / inject_Z (tiles_needed_of request))%Q in
  let answer := λ j : nat,
    backend w (requests_served w + j)%nat
            (request_for_tile request tile_duration (Z.of_nat j)) in
  in_range request →
  lookup_returns E request use_cache w →
  (i < Z.to_nat (tiles_needed_of request))%nat →
  (∀ j, (j < i)%nat → ∃ audio, tile_of_response E request (answer j) = Return audio) →
  tile_of_response E request (answer i) = Raise e →
  (∃ w',
     generate_sfx E request use_cache w = (Return (failure (str e)), w')
     ∧ Result.success (failure (str e)) = false
     ∧ Result.error_message (failure (str e)) = Some (str e)
     ∧ posts (trace w')
       = posts (trace w)
         ++ map (request_for_tile request tile_duration) (range (Z.of_nat i + 1))
     ∧ cache_dir w' = cache_dir w
     ∧ cache_writes (trace w') = cache_writes (trace w))
  ∧ (∀ E0 request0 use_cache0 w0,
       (∃ r w', generate_sfx E0 request0 use_cache0 w0 = (Return r, w'))
       ∨ (∃ e0 w',
            use_cache0 = true
            ∧ stat_error w0 (_generate_cache_key E0 request0) = Some e0
            ∧ generate_sfx E0 request0 use_cache0 w0 = (Raise e0, w')
            ∧ posts (trace w') = posts (trace w0)
            ∧ cache_dir w' = cache_dir w0
            ∧ cache_writes (trace w') = cache_writes (trace w0))).
Proof.
  intros td answer Hrange Hlookup Hi Hbefore Hfail. split.
  - destruct (tile_failure_run E request use_cache w i e Hrange Hlookup Hi Hbefore Hfail)
      as (w' & Hrun & Hrest).
    exists w'. split; [exact Hrun|]. split; [reflexivity|]. split; [reflexivity|].
    exact Hrest.
  - intros E0 request0 use_cache0 w0. apply generate_sfx_outcome.
Qed.

Lemma tile_failure_aborts_witness :
  ∃ w',
    generate_sfx stub_externals (rain 50 false 8) true (stub_world flaky_backend)
    = (Return (failure "ElevenLabs API error 500: Internal Server Error"), w')
    ∧ posts (trace w')
      = [ {| pl_text := "rain on leaves"; pl_duration := 50 # 3;
             pl_model_id := "eleven_multilingual_v2"; pl_seed := Some 42 |};
          {| pl_text := "rain on leaves"; pl_duration := 50 # 3;
             pl_model_id := "eleven_multilingual_v2"; pl_seed := Some 43 |} ]
    ∧ cache_dir w' = ∅.
Proof.
  destruct (tile_failure_aborts stub_externals (rain 50 false 8) true
              (stub_world flaky_backend) 1
              (Exception "ElevenLabs API error 500: Internal Server Error"))
    as ((w' & Hrun & _ & _ & Hposts & Hcache & _) & _).
  - split; vm_compute; discriminate.
  - intros _. vm_compute. reflexivity.
  - vm_compute. lia.
  - intros j Hj. assert (j = 0%nat) as -> by lia. eexists. vm_compute. reflexivity.
  - vm_compute. reflexivity.
  - exists w'. split; [exact Hrun|]. split; [exact Hposts|exact Hcache].
Defined.

(** ** Determinism *)






(** ** Exact duration *)

Lemma replay_waveform_enforced E request answer k final_audio :
  (replay_waveform E request answer k).1 = Return final_audio →
  ∃ stitched,
    ensure_exact_duration stitched (target_samples_of request) = Return final_audio.
Proof.
  unfold replay_waveform.
  destruct (py_truediv (duration request) (tiles_needed_of request)) as [td|e];
    [|discriminate].
  destruct (replay_tiles E request answer td k (range (tiles_needed_of request)) [])
    as [o sent]. cbn [fst].
  destruct o as [tiles|e]; [|discriminate]. cbn [mbind outcome_bind].
  destruct (stitch_stage request tiles) as [stitched|e]; [|discriminate].
  cbn [mbind outcome_bind]. intros H. exists stitched. exact H.
Qed.

Lemma replay_audio_frames E request answer k now b :
  in_range request → 0 < sample_rate request →
  (replay_audio E request answer k now).1 = Return b →
  ∃ subtype data time_stamp,
    b = WavFile subtype (sample_rate request) data time_stamp
    ∧ frame_count data = target_samples_of request.
Proof.
  intros Hrange Hsr. unfold replay_audio.
  destruct (replay_waveform E request answer k) as [o sent] eqn:Hwave. cbn [fst].
  destruct o as [final_audio|e]; [|discriminate]. cbn [mbind outcome_bind].
  intros Hencode.
  destruct (encode_frames E request final_audio now b Hencode)
    as (subtype & data & time_stamp & -> & Hcount).
  destruct (replay_waveform_enforced E request answer k final_audio) as [stitched Henforce].
  { rewrite Hwave. reflexivity. }
  exists subtype, data, time_stamp. split; [reflexivity|]. rewrite Hcount.
  apply (ensure_exact_duration_len stitched); [|exact Henforce].
  apply target_samples_nonneg; assumption.
Qed.

Lemma within_one_sample (d : Q) (rate samples : Z) :
  0 < rate →
  (d * inject_Z rate - 1 < inject_Z samples)%Q →
  (inject_Z samples < d * inject_Z rate + 1)%Q →
  (d - 1 / inject_Z rate < inject_Z samples / inject_Z rate
   ∧ inject_Z samples / inject_Z rate < d + 1 / inject_Z rate)%Q.
Proof.
  intros Hrate Hlo Hhi.
  assert (Hs : (0 < inject_Z rate)%Q).
  { change 0%Q with (inject_Z 0). rewrite <- Zlt_Qlt. exact Hrate. }
  assert (Hnz : ¬ (inject_Z rate == 0)%Q).
  { intros Hz. rewrite Hz in Hs. exact (Qlt_irrefl 0 Hs). }
  split.
  - apply Qlt_shift_div_l; [exact Hs|].
    assert (Heq : ((d - 1 / inject_Z rate) * inject_Z rate == d * inject_Z rate - 1)%Q)
      by (field; exact Hnz).
    rewrite Heq. exact Hlo.
  - apply Qlt_shift_div_r; [exact Hs|].
    assert (Heq : ((d + 1 / inject_Z rate) * inject_Z rate == d * inject_Z rate + 1)%Q)
      by (field; exact Hnz).
    rewrite Heq. exact Hhi.
Qed.

(** C5, as the code has it: the audio of a successful call has exactly
    [int(duration * sample_rate)] frames, the float product truncated, not
    rounded.  For a sample rate below [2 ^ 44] the frame count over the
    sample rate is the requested duration (the float that it is) within one
    sample.  The enforcer cuts a longer buffer to that count and pads a
    shorter one with zero samples on the right. *)
Theorem exact_duration E (request : SFXGenerationRequest) (use_cache : bool)
    (w w' : World) (r : SFXGenerationResult) :
  in_range request → 0 < sample_rate request < 2 ^ 44 →
  generate_sfx E request use_cache w = (Return r, w') →
  Result.success r = true →
  let target_samples :=
    py_int (float_mul (duration request) (inject_Z (sample_rate request))) in
  let d := round_double (duration request) in
  (∃ subtype data time_stamp,
     Result.audio_data r
     = Some (WavFile subtype (sample_rate request) data time_stamp)
     ∧ frame_count data = target_samples
     ∧ (d - 1 / inject_Z (sample_rate request)
          < inject_Z (frame_count data) / inject_Z (sample_rate request)
        ∧ inject_Z (frame_count data) / inject_Z (sample_rate request)
          < d + 1 / inject_Z (sample_rate request))%Q)
  ∧ (∀ buffer : list Q, target_samples < len buffer →
       ensure_exact_duration buffer target_samples
       = Return (take (Z.to_nat target_samples) buffer))
  ∧ (∀ buffer : list Q, len buffer < target_samples →
       ensure_exact_duration buffer target_samples
       = Return (buffer ++ replicate (Z.to_nat (target_samples - len buffer)) 0%Q)).
Proof.
  intros Hrange Hsr Hrun Hsuccess target_samples d.
  fold (target_samples_of request) in target_samples.
  pose proof (target_samples_nonneg request Hrange ltac:(lia)) as Hnonneg.
  destruct (target_samples_bounds request Hrange Hsr) as (Hlo & Hhi).
  fold target_samples in Hnonneg.
  split; [|split; intros buffer Hlen;
           apply (ensure_exact_duration_cases buffer target_samples Hnonneg); exact Hlen].
  pose proof (returned_lookup E request use_cache w r w' Hrange Hrun) as Hlookup.
  destruct (generate_sfx_run E request use_cache w Hrange Hlookup)
    as (r0 & w0 & Hrun0 & _ & Hres).
  rewrite Hrun in Hrun0. injection Hrun0 as <- <-.
  destruct ((replay_audio E request (backend w) (requests_served w) _).1)
    as [b|e] eqn:Hreplay.
  - destruct Hres as (_ & Haudio & _).
    destruct (replay_audio_frames E request _ _ _ b Hrange ltac:(lia) Hreplay)
      as (subtype & data & time_stamp & -> & Hcount).
    exists subtype, data, time_stamp. split; [exact Haudio|]. split; [exact Hcount|].
    rewrite Hcount. apply within_one_sample; [lia|exact Hlo|exact Hhi].
  - destruct Hres as (-> & _). discriminate.
Qed.

Lemma exact_duration_witness :
  ∃ r w',
    generate_sfx stub_externals (rain 30 false 8) true (stub_world tone_backend)
    = (Return r, w')
    ∧ ∃ subtype data time_stamp,
        Result.audio_data r = Some (WavFile subtype 8 data time_stamp)
        ∧ frame_count data = 240.
Proof.
  eassert (Hrun : generate_sfx stub_externals (rain 30 false 8) true
                               (stub_world tone_backend) = (Return _, _))
    by (vm_compute; reflexivity).
  assert (Hrange : in_range (rain 30 false 8)) by (split; vm_compute; discriminate).
  assert (Hrate : 0 < sample_rate (rain 30 false 8) < 2 ^ 44) by (vm_compute; split; reflexivity).
  eexists _, _. split; [exact Hrun|].
  destruct (exact_duration stub_externals (rain 30 false 8) true
              (stub_world tone_backend) _ _ Hrange Hrate Hrun eq_refl)
    as ((subtype & data & time_stamp & Haudio & Hcount & _) & _).
  exists subtype, data, time_stamp. split; [exact Haudio|exact Hcount].
Defined.

(** C5 as stated fails when [duration * sample_rate] has a fractional part
    of one half or more: 1.00002 s at 48 kHz is 48000.96 samples, which
    rounds to 48001; the result has 48000. *)
Lemma exact_duration_round_counterexample :
  let request := rain 1.00002 false 48000 in
  let run := generate_sfx stub_externals request true (stub_world tone_backend) in
  succeeded run.1 = true
  ∧ result_frames run.1 = Some 48000
  ∧ py_round (duration request * inject_Z (sample_rate request)) = 48001.
Proof. vm_compute. repeat split. Qed.

(** * Further properties of the code

    ** The crossfade of two long enough segments *)

Lemma linspace_negative start stop num :
  num < 0 →
  linspace start stop num
  = Raise (ValueError ("Number of samples, " +:+ pretty num +:+ ", must be non-negative.")).
Proof. intros H. unfold linspace. destruct (Z.ltb_spec num 0); [reflexivity|lia]. Qed.

Lemma crossfade_blend_run (audio1 audio2 : list Q) cd sr :
  let cs := crossfade_samples_of cd sr in
  0 < cs → cs ≤ len audio1 → cs ≤ len audio2 →
  ∃ fade_out fade_in,
    linspace 1 0 cs = Return fade_out
    ∧ linspace 0 1 cs = Return fade_in
    ∧ length fade_out = Z.to_nat cs
    ∧ length fade_in = Z.to_nat cs
    ∧ _create_crossfade audio1 audio2 cd sr
      = Return (take (Z.to_nat (len audio1 - cs)) audio1
                ++ zip_with Qplus
                     (zip_with Qmult (drop (Z.to_nat (len audio1 - cs)) audio1) fade_out)
                     (zip_with Qmult (take (Z.to_nat cs) audio2) fade_in)
                ++ drop (Z.to_nat cs) audio2).
Proof.
  intros cs Hcs H1 H2.
  destruct (linspace_length 1 0 cs) as (fade_out & Hout & Lout); [lia|].
  destruct (linspace_length 0 1 cs) as (fade_in & Hin & Lin); [lia|].
  exists fade_out, fade_in. repeat (split; [assumption|]).
  assert (Ltail : length (drop (Z.to_nat (len audio1 - cs)) audio1) = Z.to_nat cs)
    by (rewrite length_drop; unfold len in *; lia).
  assert (Lhead : length (take (Z.to_nat cs) audio2) = Z.to_nat cs)
    by (rewrite length_take; unfold len in *; lia).
  unfold _create_crossfade. fold cs.
  destruct (Z.ltb_spec (len audio1) cs); [lia|].
  destruct (Z.ltb_spec (len audio2) cs); [lia|].
  cbn [orb]. rewrite Hout, Hin. cbn [mbind outcome_bind].
  rewrite py_slice_suffix, py_slice_init, py_slice_prefix, py_slice_from by lia.
  unfold np_mul, np_add.
  rewrite (broadcast_same_length Qmult) by congruence. cbn [mbind outcome_bind].
  rewrite (broadcast_same_length Qmult) by congruence. cbn [mbind outcome_bind].
  rewrite (broadcast_same_length Qplus)
    by (rewrite !length_zip_with_same by congruence; congruence).
  reflexivity.
Qed.

(** X1.  When both segments have at least [crossfade_samples] (one or more)
    samples, the output is the first segment without its last
    [crossfade_samples], the blend of that tail under the fade-out ramp with
    the head of the second segment under the fade-in ramp, and the rest of
    the second segment; it is [crossfade_samples] shorter than the two
    together. *)
Theorem crossfade_overlaps_segments (audio1 audio2 : list Q) cd sr :
  let cs := crossfade_samples_of cd sr in
  0 < cs → cs ≤ len audio1 → cs ≤ len audio2 →
  ∃ fade_out fade_in out,
    linspace 1 0 cs = Return fade_out
    ∧ linspace 0 1 cs = Return fade_in
    ∧ _create_crossfade audio1 audio2 cd sr = Return out
    ∧ out = take (Z.to_nat (len audio1 - cs)) audio1
            ++ zip_with Qplus
                 (zip_with Qmult (drop (Z.to_nat (len audio1 - cs)) audio1) fade_out)
                 (zip_with Qmult (take (Z.to_nat cs) audio2) fade_in)
            ++ drop (Z.to_nat cs) audio2
    ∧ len out = len audio1 + len audio2 - cs.
Proof.
  intros cs Hcs H1 H2.
  destruct (crossfade_blend_run audio1 audio2 cd sr Hcs H1 H2)
    as (fade_out & fade_in & Hout & Hin & Lout & Lin & Hrun).
  exists fade_out, fade_in. eexists. repeat (split; [eassumption || reflexivity|]).
  rewrite !len_app. unfold len in *.
  rewrite !length_zip_with_same, length_take, !length_drop;
    repeat first [ rewrite length_zip_with_same | rewrite length_take
                 | rewrite length_drop | lia ].
Qed.

Lemma crossfade_overlaps_segments_witness :
  ∃ out, _create_crossfade [1; 1; 1; 1]%Q [0; 0; 0; 0]%Q 0.5 4 = Return out
         ∧ len out = 6.
Proof.
  destruct (crossfade_overlaps_segments [1; 1; 1; 1]%Q [0; 0; 0; 0]%Q 0.5 4)
    as (fade_out & fade_in & out & _ & _ & Hrun & _ & Hlen).
  - vm_compute. reflexivity.
  - vm_compute. discriminate.
  - vm_compute. discriminate.
  - exists out. split; [exact Hrun|exact Hlen].
Defined.

Lemma crossfade_short_run (audio1 audio2 : list Q) cd sr :
  len audio1 < crossfade_samples_of cd sr ∨ len audio2 < crossfade_samples_of cd sr →
  _create_crossfade audio1 audio2 cd sr = Return (audio1 ++ audio2).
Proof.
  intros H. unfold _create_crossfade.
  destruct (Z.ltb_spec (len audio1) (crossfade_samples_of cd sr)); [reflexivity|].
  destruct (Z.ltb_spec (len audio2) (crossfade_samples_of cd sr)); [reflexivity|lia].
Qed.

Lemma crossfade_returns_run (audio1 audio2 : list Q) cd sr :
  0 < crossfade_samples_of cd sr →
  ∃ out, _create_crossfade audio1 audio2 cd sr = Return out
         ∧ len audio2 ≤ len out
         ∧ (len out = len audio1 + len audio2
            ∨ len out = len audio1 + len audio2 - crossfade_samples_of cd sr).
Proof.
  intros Hcs.
  destruct (Z.lt_ge_cases (len audio1) (crossfade_samples_of cd sr)) as [H1|H1];
    [|destruct (Z.lt_ge_cases (len audio2) (crossfade_samples_of cd sr)) as [H2|H2]].
  - exists (audio1 ++ audio2). split.
    + apply crossfade_short_run. left. exact H1.
    + rewrite len_app. pose proof (len_nonneg audio1). lia.
  - exists (audio1 ++ audio2). split.
    + apply crossfade_short_run. right. exact H2.
    + rewrite len_app. pose proof (len_nonneg audio1). lia.
  - destruct (crossfade_blend_run audio1 audio2 cd sr Hcs H1 H2)
      as (fade_out & fade_in & Hout & Hin & Lout & Lin & Hrun).
    eexists. split; [exact Hrun|].
    rewrite !len_app. unfold len in *.
    rewrite length_zip_with_same, length_zip_with_same, length_take, !length_drop;
      repeat first [ rewrite length_zip_with_same | rewrite length_take
                   | rewrite length_drop | lia ].
Qed.

(** X2.  With a crossfade of one sample or more, [_create_crossfade] returns
    for every pair of segments: it never raises, the output is never shorter
    than the second segment, and it is as long as the two segments together
    or [crossfade_samples] shorter. *)
Theorem crossfade_returns (audio1 audio2 : list Q) cd sr :
  0 < crossfade_samples_of cd sr →
  ∃ out, _create_crossfade audio1 audio2 cd sr = Return out
         ∧ len audio2 ≤ len out
         ∧ (len out = len audio1 + len audio2
            ∨ len out = len audio1 + len audio2 - crossfade_samples_of cd sr).
Proof. apply crossfade_returns_run. Qed.

Lemma crossfade_returns_witness :
  ∃ out, _create_crossfade [1; 1]%Q [0; 0; 0]%Q 0.5 48000 = Return out
         ∧ len [0; 0; 0]%Q ≤ len out.
Proof.
  destruct (crossfade_returns [1; 1]%Q [0; 0; 0]%Q 0.5 48000) as (out & Hrun & Hlen & _).
  - vm_compute. reflexivity.
  - exists out. split; [exact Hrun|exact Hlen].
Defined.

(** X3.  A negative sample count (a negative crossfade duration or sample
    rate) makes both the crossfade and the loop wrapper raise the
    [ValueError] of [np.linspace], which names the count, whatever the
    audio: no segment is shorter than a negative count, and [np.linspace]
    refuses it. *)
Theorem negative_crossfade_raises (audio1 audio2 : list Q) cd sr :
  let refusal :=
    ValueError ("Number of samples, " +:+ pretty (crossfade_samples_of cd sr)
                +:+ ", must be non-negative.") in
  crossfade_samples_of cd sr < 0 →
  _create_crossfade audio1 audio2 cd sr = Raise refusal
  ∧ _make_loopable audio1 cd sr = Raise refusal.
Proof.
  intros refusal Hcs. pose proof (len_nonneg audio1). pose proof (len_nonneg audio2).
  unfold _create_crossfade, _make_loopable.
  destruct (Z.ltb_spec (len audio1) (crossfade_samples_of cd sr)); [lia|].
  destruct (Z.ltb_spec (len audio2) (crossfade_samples_of cd sr)); [lia|].
  destruct (Z.ltb_spec (len audio1) (crossfade_samples_of cd sr * 2)); [lia|].
  cbn [orb]. rewrite !linspace_negative by assumption. split; reflexivity.
Qed.

Lemma negative_crossfade_raises_witness :
  _create_crossfade [1; 1]%Q [0; 0]%Q (-0.5) 48000
  = Raise (ValueError "Number of samples, -24000, must be non-negative.").
Proof.
  destruct (negative_crossfade_raises [1; 1]%Q [0; 0]%Q (-0.5) 48000) as [H _].
  - vm_compute. reflexivity.
  - rewrite H. vm_compute. reflexivity.
Defined.

(** X4.  With a crossfade of less than one sample ([crossfade_samples] is
    0, as for [crossfade_duration=0.0]), the slice [audio1[-0:]] is the
    whole first segment: a first segment of two samples or more makes the
    multiplication by the empty ramp raise numpy's broadcasting error for
    the shapes of the segment and of the ramp, and a shorter one is dropped
    from the output. *)
Theorem zero_crossfade_degenerates (audio1 audio2 : list Q) cd sr :
  crossfade_samples_of cd sr = 0 →
  (2 ≤ len audio1 →
     _create_crossfade audio1 audio2 cd sr
     = Raise (ValueError ("operands could not be broadcast together with shapes ("
                          +:+ pretty (length audio1) +:+ ",) (0,) ")))
  ∧ (len audio1 ≤ 1 → _create_crossfade audio1 audio2 cd sr = Return audio2).
Proof.
  intros Hcs. pose proof (len_nonneg audio2).
  unfold _create_crossfade. rewrite Hcs.
  destruct (Z.ltb_spec (len audio1) 0);
    [exfalso; pose proof (len_nonneg audio1); lia|].
  destruct (Z.ltb_spec (len audio2) 0); [exfalso; lia|]. cbn [orb].
  change (linspace 1 0 0) with (Return ([] : list Q)).
  change (linspace 0 1 0) with (Return ([] : list Q)).
  cbn [mbind outcome_bind]. change (- 0) with 0.
  rewrite (py_slice_prefix audio2 0) by lia.
  rewrite (py_slice_from audio2 0) by lia.
  unfold py_slice at 1 2. cbn [slice_bound]. change (0 <? 0) with false.
  cbv beta iota. rewrite !Z.min_l by lia. rewrite !Z.sub_0_r.
  change (Z.to_nat 0) with 0%nat. rewrite !drop_0, !take_0.
  split; intros Hlen.
  - destruct audio1 as [|x [|y audio1]]; [unfold len in Hlen; cbn in Hlen; lia..|].
    unfold len. rewrite Nat2Z.id, firstn_all. reflexivity.
  - destruct audio1 as [|x [|y audio1]]; [reflexivity..|].
    unfold len in Hlen. cbn in Hlen. lia.
Qed.

Lemma zero_crossfade_degenerates_witness :
  _create_crossfade [1; 1]%Q [0; 0]%Q 0 48000
  = Raise (ValueError "operands could not be broadcast together with shapes (2,) (0,) ")
  ∧ _create_crossfade [1]%Q [0; 0]%Q 0 48000 = Return [0; 0]%Q.
Proof.
  destruct (zero_crossfade_degenerates [1; 1]%Q [0; 0]%Q 0 48000 eq_refl) as [H _].
  destruct (zero_crossfade_degenerates [1]%Q [0; 0]%Q 0 48000 eq_refl) as [_ H'].
  split; [|apply H'; vm_compute; discriminate].
  rewrite H by (vm_compute; discriminate). vm_compute. reflexivity.
Defined.

(** ** The linear ramps *)

Lemma lookup_map {A B} (f : A → B) (l : list A) (i : nat) :
  map f l !! i = f <$> l !! i.
Proof.
  revert i. induction l as [|x l IH]; intros [|i]; cbn; try reflexivity. apply IH.
Qed.

Lemma linspace_lookup start stop num ramp (i : nat) :
  1 < num → Z.of_nat i < num →
  linspace start stop num = Return ramp →
  ∃ x, ramp !! i = Some x
       ∧ (x == start + inject_Z (Z.of_nat i) * (stop - start) / inject_Z (num - 1))%Q.
Proof.
  intros Hnum Hi. unfold linspace.
  destruct (Z.ltb_spec num 0); [lia|].
  destruct (Z.ltb_spec 0 (num - 1)); [|lia].
  destruct (Z.ltb_spec 1 num); [|lia].
  intros [= <-].
  assert (Hden : ¬ (inject_Z (num - 1) == 0)%Q).
  { intros Hz. unfold Qeq in Hz. cbn in Hz. lia. }
  destruct (decide (i = Z.to_nat (num - 1))) as [->|Hne].
  - eexists. split.
    + apply list_lookup_insert_eq. rewrite length_map, length_seq. lia.
    + rewrite Z2Nat.id by lia. field. exact Hden.
  - eexists. split.
    + rewrite list_lookup_insert_ne by congruence.
      rewrite lookup_map, lookup_seq_lt by lia. reflexivity.
    + cbn. field. exact Hden.
Qed.

(** X5.  The crossfade is linear: in the overlap of [crossfade_samples]
    (two or more) samples, output sample [i] of the overlap is
    [a * (1 - t) + b * t] for the samples [a] and [b] of the two segments
    that meet there and [t = i / (crossfade_samples - 1)]; the two weights
    add up to one. *)
Theorem crossfade_is_linear (audio1 audio2 : list Q) cd sr (i : nat) (a b : Q) :
  let cs := crossfade_samples_of cd sr in
  let start := Z.to_nat (len audio1 - cs) in
  1 < cs → cs ≤ len audio1 → cs ≤ len audio2 →
  Z.of_nat i < cs →
  audio1 !! (start + i)%nat = Some a →
  audio2 !! i = Some b →
  ∃ out y,
    _create_crossfade audio1 audio2 cd sr = Return out
    ∧ out !! (start + i)%nat = Some y
    ∧ (y == a * (1 - inject_Z (Z.of_nat i) / inject_Z (cs - 1))
            + b * (inject_Z (Z.of_nat i) / inject_Z (cs - 1)))%Q.
Proof.
  intros cs start Hcs H1 H2 Hi Ha Hb.
  destruct (crossfade_blend_run audio1 audio2 cd sr) as
    (fade_out & fade_in & Hout & Hin & Lout & Lin & Hrun); [fold cs; lia..|].
  fold cs in Hout, Hin, Lout, Lin, Hrun. fold start in Hrun.
  destruct (linspace_lookup 1 0 cs fade_out i Hcs Hi Hout) as (wo & Hwo & Ewo).
  destruct (linspace_lookup 0 1 cs fade_in i Hcs Hi Hin) as (wi & Hwi & Ewi).
  assert (Hden : ¬ (inject_Z (cs - 1) == 0)%Q).
  { intros Hz. unfold Qeq in Hz. cbn in Hz. lia. }
  exists (take start audio1
          ++ zip_with Qplus (zip_with Qmult (drop start audio1) fade_out)
                            (zip_with Qmult (take (Z.to_nat cs) audio2) fade_in)
          ++ drop (Z.to_nat cs) audio2), (a * wo + b * wi)%Q.
  split; [exact Hrun|]. split.
  - assert (Lstart : length (take start audio1) = start).
    { rewrite length_take. unfold start, len in *. lia. }
    rewrite lookup_app_r by (rewrite Lstart; lia).
    rewrite Lstart. replace (start + i - start)%nat with i by lia.
    rewrite lookup_app_l.
    + rewrite !lookup_zip_with, lookup_drop, Ha, Hwo.
      rewrite lookup_take_lt by lia. rewrite Hb, Hwi. reflexivity.
    + rewrite !length_zip_with, length_drop, length_take. unfold start, len in *. lia.
  - rewrite Ewo, Ewi. field. exact Hden.
Qed.

Lemma crossfade_is_linear_witness :
  ∃ out y,
    _create_crossfade [8; 8; 8; 8]%Q [2; 2; 2; 2]%Q 0.75 4 = Return out
    ∧ out !! 2%nat = Some y ∧ (y == 5)%Q.
Proof.
  destruct (crossfade_is_linear [8; 8; 8; 8]%Q [2; 2; 2; 2]%Q 0.75 4 1 8 2)
    as (out & y & Hrun & Hy & Ey).
  - vm_compute. reflexivity.
  - vm_compute. discriminate.
  - vm_compute. discriminate.
  - vm_compute. reflexivity.
  - reflexivity.
  - reflexivity.
  - exists out, y. split; [exact Hrun|]. split; [exact Hy|].
    rewrite Ey. vm_compute. reflexivity.
Defined.

(** ** Stitching several tiles *)

Lemma merge_in_order_returns cd sr (rest : list (list Q)) : ∀ acc,
  0 < crossfade_samples_of cd sr →
  ∃ out, merge_in_order cd sr acc rest = Return out.
Proof.
  induction rest as [|tile rest IH]; intros acc Hcs; [eexists; reflexivity|].
  cbn [merge_in_order].
  destruct (crossfade_returns_run acc tile cd sr Hcs) as (acc' & -> & _).
  cbn [mbind outcome_bind]. apply IH, Hcs.
Qed.

Lemma merge_in_order_long cd sr (rest : list (list Q)) : ∀ acc,
  let cs := crossfade_samples_of cd sr in
  0 < cs → cs ≤ len acc → Forall (λ tile, cs ≤ len tile) rest →
  ∃ out, merge_in_order cd sr acc rest = Return out
         ∧ len out = len acc + len (concat rest) - cs * len rest.
Proof.
  intros acc cs Hcs. revert acc.
  induction rest as [|tile rest IH]; intros acc Hacc Hrest.
  - exists acc. split; [reflexivity|]. unfold len. cbn. lia.
  - apply Forall_cons in Hrest as [Htile Hrest]. cbn [merge_in_order].
    destruct (crossfade_blend_run acc tile cd sr Hcs Hacc Htile)
      as (fade_out & fade_in & _ & _ & Lout & Lin & Hrun).
    rewrite Hrun. cbn [mbind outcome_bind].
    match goal with |- context [merge_in_order cd sr ?a rest] => set (acc' := a) end.
    assert (Hlen : len acc' = len acc + len tile - cs).
    { unfold acc'. rewrite !len_app. unfold len in *.
      rewrite !length_zip_with, !length_take, !length_drop. fold cs in Lout, Lin. lia. }
    destruct (IH acc') as (out & Hout & Hlout); [fold cs; lia|exact Hrest|].
    exists out. split; [exact Hout|].
    rewrite Hlout, Hlen. cbn [concat]. rewrite len_app. unfold len. cbn [length]. lia.
Qed.

Lemma merge_in_order_short cd sr (rest : list (list Q)) : ∀ acc,
  Forall (λ tile, len tile < crossfade_samples_of cd sr) rest →
  merge_in_order cd sr acc rest = Return (acc ++ concat rest).
Proof.
  induction rest as [|tile rest IH]; intros acc Hrest.
  - cbn. rewrite app_nil_r. reflexivity.
  - apply Forall_cons in Hrest as [Htile Hrest]. cbn [merge_in_order].
    rewrite crossfade_short_run by (right; exact Htile). cbn [mbind outcome_bind].
    rewrite IH by exact Hrest. cbn [concat]. rewrite app_assoc. reflexivity.
Qed.

(** X6.  Without [loopable], stitching tiles that all have at least
    [crossfade_samples] (one or more) samples returns a buffer whose length
    is the total length of the tiles minus one overlap of [crossfade_samples]
    per seam. *)
Theorem stitched_length (tile0 : list Q) (rest : list (list Q)) cd sr :
  let cs := crossfade_samples_of cd sr in
  0 < cs → Forall (λ tile, cs ≤ len tile) (tile0 :: rest) →
  ∃ out, _stitch_tiles (tile0 :: rest) cd sr false = Return out
         ∧ len out = len (concat (tile0 :: rest)) - cs * len rest.
Proof.
  intros cs Hcs Hall. apply Forall_cons in Hall as [H0 Hrest].
  rewrite stitch_tiles_plain. unfold stitch_in_order.
  destruct (merge_in_order_long cd sr rest tile0 Hcs H0 Hrest) as (out & Hout & Hlen).
  exists out. split; [exact Hout|]. rewrite Hlen. cbn [concat]. rewrite len_app. lia.
Qed.

Lemma stitched_length_witness :
  ∃ out, _stitch_tiles [[1; 1; 1; 1]; [2; 2; 2; 2]; [3; 3; 3; 3]]%Q 0.5 4 false
         = Return out
         ∧ len out = 8.
Proof.
  destruct (stitched_length [1; 1; 1; 1]%Q [[2; 2; 2; 2]; [3; 3; 3; 3]]%Q 0.5 4)
    as (out & Hrun & Hlen).
  - vm_compute. reflexivity.
  - repeat constructor; vm_compute; discriminate.
  - exists out. split; [exact Hrun|exact Hlen].
Defined.

(** X7.  Without [loopable], when every tile after the first is shorter than
    [crossfade_samples], stitching is plain concatenation of the tiles, in
    order, however long the buffer accumulated so far. *)
Theorem short_tiles_are_concatenated (tile0 : list Q) (rest : list (list Q)) cd sr :
  Forall (λ tile, len tile < crossfade_samples_of cd sr) rest →
  _stitch_tiles (tile0 :: rest) cd sr false = Return (concat (tile0 :: rest)).
Proof.
  intros Hrest. rewrite stitch_tiles_plain. unfold stitch_in_order.
  apply merge_in_order_short, Hrest.
Qed.

Lemma short_tiles_are_concatenated_witness :
  _stitch_tiles [[1; 1; 1]; [2; 2]; [3]]%Q 0.5 48000 false
  = Return [1; 1; 1; 2; 2; 3]%Q.
Proof.
  apply (short_tiles_are_concatenated [1; 1; 1]%Q [[2; 2]; [3]]%Q 0.5 48000).
  repeat constructor.
Defined.

(** ** The loop wrapper and the loopable pass *)

Lemma make_loopable_returns_run (audio : list Q) cd sr :
  0 < crossfade_samples_of cd sr →
  ∃ out, _make_loopable audio cd sr = Return out.
Proof.
  intros Hcs. unfold _make_loopable.
  set (cs := crossfade_samples_of cd sr) in *.
  destruct (Z.ltb_spec (len audio) (cs * 2)); [eexists; reflexivity|].
  destruct (linspace_length 1 0 cs) as (fade_out & -> & Lout); [lia|].
  destruct (linspace_length 0 1 cs) as (fade_in & -> & Lin); [lia|].
  cbn [mbind outcome_bind].
  rewrite py_slice_suffix, py_slice_prefix by lia.
  unfold np_mul, np_add.
  assert (Lhead : length (take (Z.to_nat cs) audio) = Z.to_nat cs)
    by (rewrite length_take; unfold len in *; lia).
  assert (Ltail : length (drop (Z.to_nat (len audio - cs)) audio) = Z.to_nat cs)
    by (rewrite length_drop; unfold len in *; lia).
  rewrite (broadcast_same_length Qmult) by congruence. cbn [mbind outcome_bind].
  rewrite (broadcast_same_length Qmult) by congruence. cbn [mbind outcome_bind].
  rewrite (broadcast_same_length Qplus)
    by (rewrite !length_zip_with_same by congruence; congruence).
  eexists. reflexivity.
Qed.

Lemma for_each_returns {A B} (f : A → outcome B) (l : list A) :
  (∀ x, ∃ y, f x = Return y) → ∃ ys, for_each f l = Return ys ∧ length ys = length l.
Proof.
  intros Hf. induction l as [|x l (ys & IH & Hlen)]; [exists []; split; reflexivity|].
  destruct (Hf x) as [y Hy]. exists (y :: ys). cbn [for_each]. rewrite Hy, IH.
  split; [reflexivity|cbn; congruence].
Qed.

Lemma for_each_snoc {A B} (f : A → outcome B) (l : list A) (x : A) ys y :
  for_each f l = Return ys → f x = Return y →
  for_each f (l ++ [x]) = Return (ys ++ [y]).
Proof.
  revert ys. induction l as [|x0 l IH]; intros ys Hl Hx.
  - cbn in Hl. injection Hl as <-. cbn. rewrite Hx. reflexivity.
  - cbn [for_each app] in *. destruct (f x0) as [y0|]; [|discriminate].
    cbn [mbind outcome_bind] in *.
    destruct (for_each f l) as [ys0|]; [|discriminate].
    cbn [mbind outcome_bind] in *. injection Hl as <-.
    rewrite (IH ys0 eq_refl Hx). reflexivity.
Qed.

Lemma stitch_tiles_returns (tiles : list (list Q)) cd sr (loopable : bool) :
  0 < crossfade_samples_of cd sr →
  ∃ out, _stitch_tiles tiles cd sr loopable = Return out.
Proof.
  intros Hcs. destruct tiles as [|tile0 [|tile1 rest]]; [eexists; reflexivity..|].
  destruct loopable.
  - rewrite stitch_tiles_loopable. apply merge_in_order_returns, Hcs.
  - rewrite stitch_tiles_plain. apply merge_in_order_returns, Hcs.
Qed.

Lemma stitch_stage_returns (request : SFXGenerationRequest) (tiles : list (list Q)) :
  0 < crossfade_samples_of (crossfade_duration request) (sample_rate request) →
  ∃ out, stitch_stage request tiles = Return out.
Proof.
  intros Hcs. unfold stitch_stage. destruct (loopable request).
  - destruct (for_each_returns
                (λ tile, _make_loopable tile (crossfade_duration request)
                                        (sample_rate request)) tiles)
      as (wrapped & -> & _).
    { intros tile. apply make_loopable_returns_run, Hcs. }
    cbn [mbind outcome_bind]. apply stitch_tiles_returns, Hcs.
  - cbn [mbind outcome_bind]. apply stitch_tiles_returns, Hcs.
Qed.

(** X8.  For a loopable request of two tiles or more (with a crossfade of
    one sample or more), the audio of the last tile does not reach the
    output: the stitched buffer is the same whatever the last tile holds. *)
Theorem loopable_discards_last_tile (request : SFXGenerationRequest)
    (tiles : list (list Q)) (last1 last2 : list Q) :
  loopable request = true →
  0 < crossfade_samples_of (crossfade_duration request) (sample_rate request) →
  tiles ≠ [] →
  stitch_stage request (tiles ++ [last1]) = stitch_stage request (tiles ++ [last2]).
Proof.
  intros Hloop Hcs Hne. unfold stitch_stage. rewrite Hloop.
  set (wrap := λ tile, _make_loopable tile (crossfade_duration request)
                                      (sample_rate request)).
  destruct (for_each_returns wrap tiles) as (wrapped & Hwrapped & Hlen).
  { intros tile. apply make_loopable_returns_run, Hcs. }
  destruct (make_loopable_returns_run last1 _ _ Hcs) as [w1 Hw1].
  destruct (make_loopable_returns_run last2 _ _ Hcs) as [w2 Hw2].
  rewrite (for_each_snoc wrap tiles last1 wrapped w1 Hwrapped Hw1).
  rewrite (for_each_snoc wrap tiles last2 wrapped w2 Hwrapped Hw2).
  cbn [mbind outcome_bind].
  destruct wrapped as [|w0 rest]; [destruct tiles; [congruence|discriminate]|].
  assert (Hstitch : ∀ w, _stitch_tiles ((w0 :: rest) ++ [w]) (crossfade_duration request)
                           (sample_rate request) true
                         = merge_in_order (crossfade_duration request)
                             (sample_rate request) w0 (rest ++ [w0])).
  { intros w. destruct rest as [|r rest]; cbn [app].
    - apply stitch_tiles_loopable.
    - rewrite stitch_tiles_loopable.
      change (r :: rest ++ [w]) with ((r :: rest) ++ [w]).
      rewrite removelast_last. reflexivity. }
  rewrite !Hstitch. reflexivity.
Qed.

Lemma loopable_discards_last_tile_witness :
  stitch_stage (rain 50 true 4) [[1; 1; 1; 1]; [2; 2; 2; 2]; [3; 3; 3; 3]]%Q
  = stitch_stage (rain 50 true 4) [[1; 1; 1; 1]; [2; 2; 2; 2]; [9; 9; 9; 9; 9]]%Q.
Proof.
  apply (loopable_discards_last_tile (rain 50 true 4)
           [[1; 1; 1; 1]; [2; 2; 2; 2]]%Q [3; 3; 3; 3]%Q [9; 9; 9; 9; 9]%Q).
  - reflexivity.
  - vm_compute. reflexivity.
  - discriminate.
Defined.

(** ** Files and events of a whole call *)

Lemma cache_events_app t1 t2 : cache_events (t1 ++ t2) = cache_events t1 ++ cache_events t2.
Proof. apply List.filter_app. Qed.

Lemma cache_events_EvPost ps : cache_events (map EvPost ps) = [].
Proof. induction ps as [|p ps IH]; [reflexivity|exact IH]. Qed.

Lemma get_cached_result_tmp cache_key w :
  tmp_untouched w (_get_cached_result cache_key w).2.
Proof.
  unfold _get_cached_result. io_unfold. unfold cache_exists, cache_read.
  destruct (stat_error w cache_key) as [e|] eqn:Hstat; [repeat split|].
  destruct (cache_dir w !! cache_key) as [audio|] eqn:Hfile; cbn; [|repeat split].
  rewrite Hfile. cbn.
  destruct (stat_error w (with_suffix cache_key ".json")) as [e|] eqn:Hstat'; cbn;
    [repeat split|].
  destruct (cache_dir w !! with_suffix cache_key ".json") as [text|] eqn:Hmeta; cbn.
  - rewrite Hmeta. cbn. destruct (json_load text) as [m|e]; cbn.
    + match goal with |- context [load_output_format ?l ?n] =>
        destruct (load_output_format l n) end; repeat split.
    + repeat split.
  - match goal with |- context [load_output_format ?l ?n] =>
      destruct (load_output_format l n) end; repeat split.
Qed.

Lemma generate_tiles_tmp E request td todo : ∀ tiles w,
  tmp_untouched w (generate_tiles E request td todo tiles w).2.
Proof.
  induction todo as [|i todo IH]; intros tiles w; [repeat split|].
  cbn [generate_tiles]. unfold _generate_sfx_tile, http_post. io_unfold.
  match goal with |- context [response_body ?r] => destruct (response_body r) end;
    [|repeat split].
  match goal with |- context [_process_audio_tile ?a ?b ?c] =>
    destruct (_process_audio_tile a b c) as [tile_audio|] end; [|repeat split].
  match goal with |- context [generate_tiles _ _ _ _ ?t ?w1] =>
    destruct (IH t w1) as (H1 & H2 & H3) end.
  repeat split; assumption.
Qed.

Lemma synthesize_waveform_tmp E request w :
  tmp_untouched w (synthesize_waveform E request w).2.
Proof.
  unfold synthesize_waveform. io_unfold.
  destruct (py_truediv (duration request) (tiles_needed_of request)) as [td|];
    [|repeat split].
  pose proof (generate_tiles_tmp E request td (range (tiles_needed_of request)) [] w) as H.
  destruct (generate_tiles E request td (range (tiles_needed_of request)) [] w) as [o w1].
  destruct o as [tiles|]; [|exact H].
  destruct (stitch_stage request tiles); [|exact H].
  match goal with |- context [ensure_exact_duration ?a ?t] =>
    destruct (ensure_exact_duration a t) end; exact H.
Qed.

Lemma deliver_files E request use_cache cache_key start_time final_audio w :
  let p := next_tmp_path request w in
  match encode E request final_audio (clock w (clock_reads w)) with
  | Raise e =>
      ∃ w', deliver E request use_cache cache_key start_time final_audio w = (Raise e, w')
        ∧ tmp_dir w' = <[p := RawBytes []]> (tmp_dir w)
        ∧ cache_dir w' = cache_dir w
        ∧ cache_events (trace w') = cache_events (trace w)
  | Return b =>
      ∃ r w' cached_at,
        deliver E request use_cache cache_key start_time final_audio w = (Return r, w')
        ∧ Result.success r = true
        ∧ Result.audio_data r = Some b
        ∧ Result.file_path r = Some (path_name p)
        ∧ Result.duration r = duration request
        ∧ Result.sample_rate r = sample_rate request
        ∧ Result.bit_depth r = bit_depth request
        ∧ Result.tiles_generated r = tiles_needed_of request
        ∧ Result.seed_used r = seed request
        ∧ tmp_dir w' = delete p (tmp_dir w)
        ∧ cache_dir w'
          = (if use_cache
             then <[with_suffix cache_key ".json" := JsonText (metadata_of r cached_at)]>
                    (<[cache_key := b]> (cache_dir w))
             else cache_dir w)
        ∧ cache_events (trace w')
          = cache_events (trace w)
            ++ (if use_cache
                then [EvCacheWrite cache_key; EvCacheWrite (with_suffix cache_key ".json")]
                else [])
  end.
Proof.
  intros p. unfold deliver, encode, NamedTemporaryFile. io_unfold. cbv beta iota.
  rewrite save_audio_encode.
  destruct (encode_samples final_audio (bit_depth request)) as [data subtype].
  unfold sf_write, tmp_read, tmp_unlink, datetime_now. cbn.
  destruct (sf_write_error E ("." +:+ output_format request) (sample_rate request) subtype)
    as [e|].
  - eexists. split; [reflexivity|]. cbn. repeat split.
    rewrite !cache_events_app. cbn. rewrite !app_nil_r. reflexivity.
  - cbn. repeat (rewrite lookup_insert_eq; cbn).
    destruct (peak_chunk E ("." +:+ output_format request) subtype); destruct use_cache.
    all: try (unfold _cache_result, cache_write, datetime_now; io_unfold; cbn).
    all: eexists _, _, _; (split; [reflexivity|]); cbn;
      repeat (split; [reflexivity|]); (split; [|split; [reflexivity|]]);
      [rewrite !delete_insert_eq; reflexivity
      |rewrite !cache_events_app; cbn; rewrite ?app_nil_r, <- ?app_assoc; reflexivity].
  Unshelve. all: exact 0%Q.
Qed.

Lemma tmp_untouched_trans w1 w2 w3 :
  tmp_untouched w1 w2 → tmp_untouched w2 w3 → tmp_untouched w1 w3.
Proof. intros (A1 & A2 & A3) (B1 & B2 & B3). repeat split; congruence. Qed.

(** The world in which the body of the [try] of [generate_sfx] starts, for
    a request that passes validation. *)
Lemma generate_sfx_enters_body E request use_cache w :
  in_range request → lookup_returns E request use_cache w →
  ∃ w1,
    generate_sfx E request use_cache w
    = try_except (generate_sfx_body E request use_cache (_generate_cache_key E request)
                                    (clock w (clock_reads w)))
                 (λ e, mret (failure (str e))) w1
    ∧ quiet w w1
    ∧ tmp_untouched w w1
    ∧ (use_cache = false → cache_events (trace w1) = cache_events (trace w))
    ∧ clock w1 (clock_reads w1) = encoding_time w.
Proof.
  intros [Hmin Hmax] Hlookup. unfold generate_sfx, datetime_now. io_unfold.
  rewrite (Qltb_false _ _ Hmin), (Qltb_false _ _ Hmax).
  set (w0 := log EvNow _).
  assert (Hq0 : quiet w w0) by (unfold w0; repeat split; trace_solve).
  assert (Ht0 : tmp_untouched w w0) by (unfold w0; repeat split).
  destruct use_cache.
  - destruct (get_cached_result_misses (_generate_cache_key E request) w0)
      as (w1 & Hrun & Hq1); [exact (Hlookup eq_refl)|].
    pose proof (get_cached_result_tmp (_generate_cache_key E request) w0) as Ht1.
    pose proof (get_cached_result_clock (_generate_cache_key E request) w0)
      as (Hc1 & Hr1 & _).
    rewrite Hrun in Ht1, Hc1, Hr1 |- *. cbn [snd] in Ht1, Hc1, Hr1. exists w1.
    split; [reflexivity|]. split; [exact (quiet_trans _ _ _ Hq0 Hq1)|].
    split; [exact (tmp_untouched_trans _ _ _ Ht0 Ht1)|]. split; [discriminate|].
    rewrite Hc1, Hr1. reflexivity.
  - exists w0. split; [reflexivity|]. split; [exact Hq0|]. split; [exact Ht0|].
    split; [|reflexivity].
    intros _. unfold w0. cbn. rewrite cache_events_app. cbn. apply app_nil_r.
Qed.

(** The files and the result of a call that passes validation, by the
    outcome of the replay. *)
Lemma generate_sfx_files E request use_cache w :
  in_range request → lookup_returns E request use_cache w →
  let key := _generate_cache_key E request in
  let p := next_tmp_path request w in
  ∃ r w',
    generate_sfx E request use_cache w = (Return r, w')
    ∧ (use_cache = false → cache_events (trace w') = cache_events (trace w))
    ∧ match (replay_waveform E request (backend w) (requests_served w)).1 with
      | Raise e =>
          r = failure (str e) ∧ tmp_dir w' = tmp_dir w ∧ cache_dir w' = cache_dir w
      | Return final_audio =>
          match encode E request final_audio (encoding_time w) with
          | Raise e =>
              r = failure (str e)
              ∧ tmp_dir w' = <[p := RawBytes []]> (tmp_dir w)
              ∧ cache_dir w' = cache_dir w
          | Return b =>
              ∃ cached_at,
                Result.success r = true
                ∧ Result.audio_data r = Some b
                ∧ Result.file_path r = Some (path_name p)
                ∧ Result.duration r = duration request
                ∧ Result.sample_rate r = sample_rate request
                ∧ Result.bit_depth r = bit_depth request
                ∧ Result.tiles_generated r = tiles_needed_of request
                ∧ Result.seed_used r = seed request
                ∧ tmp_dir w' = delete p (tmp_dir w)
                ∧ cache_dir w'
                  = (if use_cache
                     then <[with_suffix key ".json" := JsonText (metadata_of r cached_at)]>
                            (<[key := b]> (cache_dir w))
                     else cache_dir w)
          end
      end.
Proof.
  intros Hrange Hlookup key p. subst key.
  destruct (generate_sfx_enters_body E request use_cache w Hrange Hlookup)
    as (w1 & -> & (Hc1 & Hb1 & Hs1 & _ & _) & (Ht1 & Hn1 & Hk1) & He1 & Hnow).
  unfold try_except, generate_sfx_body. io_unfold.
  destruct (synthesize_waveform_replay E request w1) as (w2 & Hrun & Hc2 & Hb2 & Htr2).
  pose proof (synthesize_waveform_tmp E request w1) as (Ht2 & Hn2 & Hk2).
  pose proof (synthesize_waveform_clock E request w1) as (Hcl2 & Hrd2 & _).
  rewrite Hrun in Ht2, Hn2, Hk2, Hcl2, Hrd2 |- *.
  cbn [snd] in Ht2, Hn2, Hk2, Hcl2, Hrd2.
  rewrite Hb1, Hs1 in *.
  destruct (replay_waveform E request (backend w) (requests_served w)) as [o sent].
  cbn [fst snd] in *.
  assert (He2 : use_cache = false → cache_events (trace w2) = cache_events (trace w)).
  { intros Hu. rewrite Htr2, cache_events_app, cache_events_EvPost, app_nil_r. auto. }
  destruct o as [final_audio|e].
  - pose proof (deliver_files E request use_cache (_generate_cache_key E request)
                  (clock w (clock_reads w))
                  final_audio w2) as Hdeliver.
    assert (Hp : next_tmp_path request w2 = p).
    { unfold p, next_tmp_path. rewrite Hn2, Hk2, Hn1, Hk1. reflexivity. }
    cbv zeta in Hdeliver. rewrite Hp, Hcl2, Hrd2, Hnow in Hdeliver.
    destruct (encode E request final_audio (encoding_time w)) as [b|e].
    + destruct Hdeliver as (r & w' & cached_at & -> & Hs & Ha & Hf & Hd & Hsr & Hbd
                            & Hn & Hseed & Htmp & Hcache & Hev).
      exists r, w'. split; [reflexivity|]. split.
      { intros Hu. rewrite Hev, Hu, app_nil_r. auto. }
      exists cached_at. repeat (split; [assumption|]).
      split; [congruence|]. rewrite Hcache, Hc2, Hc1. reflexivity.
    + destruct Hdeliver as (w' & -> & Htmp & Hcache & Hev).
      eexists _, w'. split; [reflexivity|]. split.
      { intros Hu. rewrite Hev. auto. }
      repeat split; congruence.
  - eexists _, w2. split; [reflexivity|]. split; [exact He2|].
    repeat split; congruence.
Qed.

(** ** A call that succeeds *)

Lemma replay_tiles_delivers E request answer td todo : ∀ k tiles,
  backend_delivers E request answer →
  ∃ tiles', replay_tiles E request answer td k todo tiles
            = (Return tiles', map (request_for_tile request td) todo).
Proof.
  induction todo as [|i todo IH]; intros k tiles Hok; [eexists; reflexivity|].
  cbn [replay_tiles].
  destruct (Hok k (request_for_tile request td i)) as [audio ->].
  destruct (IH (S k) (tiles ++ [audio]) Hok) as [tiles' ->].
  eexists. reflexivity.
Qed.

Lemma ensure_exact_duration_returns (final_audio : list Q) target_samples :
  0 ≤ target_samples →
  ∃ out, ensure_exact_duration final_audio target_samples = Return out.
Proof.
  intros Ht.
  destruct (ensure_exact_duration_cases final_audio target_samples Ht) as (Hcut & Hpad & Hsame).
  destruct (Z.lt_trichotomy target_samples (len final_audio)) as [H|[H|H]].
  - eexists. apply Hcut, H.
  - eexists. apply Hsame. congruence.
  - eexists. apply Hpad, H.
Qed.

Lemma replay_waveform_delivers E request answer k :
  in_range request → 0 < sample_rate request →
  0 < crossfade_samples_of (crossfade_duration request) (sample_rate request) →
  backend_delivers E request answer →
  ∃ final_audio,
    replay_waveform E request answer k
    = (Return final_audio,
       map (request_for_tile request
              (duration request / inject_Z (tiles_needed_of request)))
           (range (tiles_needed_of request)))
    ∧ len final_audio = target_samples_of request.
Proof.
  intros Hrange Hsr Hcs Hok. unfold replay_waveform.
  rewrite (py_truediv_tiles request Hrange).
  destruct (replay_tiles_delivers E request answer
              (duration request / inject_Z (tiles_needed_of request))
              (range (tiles_needed_of request)) k [] Hok) as [tiles ->].
  destruct (stitch_stage_returns request tiles Hcs) as [stitched Hstitched].
  pose proof (target_samples_nonneg request Hrange Hsr) as Hnonneg.
  destruct (ensure_exact_duration_returns stitched _ Hnonneg) as [final_audio Hfinal].
  exists final_audio. cbn [mbind outcome_bind]. rewrite Hstitched.
  cbn [mbind outcome_bind]. rewrite Hfinal. split; [reflexivity|].
  apply (ensure_exact_duration_len stitched); assumption.
Qed.

Lemma encode_returns E request final_audio now :
  (∀ subtype, sf_write_error E ("." +:+ output_format request)
                             (sample_rate request) subtype = None) →
  ∃ b, encode E request final_audio now = Return b.
Proof.
  intros Hok. unfold encode.
  destruct (encode_samples final_audio (bit_depth request)) as [data subtype].
  rewrite Hok. eexists. reflexivity.
Qed.

Lemma successful_run E (request : SFXGenerationRequest) (use_cache : bool)
    (w : World) :
  in_range request → 0 < sample_rate request →
  0 < crossfade_samples_of (crossfade_duration request) (sample_rate request) →
  lookup_returns E request use_cache w →
  backend_delivers E request (backend w) →
  (∀ subtype, sf_write_error E ("." +:+ output_format request)
                             (sample_rate request) subtype = None) →
  ∃ r w' final_audio b,
    generate_sfx E request use_cache w = (Return r, w')
    ∧ Result.success r = true
    ∧ encode E request final_audio (encoding_time w) = Return b
    ∧ Result.audio_data r = Some b
    ∧ len final_audio = target_samples_of request
    ∧ Result.duration r = duration request
    ∧ Result.sample_rate r = sample_rate request
    ∧ Result.bit_depth r = bit_depth request
    ∧ Result.seed_used r = seed request
    ∧ Result.tiles_generated r = tiles_needed_of request
    ∧ posts (trace w')
      = posts (trace w)
        ++ map (request_for_tile request
                  (duration request / inject_Z (tiles_needed_of request)))
               (range (tiles_needed_of request)).
Proof.
  intros Hrange Hsr Hcs Hlookup Hok Henc.
  destruct (replay_waveform_delivers E request (backend w) (requests_served w)
              Hrange Hsr Hcs Hok) as (final_audio & Hwave & Hlen).
  destruct (encode_returns E request final_audio (encoding_time w) Henc) as [b Hb].
  destruct (generate_sfx_files E request use_cache w Hrange Hlookup)
    as (r & w' & Hrun & _ & Hres).
  destruct (generate_sfx_run E request use_cache w Hrange Hlookup)
    as (r0 & w0 & Hrun0 & Hposts & _).
  rewrite Hrun in Hrun0. injection Hrun0 as <- <-.
  unfold replay_audio in Hposts. rewrite Hwave in Hres, Hposts. cbn [fst snd] in *.
  rewrite Hb in Hres.
  destruct Hres as (cached_at & Hs & Ha & _ & Hd & Hr & Hbd & Hn & Hseed & _).
  exists r, w', final_audio, b. split; [exact Hrun|]. split; [exact Hs|].
  split; [exact Hb|].
  repeat (split; [first [assumption | congruence]|]). exact Hposts.
Qed.

(** X9.  A request with a duration in range, a positive sample rate and a
    crossfade of one sample or more succeeds whenever its cache lookup does
    not fail, the provider answers every tile with audio the decoder
    accepts and the encoder accepts the format: the provider is asked for
    every tile of the plan, the result reports the request's duration,
    rate, bit depth and seed and the tile count, and the audio has
    [int(duration * sample_rate)] frames, the float product truncated. *)
Theorem generate_sfx_succeeds E (request : SFXGenerationRequest) (use_cache : bool)
    (w : World) :
  in_range request → 0 < sample_rate request →
  0 < crossfade_samples_of (crossfade_duration request) (sample_rate request) →
  lookup_returns E request use_cache w →
  backend_delivers E request (backend w) →
  (∀ subtype, sf_write_error E ("." +:+ output_format request)
                             (sample_rate request) subtype = None) →
  ∃ r w' subtype data time_stamp,
    generate_sfx E request use_cache w = (Return r, w')
    ∧ Result.success r = true
    ∧ Result.audio_data r
      = Some (WavFile subtype (sample_rate request) data time_stamp)
    ∧ frame_count data
      = py_int (float_mul (duration request) (inject_Z (sample_rate request)))
    ∧ Result.duration r = duration request
    ∧ Result.sample_rate r = sample_rate request
    ∧ Result.bit_depth r = bit_depth request
    ∧ Result.seed_used r = seed request
    ∧ Result.tiles_generated r = tiles_needed_of request
    ∧ posts (trace w')
      = posts (trace w)
        ++ map (request_for_tile request
                  (duration request / inject_Z (tiles_needed_of request)))
               (range (tiles_needed_of request)).
Proof.
  intros Hrange Hsr Hcs Hlookup Hok Henc.
  destruct (successful_run E request use_cache w Hrange Hsr Hcs Hlookup Hok Henc)
    as (r & w' & final_audio & b & Hrun & Hs & Hb & Ha & Hlen & Hrest).
  destruct (encode_frames E request final_audio _ b Hb)
    as (subtype & data & time_stamp & -> & Hcount).
  exists r, w', subtype, data, time_stamp. split; [exact Hrun|]. split; [exact Hs|].
  split; [exact Ha|]. split; [|exact Hrest].
  rewrite Hcount, Hlen. reflexivity.
Qed.

Lemma generate_sfx_succeeds_witness :
  ∃ r w', generate_sfx stub_externals (rain 30 true 8) true (stub_world tone_backend)
          = (Return r, w')
          ∧ Result.success r = true ∧ Result.tiles_generated r = 2.
Proof.
  destruct (generate_sfx_succeeds stub_externals (rain 30 true 8) true
              (stub_world tone_backend))
    as (r & w' & subtype & data & time_stamp & Hrun & Hs & _ & _ & _ & _ & _ & _ & Hn & _).
  - split; vm_compute; discriminate.
  - reflexivity.
  - vm_compute. reflexivity.
  - intros _. vm_compute. reflexivity.
  - intros k p. eexists. vm_compute. reflexivity.
  - intros subtype. reflexivity.
  - exists r, w'. split; [exact Hrun|]. split; [exact Hs|exact Hn].
Defined.

(** ** The provider requests of any call *)

Lemma tiles_needed_at_most_14 request :
  in_range request → tiles_needed_of request ≤ 14.
Proof.
  intros [_ Hmax]. unfold tiles_needed_of, np_ceil, max_duration, max_duration_per_request in *.
  pose proof (Qceiling_lt (duration request / 22)) as Hceil.
  assert (Hle : (duration request / 22 <= 14)%Q).
  { apply Qle_shift_div_r; lra. }
  assert (H : (inject_Z (Qceiling (duration request / 22) - 1) < inject_Z 14)%Q).
  { change (inject_Z 14) with 14%Q. lra. }
  rewrite <- Zlt_Qlt in H. lia.
Qed.

Lemma replay_tiles_sends_first E request answer td k i todo tiles :
  (replay_tiles E request answer td k (i :: todo) tiles).2 ≠ [].
Proof.
  cbn [replay_tiles].
  destruct (tile_of_response E request (answer k (request_for_tile request td i)));
    [|discriminate].
  destruct (replay_tiles E request answer td (S k) todo _). discriminate.
Qed.

Lemma py_min_le x y : (py_min x y <= y)%Q.
Proof.
  unfold py_min, Qltb. destruct (Qle_bool x y) eqn:H; cbn.
  - apply Qle_bool_iff, H.
  - apply Qle_refl.
Qed.

(** X10.  Whatever the request, the cache and the answers of the provider,
    and whether it returns or raises, one call of [generate_sfx] sends at
    most 14 requests to the provider: those of tiles 0 to [m - 1] of the
    plan, in that order, each for at most 22 seconds and with the prompt of
    the request.  A request that passes validation and whose cache lookup
    does not fail sends at least one, whatever the cache holds. *)
Theorem provider_requests_bounded E (request : SFXGenerationRequest)
    (use_cache : bool) (w : World) :
  ∃ m,
    0 ≤ m ≤ 14
    ∧ (in_range request → lookup_returns E request use_cache w →
       1 ≤ m ≤ tiles_needed_of request)
    ∧ posts (trace (generate_sfx E request use_cache w).2)
      = posts (trace w)
        ++ map (request_for_tile request
                  (duration request / inject_Z (tiles_needed_of request)))
               (range m)
    ∧ Forall (λ p, (pl_duration p <= max_duration_per_request)%Q
                   ∧ pl_text p = prompt request)
             (map (request_for_tile request
                     (duration request / inject_Z (tiles_needed_of request)))
                  (range m)).
Proof.
  assert (Hall : ∀ m, Forall (λ p, (pl_duration p <= max_duration_per_request)%Q
                                   ∧ pl_text p = prompt request)
                   (map (request_for_tile request
                           (duration request / inject_Z (tiles_needed_of request)))
                        (range m))).
  { intros m. apply Forall_forall. intros p Hp. apply list_elem_of_In, in_map_iff in Hp.
    destruct Hp as (i & <- & _). split; [apply py_min_le|reflexivity]. }
  assert (Hnone : posts (trace (generate_sfx E request use_cache w).2) = posts (trace w) →
                  (in_range request → lookup_returns E request use_cache w → False) →
                  ∃ m,
                    0 ≤ m ≤ 14
                    ∧ (in_range request → lookup_returns E request use_cache w →
                       1 ≤ m ≤ tiles_needed_of request)
                    ∧ posts (trace (generate_sfx E request use_cache w).2)
                      = posts (trace w)
                        ++ map (request_for_tile request
                                  (duration request / inject_Z (tiles_needed_of request)))
                               (range m)
                    ∧ Forall (λ p, (pl_duration p <= max_duration_per_request)%Q
                                   ∧ pl_text p = prompt request)
                             (map (request_for_tile request
                                     (duration request
                                      / inject_Z (tiles_needed_of request)))
                                  (range m))).
  { intros Hposts Hnot. exists 0. split; [lia|].
    split; [intros Hr Hl; destruct (Hnot Hr Hl)|].
    split; [rewrite Hposts; cbn; symmetry; apply app_nil_r|apply Hall]. }
  assert (Hout : (duration request < 1 ∨ 300 < duration request)%Q →
                 posts (trace (generate_sfx E request use_cache w).2) = posts (trace w)).
  { intros H. destruct (rejected_run request H) as [msg Hmsg].
    destruct (Hmsg E use_cache w) as (w' & Hrun & Htrace & _).
    rewrite Hrun. cbn [snd]. rewrite Htrace, posts_app. cbn. apply app_nil_r. }
  assert (Hnot : (duration request < 1 ∨ 300 < duration request)%Q → ¬ in_range request).
  { intros H [Hmin Hmax]. unfold min_duration, max_duration in *. lra. }
  destruct (Qlt_le_dec (duration request) 1) as [Hshort|Hmin].
  { apply Hnone; [apply Hout; left; exact Hshort|].
    intros Hr _. exact (Hnot (or_introl Hshort) Hr). }
  destruct (Qlt_le_dec 300 (duration request)) as [Hlong|Hmax].
  { apply Hnone; [apply Hout; right; exact Hlong|].
    intros Hr _. exact (Hnot (or_intror Hlong) Hr). }
  assert (Hrange : in_range request) by (split; assumption).
  assert (Hcases : lookup_returns E request use_cache w
                   ∨ ∃ e, use_cache = true
                          ∧ stat_error w (_generate_cache_key E request) = Some e).
  { destruct use_cache; [|left; discriminate].
    destruct (stat_error w (_generate_cache_key E request)) as [e|] eqn:Hstat.
    - right. exists e. split; reflexivity.
    - left. intros _. exact Hstat. }
  destruct Hcases as [Hlookup|(e & -> & Hstat)].
  2: { apply Hnone.
       - destruct (generate_sfx_lookup_raises E request w e Hrange Hstat)
           as (w' & Hrun & (_ & _ & _ & Hp & _) & _).
         rewrite Hrun. exact Hp.
       - intros _ Hl. rewrite (Hl eq_refl) in Hstat. discriminate. }
  pose proof (tiles_needed_positive request Hrange) as Hpos.
  pose proof (tiles_needed_at_most_14 request Hrange) as H14.
  destruct (generate_sfx_run E request use_cache w Hrange Hlookup)
    as (r & w' & Hrun & Hposts & _).
  set (now := clock w (S (clock_reads w))) in *.
  set (td := (duration request / inject_Z (tiles_needed_of request))%Q) in *.
  assert (Hsent : ∃ m : nat, (1 ≤ m ≤ Z.to_nat (tiles_needed_of request))%nat
            ∧ (replay_audio E request (backend w) (requests_served w) now).2
              = map (request_for_tile request td) (range (Z.of_nat m))).
  { unfold replay_audio, replay_waveform. rewrite (py_truediv_tiles request Hrange).
    fold td.
    destruct (replay_tiles_sent_prefix E request (backend w) td
                (range (tiles_needed_of request)) (requests_served w) [])
      as (m & Hm & Hsent & _).
    rewrite length_range in Hm.
    assert (Hne : (replay_tiles E request (backend w) td (requests_served w)
                                (range (tiles_needed_of request)) []).2 ≠ []).
    { destruct (range (tiles_needed_of request)) as [|i todo] eqn:Hr.
      - apply (f_equal length) in Hr. rewrite length_range in Hr. cbn in Hr. lia.
      - apply replay_tiles_sends_first. }
    destruct (replay_tiles E request (backend w) td (requests_served w)
                           (range (tiles_needed_of request)) []) as [o sent].
    cbn [fst snd] in *. exists m. split.
    - split; [|exact Hm]. destruct m; [|lia]. rewrite take_0 in Hsent. cbn in Hsent.
      congruence.
    - rewrite Hsent, take_range by exact Hm. reflexivity. }
  destruct Hsent as (m & Hm & Hsent).
  exists (Z.of_nat m). split; [lia|].
  split; [intros _ _; lia|].
  split; [rewrite Hrun; cbn [snd]; rewrite Hposts, Hsent; reflexivity|apply Hall].
Qed.

(** ** The cache lookup *)

(** X11.  [_get_cached_result] never returns an entry, whatever the key
    and the content of the cache directory.  When [stat] on the cache file
    fails for another reason than the file not being there, that error
    leaves the function, since the first [exists()] is outside the [try];
    otherwise the function returns [None].  Either way it neither changes
    a file nor asks the provider.  (When the file exists, building the
    result reads the unbound name [request]; the [except] clause turns the
    [NameError] into [None].) *)
Theorem cache_lookup_never_hits (cache_key : string) (w : World) :
  ∃ w', _get_cached_result cache_key w
        = (match stat_error w cache_key with
           | Some e => Raise e
           | None => Return None
           end, w')
        ∧ cache_dir w' = cache_dir w
        ∧ tmp_dir w' = tmp_dir w
        ∧ posts (trace w') = posts (trace w)
        ∧ cache_writes (trace w') = cache_writes (trace w).
Proof.
  destruct (get_cached_result_run cache_key w) as (w' & Hrun & Hc & _ & _ & Hp & Hw).
  pose proof (get_cached_result_tmp cache_key w) as (Ht & _).
  rewrite Hrun in Ht. exists w'. repeat split; assumption.
Qed.

(** ** Use of the cache and of the temporary file by a call *)

(** X12.  With [use_cache=False] a call never touches the cache: the
    directory is as before, and no cache file is looked up, read or
    written, whatever the request and the outcome. *)
Theorem uncached_call_leaves_cache_alone E (request : SFXGenerationRequest) (w : World) :
  ∃ r w',
    generate_sfx E request false w = (Return r, w')
    ∧ cache_dir w' = cache_dir w
    ∧ cache_events (trace w') = cache_events (trace w).
Proof.
  assert (Hout : (duration request < 1 ∨ 300 < duration request)%Q →
                 ∃ r w', generate_sfx E request false w = (Return r, w')
                         ∧ cache_dir w' = cache_dir w
                         ∧ cache_events (trace w') = cache_events (trace w)).
  { intros H. destruct (rejected_run request H) as [msg Hmsg].
    destruct (Hmsg E false w) as (w' & Hrun & Htrace & Hcache & _).
    exists (failure msg), w'. split; [exact Hrun|]. split; [exact Hcache|].
    rewrite Htrace, cache_events_app. cbn. apply app_nil_r. }
  destruct (Qlt_le_dec (duration request) 1) as [Hshort|Hmin]; [auto|].
  destruct (Qlt_le_dec 300 (duration request)) as [Hlong|Hmax]; [auto|].
  assert (Hlookup : lookup_returns E request false w) by (intros H; discriminate H).
  destruct (generate_sfx_files E request false w (conj Hmin Hmax) Hlookup)
    as (r & w' & Hrun & Hev & Hres).
  exists r, w'. split; [exact Hrun|]. split; [|apply Hev; reflexivity].
  destruct ((replay_waveform E request (backend w) (requests_served w)).1)
    as [final_audio|e]; [|tauto].
  destruct (encode E request final_audio (encoding_time w)); [|tauto].
  destruct Hres as (cached_at & Hres). tauto.
Qed.

(** X13.  The [file_path] of a successful result is the name of the
    temporary file through which the audio was encoded, and that file has
    been deleted by the time the call returns; the temporary directory is
    otherwise as it was. *)
Theorem successful_result_path_is_gone E (request : SFXGenerationRequest)
    (use_cache : bool) (w w' : World) (r : SFXGenerationResult) :
  in_range request →
  generate_sfx E request use_cache w = (Return r, w') →
  Result.success r = true →
  let p := next_tmp_path request w in
  Result.file_path r = Some (path_name p)
  ∧ tmp_dir w' !! p = None
  ∧ tmp_dir w' = delete p (tmp_dir w).
Proof.
  intros Hrange Hrun Hsuccess p.
  pose proof (returned_lookup E request use_cache w r w' Hrange Hrun) as Hlookup.
  destruct (generate_sfx_files E request use_cache w Hrange Hlookup)
    as (r0 & w0 & Hrun0 & _ & Hres).
  rewrite Hrun in Hrun0. injection Hrun0 as <- <-. fold p in Hres.
  destruct ((replay_waveform E request (backend w) (requests_served w)).1)
    as [final_audio|e]; [|destruct Hres as (-> & _); discriminate].
  destruct (encode E request final_audio (encoding_time w));
    [|destruct Hres as (-> & _); discriminate].
  destruct Hres as (cached_at & _ & _ & Hpath & _ & _ & _ & _ & _ & Htmp & _).
  split; [exact Hpath|]. split; [|exact Htmp]. rewrite Htmp. apply lookup_delete_eq.
Qed.

Lemma successful_result_path_is_gone_witness :
  ∃ r w', generate_sfx stub_externals (rain 30 false 8) true (stub_world tone_backend)
          = (Return r, w')
          ∧ Result.file_path r = Some "/tmp/tmp0.wav"
          ∧ tmp_dir w' !! ("/tmp/tmp0", ".wav") = None.
Proof.
  eassert (Hrun : generate_sfx stub_externals (rain 30 false 8) true
                               (stub_world tone_backend) = (Return _, _))
    by (vm_compute; reflexivity).
  assert (Hrange : in_range (rain 30 false 8)) by (split; vm_compute; discriminate).
  eexists _, _. split; [exact Hrun|].
  destruct (successful_result_path_is_gone stub_externals (rain 30 false 8) true
              (stub_world tone_backend) _ _ Hrange Hrun eq_refl) as (Hpath & Hgone & _).
  split; [exact Hpath|exact Hgone].
Defined.

(** X14.  When the encoder refuses the file (and the call got past its
    cache lookup and the tiles were delivered and stitched), the call
    returns the failure that carries the encoder's message; the provider
    has been asked for every tile, the cache is as it was, and the empty
    temporary file is left behind. *)
Theorem encoder_failure_leaves_temp_file E (request : SFXGenerationRequest)
    (use_cache : bool) (w : World) (e : exn) :
  in_range request → 0 < sample_rate request →
  0 < crossfade_samples_of (crossfade_duration request) (sample_rate request) →
  lookup_returns E request use_cache w →
  backend_delivers E request (backend w) →
  (∀ subtype, sf_write_error E ("." +:+ output_format request)
                             (sample_rate request) subtype = Some e) →
  ∃ w',
    generate_sfx E request use_cache w = (Return (failure (str e)), w')
    ∧ tmp_dir w' = <[next_tmp_path request w := RawBytes []]> (tmp_dir w)
    ∧ cache_dir w' = cache_dir w
    ∧ length (posts (trace w'))
      = (length (posts (trace w)) + Z.to_nat (tiles_needed_of request))%nat.
Proof.
  intros Hrange Hsr Hcs Hlookup Hok Henc.
  destruct (replay_waveform_delivers E request (backend w) (requests_served w)
              Hrange Hsr Hcs Hok) as (final_audio & Hwave & Hlen).
  assert (Hencode : encode E request final_audio (encoding_time w) = Raise e).
  { unfold encode. destruct (encode_samples final_audio (bit_depth request)).
    rewrite Henc. reflexivity. }
  destruct (generate_sfx_files E request use_cache w Hrange Hlookup)
    as (r & w' & Hrun & _ & Hres).
  destruct (generate_sfx_run E request use_cache w Hrange Hlookup)
    as (r0 & w0 & Hrun0 & Hposts & _).
  rewrite Hrun in Hrun0. injection Hrun0 as <- <-.
  unfold replay_audio in Hposts. rewrite Hwave in Hres, Hposts. cbn [fst snd] in *.
  rewrite Hencode in Hres. destruct Hres as (-> & Htmp & Hcache).
  exists w'. split; [exact Hrun|]. split; [exact Htmp|]. split; [exact Hcache|].
  rewrite Hposts, length_app, length_map, length_range. reflexivity.
Qed.

Lemma encoder_failure_leaves_temp_file_witness :
  ∃ w',
    generate_sfx refusing_externals (rain 30 false 8) true (stub_world tone_backend)
    = (Return (failure "Error opening file: format not recognised"), w')
    ∧ tmp_dir w' = {[ ("/tmp/tmp0", ".wav") := RawBytes [] ]}
    ∧ cache_dir w' = ∅.
Proof.
  destruct (encoder_failure_leaves_temp_file refusing_externals (rain 30 false 8) true
              (stub_world tone_backend)
              (Exception "Error opening file: format not recognised"))
    as (w' & Hrun & Htmp & Hcache & _).
  - split; vm_compute; discriminate.
  - reflexivity.
  - vm_compute. reflexivity.
  - intros _. vm_compute. reflexivity.
  - intros k p. eexists. vm_compute. reflexivity.
  - intros subtype. reflexivity.
  - exists w'. split; [exact Hrun|]. split; [exact Htmp|exact Hcache].
Defined.

(** ** File names of the cache *)

Lemma string_app_cons c (s t : string) : String c s +:+ t = String c (s +:+ t).
Proof. reflexivity. Qed.

Lemma string_app_nil (t : string) : "" +:+ t = t.
Proof. reflexivity. Qed.

Lemma string_length_app (s t : string) :
  String.length (s +:+ t) = (String.length s + String.length t)%nat.
Proof.
  induction s as [|c s IH]; [reflexivity|].
  rewrite string_app_cons. cbn. rewrite IH. reflexivity.
Qed.

Lemma string_app_assoc (s t u : string) : (s +:+ t) +:+ u = s +:+ (t +:+ u).
Proof.
  induction s as [|c s IH]; [reflexivity|].
  rewrite !string_app_cons, IH. reflexivity.
Qed.

Lemma substring_prefix (s t : string) :
  String.substring 0 (String.length s) (s +:+ t) = s.
Proof.
  induction s as [|c s IH].
  - rewrite string_app_nil. destruct t; reflexivity.
  - rewrite string_app_cons. cbn. rewrite IH. reflexivity.
Qed.

Lemma rfind_dot_app (s t : string) : ∀ i found,
  rfind_dot (s +:+ t) i found = rfind_dot t (i + String.length s)%nat (rfind_dot s i found).
Proof.
  induction s as [|c s IH]; intros i found.
  - rewrite string_app_nil. cbn. rewrite Nat.add_0_r. reflexivity.
  - rewrite string_app_cons. cbn. rewrite IH. f_equal. lia.
Qed.

Lemma rfind_dot_dotless (t : string) : ∀ i found,
  dotless t = true → rfind_dot t i found = found.
Proof.
  unfold dotless. induction t as [|c t IH]; intros i found H; [reflexivity|].
  cbn in H |- *. apply negb_true_iff, orb_false_iff in H as [Hc Ht].
  rewrite Ascii.eqb_sym in Hc. rewrite Hc. apply IH. rewrite Ht. reflexivity.
Qed.

(** [with_suffix] replaces the extension of a name made of a non-empty
    stem, a dot and a non-empty extension without dot. *)
Lemma with_suffix_extension (stem ext suffix : string) :
  stem ≠ "" → ext ≠ "" → dotless ext = true →
  with_suffix (stem +:+ "." +:+ ext) suffix = stem +:+ suffix.
Proof.
  intros Hstem Hext Hdot. unfold with_suffix.
  rewrite rfind_dot_app. change ("." +:+ ext) with (String (Ascii.ascii_of_nat 46) ext).
  cbn [rfind_dot]. rewrite Ascii.eqb_refl.
  rewrite rfind_dot_dotless by exact Hdot.
  rewrite string_length_app. cbn [String.length].
  destruct stem as [|c stem]; [congruence|].
  destruct ext as [|d ext]; [congruence|].
  cbn [String.length Nat.add].
  replace ((0 <? S (String.length stem))%nat) with true
    by (symmetry; apply Nat.ltb_lt; lia).
  match goal with |- context [(?a <? ?b)%nat] =>
    replace ((a <? b)%nat) with true by (symmetry; apply Nat.ltb_lt; lia) end.
  cbn [andb].
  change (S (String.length stem)) with (String.length (String c stem)).
  rewrite substring_prefix. reflexivity.
Qed.

Lemma cache_key_metadata_file E request :
  output_format request ≠ "" → dotless (output_format request) = true →
  ∃ hash,
    _generate_cache_key E request = "sfx_" +:+ hash +:+ "." +:+ output_format request
    ∧ with_suffix (_generate_cache_key E request) ".json" = "sfx_" +:+ hash +:+ ".json".
Proof.
  intros Hext Hdot. unfold _generate_cache_key. eexists. split; [reflexivity|].
  rewrite <- (string_app_assoc "sfx_"), with_suffix_extension by (assumption || discriminate).
  apply string_app_assoc.
Qed.

(** X15.  After a successful call with [use_cache=True] for a format that
    is a plain extension other than [json] (such as the default [wav]), the
    cache directory holds the audio of the result under [sfx_<hash>.<format>]
    and, under [sfx_<hash>.json], the metadata with the duration, sample
    rate, bit depth, generation time, tile count and seed of the result;
    every other file of the cache is as it was. *)
Theorem successful_call_fills_cache E (request : SFXGenerationRequest)
    (w w' : World) (r : SFXGenerationResult) :
  in_range request →
  output_format request ≠ "" → dotless (output_format request) = true →
  output_format request ≠ "json" →
  generate_sfx E request true w = (Return r, w') →
  Result.success r = true →
  ∃ hash cached_at,
    _generate_cache_key E request = "sfx_" +:+ hash +:+ "." +:+ output_format request
    ∧ cache_dir w' !! ("sfx_" +:+ hash +:+ "." +:+ output_format request)
      = Result.audio_data r
    ∧ cache_dir w' !! ("sfx_" +:+ hash +:+ ".json")
      = Some (JsonText (metadata_of r cached_at))
    ∧ ∀ name, name ≠ "sfx_" +:+ hash +:+ "." +:+ output_format request →
              name ≠ "sfx_" +:+ hash +:+ ".json" →
              cache_dir w' !! name = cache_dir w !! name.
Proof.
  intros Hrange Hext Hdot Hjson Hrun Hsuccess.
  destruct (cache_key_metadata_file E request Hext Hdot) as (hash & Hkey & Hmeta).
  pose proof (returned_lookup E request true w r w' Hrange Hrun) as Hlookup.
  destruct (generate_sfx_files E request true w Hrange Hlookup)
    as (r0 & w0 & Hrun0 & _ & Hres).
  rewrite Hrun in Hrun0. injection Hrun0 as <- <-.
  destruct ((replay_waveform E request (backend w) (requests_served w)).1)
    as [final_audio|e]; [|destruct Hres as (-> & _); discriminate].
  destruct (encode E request final_audio (encoding_time w)) as [b|e];
    [|destruct Hres as (-> & _); discriminate].
  destruct Hres as (cached_at & _ & Haudio & _ & _ & _ & _ & _ & _ & _ & Hcache).
  rewrite Hmeta, Hkey in Hcache.
  assert (Hne : "sfx_" +:+ hash +:+ ".json" ≠ "sfx_" +:+ hash +:+ "." +:+ output_format request).
  { intros Heq. apply Hjson. symmetry.
    apply (inj (String.append "sfx_")), (inj (String.append hash)) in Heq.
    change ("." +:+ output_format request)
      with (String (Ascii.ascii_of_nat 46) (output_format request)) in Heq.
    injection Heq as Heq. exact Heq. }
  exists hash, cached_at. split; [exact Hkey|]. rewrite Hcache, Haudio.
  split; [|split].
  - rewrite lookup_insert_ne by exact Hne. apply lookup_insert_eq.
  - apply lookup_insert_eq.
  - intros name H1 H2. rewrite !lookup_insert_ne by congruence. reflexivity.
Qed.

Lemma successful_call_fills_cache_witness :
  ∃ r w' hash,
    generate_sfx stub_externals (rain 30 false 8) true (stub_world tone_backend)
    = (Return r, w')
    ∧ cache_dir w' !! ("sfx_" +:+ hash +:+ ".wav") = Result.audio_data r
    ∧ is_Some (cache_dir w' !! ("sfx_" +:+ hash +:+ ".json")).
Proof.
  eassert (Hrun : generate_sfx stub_externals (rain 30 false 8) true
                               (stub_world tone_backend) = (Return _, _))
    by (vm_compute; reflexivity).
  assert (Hrange : in_range (rain 30 false 8)) by (split; vm_compute; discriminate).
  destruct (successful_call_fills_cache stub_externals (rain 30 false 8)
              (stub_world tone_backend) _ _ Hrange
              ltac:(discriminate) eq_refl ltac:(discriminate) Hrun eq_refl)
    as (hash & cached_at & Hkey & Haudio & Hmeta & _).
  eexists _, _, hash. split; [exact Hrun|]. split; [exact Haudio|].
  rewrite Hmeta. eexists. reflexivity.
Defined.

(** ** The samples handed to the encoder *)

Lemma py_int_range x k :
  (- inject_Z k <= x ∧ x <= inject_Z k)%Q → - k ≤ py_int x ≤ k.
Proof.
  destruct x as [n d]. unfold py_int, Qle. cbn. intros [Hlo Hhi].
  assert (Hd : 0 < Z.pos d) by lia.
  destruct (Z.le_gt_cases 0 n) as [Hn|Hn].
  - rewrite Z.quot_div_nonneg by lia.
    pose proof (Z.div_pos n (Z.pos d) Hn Hd).
    assert (n / Z.pos d ≤ k); [|lia].
    apply Z.div_le_upper_bound; lia.
  - replace n with (- (- n)) by lia. rewrite Z.quot_opp_l by lia.
    rewrite Z.quot_div_nonneg by lia.
    pose proof (Z.div_pos (- n) (Z.pos d) ltac:(lia) Hd).
    assert (- n / Z.pos d ≤ k); [|lia].
    apply Z.div_le_upper_bound; lia.
Qed.

Lemma scaled_sample_range (x : Q) (k : Z) :
  0 ≤ k → (-1 <= x ∧ x <= 1)%Q → - k ≤ astype_int (x * inject_Z k) ≤ k.
Proof.
  intros Hk [Hlo Hhi]. apply py_int_range.
  assert (H0 : (0 <= inject_Z k)%Q).
  { change 0%Q with (inject_Z 0). rewrite <- Zle_Qle. exact Hk. }
  split; nra.
Qed.

Lemma stored_sample_range (v : Z) :
  -8388607 ≤ v ≤ 8388607 → -32768 ≤ Z.shiftr v 8 ≤ 32767.
Proof.
  intros Hv. rewrite Z.shiftr_div_pow2 by lia. change (2 ^ 8) with 256. split.
  - apply Z.div_le_lower_bound; lia.
  - apply Z.lt_succ_r. apply Z.div_lt_upper_bound; lia.
Qed.

(** X16.  [_save_audio] on samples between -1 and 1, with an encoder that
    accepts the file: the file at [file_path] holds one frame per sample;
    for a bit depth of 16 they are integers within +-32767 under subtype
    PCM_16; for 24 the array handed over holds integers within +-8388607,
    of which the PCM_24 file keeps the upper 24 bits, so that the stored
    samples are within -32768 and 32767; and for every other bit depth the
    float samples themselves under FLOAT. *)
Theorem saved_samples_fit_bit_depth E (audio : list Q) (file_path : tmp_path)
    (sr bd : Z) (w : World) :
  Forall (λ x, (-1 <= x ∧ x <= 1)%Q) audio →
  (∀ subtype, sf_write_error E file_path.2 sr subtype = None) →
  ∃ w' subtype data time_stamp,
    _save_audio E audio file_path sr bd w = (Return tt, w')
    ∧ tmp_dir w' !! file_path = Some (WavFile subtype sr data time_stamp)
    ∧ frame_count data = len audio
    ∧ ((bd = 16 ∧ subtype = PCM_16
        ∧ ∃ samples, data = IntData samples
                     ∧ Forall (λ z, -32767 ≤ z ≤ 32767) samples)
       ∨ (bd = 24 ∧ subtype = PCM_24
          ∧ ∃ samples, data = IntData samples
                       ∧ Forall (λ z, -8388607 ≤ z ≤ 8388607) samples
                       ∧ Forall (λ z, -32768 ≤ z ≤ 32767) samples)
       ∨ (bd ≠ 16 ∧ bd ≠ 24 ∧ subtype = FLOAT ∧ data = FloatData audio)).
Proof.
  intros Hin Hok. unfold _save_audio, sf_write, sound_file.
  destruct (Z.eqb_spec bd 16) as [H16|H16]; [|destruct (Z.eqb_spec bd 24) as [H24|H24]];
    rewrite Hok; eexists _, _, _, _; (split; [reflexivity|]);
    cbn [tmp_dir log set_tmp_dir stored_samples];
    (split; [apply lookup_insert_eq|]).
  - split; [unfold frame_count, len; rewrite length_map; reflexivity|].
    left. repeat split; [exact H16|]. eexists. split; [reflexivity|].
    apply Forall_map. eapply Forall_impl; [exact Hin|].
    intros x Hx. apply (scaled_sample_range x 32767); [lia|exact Hx].
  - split; [unfold frame_count, len; rewrite !length_map; reflexivity|].
    right; left. repeat split; [exact H24|]. eexists. split; [reflexivity|].
    assert (Hstored : Forall (λ z, -32768 ≤ z ≤ 32767)
                        (map (λ v, Z.shiftr v 8)
                             (map (λ x, astype_int (x * 8388607)) audio))).
    { apply Forall_map, Forall_map. eapply Forall_impl; [exact Hin|].
      intros x Hx. cbn. apply stored_sample_range.
      apply (scaled_sample_range x 8388607); [lia|exact Hx]. }
    split; [|exact Hstored].
    eapply Forall_impl; [exact Hstored|]. cbn. intros z Hz. lia.
  - split; [reflexivity|]. right; right. repeat split; assumption.
Qed.

Lemma saved_samples_fit_bit_depth_witness :
  ∃ w' samples time_stamp,
    _save_audio stub_externals [1; (-1); 1 # 2; (-1) # 3]%Q ("tmp0", ".wav") 48000 16
                (stub_world tone_backend) = (Return tt, w')
    ∧ tmp_dir w' !! ("tmp0", ".wav")
      = Some (WavFile PCM_16 48000 (IntData samples) time_stamp)
    ∧ Forall (λ z, -32767 ≤ z ≤ 32767) samples.
Proof.
  destruct (saved_samples_fit_bit_depth stub_externals [1; (-1); 1 # 2; (-1) # 3]%Q
              ("tmp0", ".wav") 48000 16 (stub_world tone_backend))
    as (w' & subtype & data & time_stamp & Hrun & Hfile & _ & Hcase).
  - repeat (apply List.Forall_cons; [split; unfold Qle; cbn; lia|]). apply List.Forall_nil.
  - intros subtype. reflexivity.
  - destruct Hcase as [(_ & -> & samples & -> & Hfit)|[(H & _)|(H & _)]];
      [|exfalso; lia|exfalso; lia].
    exists w', samples, time_stamp. repeat split; assumption.
Defined.

(** ** Requests that the HTTP layer admits *)

Lemma model_valid_fields m :
  model_valid m = true →
  (1 <= m_duration m ∧ m_duration m <= 300)%Q
  ∧ (1 # 10 <= m_crossfade_duration m ∧ m_crossfade_duration m <= 5)%Q
  ∧ (1 ≤ py_str_len (m_prompt m) ≤ 500)%nat
  ∧ match m_seed m with Some s => 0 ≤ s ≤ 2147483647 | None => True end.
Proof.
  unfold model_valid. rewrite !andb_true_iff, !Qle_bool_iff.
  intros ((((((Hp1 & Hp2) & Hd1) & Hd2) & Hs) & Hc1) & Hc2).
  apply Nat.leb_le in Hp1, Hp2.
  repeat split; try assumption.
  destruct (m_seed m); [|exact I]. apply andb_true_iff in Hs as [H1 H2]. lia.
Qed.

(** The sample count of a float between two bounds, at 48 kHz. *)
Lemma samples_at_48k (x lo hi : Q) (n_lo n_hi : Z) :
  (0 <= lo)%Q → (lo <= x ∧ x <= hi)%Q →
  0 ≤ n_lo → n_hi < 2 ^ 53 →
  (inject_Z n_lo <= round_double lo * 48000)%Q →
  (round_double hi * 48000 <= inject_Z n_hi)%Q →
  n_lo ≤ py_int (float_mul x (inject_Z 48000)) ≤ n_hi.
Proof.
  intros Hlo0 [Hlo Hhi] Hn_lo Hn_hi Hlow Hhigh.
  pose proof (round_double_mono _ _ Hlo) as Hrlo.
  pose proof (round_double_mono _ _ Hhi) as Hrhi.
  change (inject_Z 48000) with 48000%Q in *.
  destruct (float_mul_int_bounds x 48000 n_hi) as [Hf Hc];
    [lra|lia|exact Hn_hi|change (inject_Z 48000) with 48000%Q; lra|].
  change (inject_Z 48000) with 48000%Q in Hf, Hc.
  assert (Hfloor : n_lo ≤ Qfloor (round_double x * 48000)).
  { rewrite <- (Qfloor_Z n_lo). apply Qfloor_resp_le. lra. }
  assert (Hceil : Qceiling (round_double x * 48000) ≤ n_hi).
  { rewrite <- (Qceiling_Z n_hi). apply Qceiling_resp_le. lra. }
  lia.
Qed.

Lemma admitted_request_bounds m request :
  model_valid m = true →
  request = sfx_request_of m ∨ request = ambience_request_of m →
  in_range request
  ∧ 4800 ≤ crossfade_samples_of (crossfade_duration request) (sample_rate request) ≤ 240000
  ∧ 48000 ≤ target_samples_of request ≤ 14400000
  ∧ 1 ≤ tiles_needed_of request ≤ 14.
Proof.
  intros Hvalid Hreq.
  destruct (model_valid_fields m Hvalid) as ((Hd1 & Hd2) & (Hc1 & Hc2) & _).
  assert (Hfields : duration request = m_duration m
                    ∧ crossfade_duration request = m_crossfade_duration m
                    ∧ sample_rate request = 48000).
  { destruct Hreq as [-> | ->]; repeat split. }
  destruct Hfields as (Hd & Hc & Hsr).
  assert (Hrange : in_range request).
  { unfold in_range, min_duration, max_duration. rewrite Hd. split; lra. }
  split; [exact Hrange|].
  unfold crossfade_samples_of, target_samples_of. rewrite Hd, Hc, Hsr.
  split; [|split].
  - apply (samples_at_48k _ (1 # 10) 5); [lra|split; assumption|lia|lia| |];
      vm_compute; discriminate.
  - apply (samples_at_48k _ 1 300); [lra|split; assumption|lia|lia| |];
      vm_compute; discriminate.
  - split; [|apply tiles_needed_at_most_14; exact Hrange].
    pose proof (tiles_needed_positive request Hrange) as Hpos. lia.
Qed.

(** X17.  A request model that satisfies the [Field] constraints of the
    HTTP layer, turned into a request as the endpoints and the Celery tasks
    do (for sound effects or for ambience), passes the validation of
    [generate_sfx]: the crossfade is between 4800 and 240000 samples, the
    plan has between 1 and 14 tiles, and when the cache lookup does not
    fail, the provider answers every tile with audio the decoder accepts
    and the encoder accepts the file, the call succeeds with a 24-bit PCM
    file at 48 kHz of [int(duration * 48000)] frames (the float product
    truncated), between 48000 and 14400000. *)
Theorem admitted_request_is_served E (m : SFXGenerationRequestModel)
    (request : SFXGenerationRequest) (use_cache : bool) (w : World) :
  model_valid m = true →
  request = sfx_request_of m ∨ request = ambience_request_of m →
  lookup_returns E request use_cache w →
  backend_delivers E request (backend w) →
  sf_write_error E ".wav" 48000 PCM_24 = None →
  4800 ≤ crossfade_samples_of (crossfade_duration request) (sample_rate request) ≤ 240000
  ∧ ∃ r w' samples,
      generate_sfx E request use_cache w = (Return r, w')
      ∧ Result.success r = true
      ∧ Result.audio_data r = Some (WavFile PCM_24 48000 (IntData samples) None)
      ∧ len samples = py_int (float_mul (m_duration m) (inject_Z 48000))
      ∧ 48000 ≤ len samples ≤ 14400000
      ∧ 1 ≤ Result.tiles_generated r ≤ 14.
Proof.
  intros Hvalid Hreq Hlookup Hok Henc.
  destruct (admitted_request_bounds m request Hvalid Hreq) as (Hrange & Hcs & Htarget & Htiles).
  split; [exact Hcs|].
  assert (Hfields : duration request = m_duration m ∧ sample_rate request = 48000
                    ∧ bit_depth request = 24 ∧ output_format request = "wav").
  { destruct Hreq as [-> | ->]; repeat split. }
  destruct Hfields as (Hd & Hsr & Hbd & Hfmt).
  destruct (replay_waveform_delivers E request (backend w) (requests_served w)
              Hrange ltac:(lia) ltac:(lia) Hok) as (final_audio & Hwave & Hlen).
  destruct (generate_sfx_files E request use_cache w Hrange Hlookup)
    as (r & w' & Hrun & _ & Hres).
  rewrite Hwave in Hres. cbn [fst] in Hres.
  unfold encode, encode_samples, sound_file in Hres. rewrite Hbd, Hfmt, Hsr in Hres.
  cbn [Z.eqb Pos.eqb peak_chunk stored_samples] in Hres.
  change ("." +:+ "wav") with ".wav" in Hres. rewrite Henc in Hres.
  destruct Hres as (cached_at & Hs & Ha & _ & _ & _ & _ & Hn & _).
  eexists r, w', _.
  split; [exact Hrun|]. split; [exact Hs|]. split; [exact Ha|].
  assert (Hl : len (map (λ v, Z.shiftr v 8)
                        (map (λ x, astype_int (x * 8388607)) final_audio))
               = target_samples_of request).
  { unfold len in *. rewrite !length_map. exact Hlen. }
  rewrite Hl, Hn. repeat split; try lia.
  unfold target_samples_of. rewrite Hd, Hsr. reflexivity.
Qed.

Lemma admitted_request_is_served_witness :
  ∃ r w',
    generate_sfx stub_externals
      (ambience_request_of {| m_prompt := "rain on leaves"; m_duration := 30;
                              m_seed := Some 8; m_loopable := false;
                              m_crossfade_duration := 1 |})
      true (stub_world tone_backend) = (Return r, w')
    ∧ Result.success r = true.
Proof.
  destruct (admitted_request_is_served stub_externals
              {| m_prompt := "rain on leaves"; m_duration := 30;
                 m_seed := Some 8; m_loopable := false;
                 m_crossfade_duration := 1 |}
              (ambience_request_of {| m_prompt := "rain on leaves"; m_duration := 30;
                                      m_seed := Some 8; m_loopable := false;
                                      m_crossfade_duration := 1 |})
              true (stub_world tone_backend))
    as (_ & r & w' & samples & Hrun & Hs & _).
  - reflexivity.
  - right. reflexivity.
  - intros _. vm_compute. reflexivity.
  - intros k p. eexists. vm_compute. reflexivity.
  - reflexivity.
  - exists r, w'. split; [exact Hrun|exact Hs].
Defined.

(** ** Cache maintenance *)





























(** ** A loopable sound of one tile *)

Lemma make_loopable_length (audio : list Q) cd sr :
  0 < crossfade_samples_of cd sr →
  crossfade_samples_of cd sr * 2 ≤ len audio →
  ∃ out, _make_loopable audio cd sr = Return out
         ∧ len out = len audio - crossfade_samples_of cd sr.
Proof.
  intros Hcs Hlen. unfold _make_loopable.
  set (cs := crossfade_samples_of cd sr) in *.
  destruct (Z.ltb_spec (len audio) (cs * 2)); [lia|].
  destruct (linspace_length 1 0 cs) as (fade_out & -> & Lout); [lia|].
  destruct (linspace_length 0 1 cs) as (fade_in & -> & Lin); [lia|].
  cbn [mbind outcome_bind].
  rewrite py_slice_suffix, py_slice_prefix, py_slice_middle by lia.
  unfold np_mul, np_add.
  assert (Lhead : length (take (Z.to_nat cs) audio) = Z.to_nat cs)
    by (rewrite length_take; unfold len in *; lia).
  assert (Ltail : length (drop (Z.to_nat (len audio - cs)) audio) = Z.to_nat cs)
    by (rewrite length_drop; unfold len in *; lia).
  rewrite (broadcast_same_length Qmult) by congruence. cbn [mbind outcome_bind].
  rewrite (broadcast_same_length Qmult) by congruence. cbn [mbind outcome_bind].
  rewrite (broadcast_same_length Qplus)
    by (rewrite !length_zip_with_same by congruence; congruence).
  eexists. split; [reflexivity|].
  rewrite len_app. unfold len in *.
  rewrite !length_zip_with_same
    by (rewrite ?length_zip_with_same by congruence; congruence).
  rewrite !length_take, length_drop. lia.
Qed.

(** X21.  A loopable request served by one tile: the loop wrapper takes
    [crossfade_samples] off the tile, nothing is stitched, and the duration
    enforcer fills what is missing with zeros.  So when the tile is shorter
    than the target plus the crossfade (as a tile of exactly the requested
    length is), the audio returned is the wrapped tile followed by silence,
    not a buffer whose end meets its start. *)
Theorem loopable_single_tile_ends_in_silence (request : SFXGenerationRequest)
    (tile : list Q) :
  let cs := crossfade_samples_of (crossfade_duration request) (sample_rate request) in
  let target_samples := target_samples_of request in
  loopable request = true →
  0 < cs → cs * 2 ≤ len tile → len tile - cs < target_samples →
  ∃ looped,
    _make_loopable tile (crossfade_duration request) (sample_rate request) = Return looped
    ∧ stitch_stage request [tile] = Return looped
    ∧ len looped = len tile - cs
    ∧ ensure_exact_duration looped target_samples
      = Return (looped ++ replicate (Z.to_nat (target_samples - (len tile - cs))) 0%Q).
Proof.
  intros cs target_samples Hloop Hcs Hlen Hshort.
  destruct (make_loopable_length tile _ _ Hcs Hlen) as (looped & Hrun & Hl).
  fold cs in Hl.
  exists looped. split; [exact Hrun|]. split; [|split; [exact Hl|]].
  - unfold stitch_stage. rewrite Hloop. cbn [for_each mbind outcome_bind].
    rewrite Hrun. reflexivity.
  - destruct (ensure_exact_duration_cases looped target_samples ltac:(lia)) as (_ & Hpad & _).
    rewrite Hpad by lia. rewrite Hl. reflexivity.
Qed.

Lemma loopable_single_tile_ends_in_silence_witness :
  ∃ looped,
    stitch_stage (rain 1 true 8) [replicate 8 1%Q] = Return looped
    ∧ ensure_exact_duration looped 8 = Return (looped ++ replicate 4 0%Q).
Proof.
  destruct (loopable_single_tile_ends_in_silence (rain 1 true 8) (replicate 8 1%Q))
    as (looped & _ & Hstage & _ & Hpad).
  - reflexivity.
  - vm_compute. reflexivity.
  - vm_compute. discriminate.
  - vm_compute. reflexivity.
  - exists looped. split; [exact Hstage|]. exact Hpad.
Defined.
